(** * GPU-aware custom scheduler: a shallow embedding and its properties

    The development embeds
    [examples/08-custom-scheduler-binary/02-gpu-aware-scheduler.py]
    (class [GPUAwareScheduler]) function by function.

    - Python [int] is [Z]; Python [float] is IEEE 754 binary64, taken from
      the standard library's executable specification [spec_float] with
      [prec = 53] and [emax = 1024];
    - Python [str] is [string]; a [dict] is an insertion-ordered association
      list with unique keys (iteration order decides ties in the placement
      loops);
    - an exception is the [Raise] branch of [result]; the mutable fields of
      [self] are threaded explicitly and the calls made to the outside
      (node listing, exporter query, binding) are collected in a trace. *)

From Stdlib Require Import ZArith List String Ascii Bool Lia.
From Stdlib Require Import Permutation Sorted.
From Stdlib Require Import DecimalString.
From Stdlib.Floats Require Import SpecFloat.
Import ListNotations.

Local Open Scope string_scope.
Local Open Scope list_scope.
Local Open Scope Z_scope.

Set Implicit Arguments.

(* ================================================================== *)
(** * Python runtime fragments used by the scheduler *)

(** ** Exceptions *)

Inductive exn : Type :=
| ZeroDivisionError
| OverflowError
| ValueError
| TypeError
| IndexError
| ApiException.

Inductive result (A : Type) : Type :=
| Ok (a : A)
| Raise (e : exn).

Arguments Ok {A} a.
Arguments Raise {A} e.

Definition bind {A B : Type} (m : result A) (k : A -> result B) : result B :=
  match m with
  | Ok a => k a
  | Raise e => Raise e
  end.

Notation "x <- m ;; k" := (bind m (fun x => k))
  (at level 61, m at next level, right associativity).

(** [[f(x) for x in l]] where [f] may raise: left to right, stopping at the
    first exception. *)
Fixpoint mapM {A B : Type} (f : A -> result B) (l : list A) : result (list B) :=
  match l with
  | [] => Ok []
  | x :: l' => y <- f x ;; ys <- mapM f l' ;; Ok (y :: ys)
  end.

(** ** Floats (binary64) *)

Definition float : Type := spec_float.

Definition prec : Z := 53.
Definition emax : Z := 1024.

Definition fadd : float -> float -> float := SFadd prec emax.
Definition fsub : float -> float -> float := SFsub prec emax.
Definition fmul : float -> float -> float := SFmul prec emax.

(** [a < b] on floats; Python's [a > b] is [fltb b a]. *)
Definition fltb : float -> float -> bool := SFltb.
Definition feqb : float -> float -> bool := SFeqb.

(** [float(n)] for the small integer literals of the source, which are all
    exactly representable. *)
Definition float_of_int (n : Z) : float := binary_normalize prec emax n 0 false.

Definition neg_inf : float := S754_infinity true.
Definition fzero : float := S754_zero false.

(** The literals [0.3] and [1.5]. *)
Definition f0_3 : float := S754_finite false 5404319552844595 (-54).
Definition f1_5 : float := S754_finite false 6755399441055744 (-52).

(** [n / d] on two ints (true division): the correctly rounded quotient,
    [ZeroDivisionError] on a zero divisor and [OverflowError] when the
    quotient exceeds the float range. *)
Definition int_true_div (n d : Z) : result float :=
  match d with
  | Z0 => Raise ZeroDivisionError
  | Zpos pd | Zneg pd =>
      match n with
      | Z0 => Ok (S754_zero (d <? 0))
      | Zpos pn | Zneg pn =>
          match SFdiv prec emax (S754_finite (n <? 0) pn 0)
                                (S754_finite (d <? 0) pd 0) with
          | S754_infinity _ => Raise OverflowError
          | q => Ok q
          end
      end
  end.

(** [sum(xs)] over floats: Python starts from the int [0] and adds from the
    left, so the first addition is [0.0 + x]; the empty sum, the int [0],
    is represented by [0.0]. *)
Definition py_sum (xs : list float) : float := fold_left fadd xs fzero.

(** ** Strings *)

(** [sub in s]. *)
Fixpoint contains (sub s : string) : bool :=
  match s with
  | EmptyString => prefix sub EmptyString
  | String _ s' => prefix sub s || contains sub s'
  end.

(** [s.split(sep)] for a one-character separator. *)
Fixpoint split_char (sep : ascii) (s : string) : list string :=
  match s with
  | EmptyString => [EmptyString]
  | String c s' =>
      if Ascii.eqb c sep then EmptyString :: split_char sep s'
      else match split_char sep s' with
           | [] => [String c EmptyString]
           | w :: ws => String c w :: ws
           end
  end.

(** [l[i]] for a non-negative literal index. *)
Definition py_index {A : Type} (l : list A) (i : nat) : result A :=
  match nth_error l i with
  | Some x => Ok x
  | None => Raise IndexError
  end.

(** The interpreter's limit on the number of digits of a conversion between
    [int] and [str] ([sys.get_int_max_str_digits()]). *)
Definition max_str_digits : nat := 4300.

(** The ASCII characters [int] strips: tab, line feed, vertical tab, form
    feed, carriage return and space. *)
Definition is_space (c : ascii) : bool :=
  let n := nat_of_ascii c in
  (((9 <=? n) && (n <=? 13)) || (n =? 32))%nat.

Definition is_digit (c : ascii) : bool :=
  let n := nat_of_ascii c in ((48 <=? n) && (n <=? 57))%nat.

Definition digit_val (c : ascii) : Z := Z.of_nat (nat_of_ascii c) - 48.

Fixpoint lstrip (l : list ascii) : list ascii :=
  match l with
  | c :: l' => if is_space c then lstrip l' else l
  | [] => []
  end.

Definition strip (l : list ascii) : list ascii := rev (lstrip (rev (lstrip l))).

(** Decimal digits with single underscores allowed between digits. *)
Fixpoint parse_digits (acc : Z) (after_digit : bool) (l : list ascii) : option Z :=
  match l with
  | [] => if after_digit then Some acc else None
  | c :: l' =>
      if is_digit c then parse_digits (10 * acc + digit_val c) true l'
      else if Ascii.eqb c "_"%char then
             if after_digit then parse_digits acc false l' else None
      else None
  end.

(** [int(s)] on an ASCII [str] in base 10: surrounding whitespace, an
    optional sign, then digits; anything else is a [ValueError], and so is a
    literal of more than [max_str_digits] digits (leading zeros count,
    underscores do not).  (Non-ASCII digits and whitespace are outside this
    model.) *)
Definition py_int (s : string) : result Z :=
  let body := strip (list_ascii_of_string s) in
  let '(neg, ds) :=
    match body with
    | c :: ds =>
        if Ascii.eqb c "-"%char then (true, ds)
        else if Ascii.eqb c "+"%char then (false, ds)
        else (false, body)
    | [] => (false, [])
    end in
  match parse_digits 0 false ds with
  | Some n =>
      if (max_str_digits <? List.length (filter is_digit ds))%nat then Raise ValueError
      else Ok (if neg then - n else n)
  | None => Raise ValueError
  end.

(** [int(v)] where [v] is a [str] or [None]. *)
Definition py_int_opt (v : option string) : result Z :=
  match v with
  | Some s => py_int s
  | None => Raise TypeError
  end.

(** The decimal digits of an int, with its sign. *)
Definition decimal_of_int (n : Z) : string := NilZero.string_of_int (Z.to_int n).

(** The least magnitude that has more than [max_str_digits] digits,
    [10 ^ 4300]. *)
Definition str_digits_bound : Z := Eval vm_compute in 10 ^ Z.of_nat max_str_digits.

(** [str(n)] for an int, as an f-string and the [repr] of a list render it:
    a [ValueError] when [n] has more than [max_str_digits] digits. *)
Definition str_of_int (n : Z) : result string :=
  if str_digits_bound <=? Z.abs n then Raise ValueError else Ok (decimal_of_int n).

(** [str(len(l))]: a length is at most [sys.maxsize], which has 19 digits,
    so this conversion does not reach the limit. *)
Definition str_of_len {A : Type} (l : list A) : string :=
  decimal_of_int (Z.of_nat (List.length l)).

(** ** Lists *)

(** [l[a:b]] with Python's treatment of negative and out-of-range bounds. *)
Definition clamp_index (len i : Z) : Z :=
  if i <? 0 then Z.max 0 (i + len) else Z.min i len.

Definition py_slice {A : Type} (l : list A) (a b : Z) : list A :=
  let len := Z.of_nat (List.length l) in
  let a' := clamp_index len a in
  let b' := clamp_index len b in
  firstn (Z.to_nat (b' - a')) (skipn (Z.to_nat a') l).

(** [range(n)]. *)
Definition py_range (n : Z) : list Z := map Z.of_nat (seq 0 (Z.to_nat n)).

(** ** Dictionaries (insertion ordered) *)

Definition dict (V : Type) : Type := list (string * V).

Fixpoint dict_get {V : Type} (d : dict V) (k : string) : option V :=
  match d with
  | [] => None
  | (k', v) :: d' => if String.eqb k k' then Some v else dict_get d' k
  end.

(** [d.get(k, default)]. *)
Definition dict_get_default {V : Type} (d : dict V) (k : string) (default : V) : V :=
  match dict_get d k with
  | Some v => v
  | None => default
  end.

(** [k in d]. *)
Definition dict_mem {V : Type} (k : string) (d : dict V) : bool :=
  match dict_get d k with
  | Some _ => true
  | None => false
  end.

(** [d[k] = v]: an existing key keeps its position, a new key goes last. *)
Fixpoint dict_set {V : Type} (k : string) (v : V) (d : dict V) : dict V :=
  match d with
  | [] => [(k, v)]
  | (k', v') :: d' =>
      if String.eqb k k' then (k, v) :: d' else (k', v') :: dict_set k v d'
  end.

(** [x or {}] for an optional mapping. *)
Definition or_empty {V : Type} (d : option (dict V)) : dict V :=
  match d with
  | Some m => m
  | None => []
  end.

(** [for x in l: acc = f(acc, x)] where the body may raise. *)
Fixpoint foldM {A S : Type} (f : S -> A -> result S) (l : list A) (acc : S) : result S :=
  match l with
  | [] => Ok acc
  | x :: l' => acc' <- f acc x ;; foldM f l' acc'
  end.

(* ================================================================== *)
(** * Orchestrator objects: the attributes the scheduler reads *)

Record V1EnvVar : Type := {
  env_name : string;
  env_value : option string
}.

Record V1ResourceRequirements : Type := {
  requests : option (dict string)
}.

(** The API server always serialises a container's [resources] object, so
    the attribute itself is present; its [requests] may be [None]. *)
Record V1Container : Type := {
  env : option (list V1EnvVar);
  args : option (list string);
  resources : V1ResourceRequirements
}.

Record V1Pod : Type := {
  pod_name : string;                       (* pod.metadata.name *)
  pod_namespace : string;                  (* pod.metadata.namespace *)
  pod_uid : string;                        (* pod.metadata.uid *)
  deletion_timestamp : option string;      (* pod.metadata.deletion_timestamp *)
  pod_scheduler_name : string;             (* pod.spec.scheduler_name *)
  pod_node_name : option string;           (* pod.spec.node_name *)
  containers : list V1Container            (* pod.spec.containers *)
}.

Record V1Node : Type := {
  metadata_name : string;                  (* node.metadata.name *)
  labels : option (dict string);           (* node.metadata.labels *)
  capacity : option (dict string)          (* node.status.capacity *)
}.

(* ================================================================== *)
(** * The scheduler's data classes *)

Module GPUInfo.
Record t : Type := {
  node : string;
  gpu_index : Z;
  memory_total : Z;
  memory_used : Z;
  memory_free : Z;
  utilization : float;
  product : string
}.
End GPUInfo.

Module NodeGPUState.
Record t : Type := {
  node_name : string;
  gpus : list GPUInfo.t;
  total_gpus : Z;
  free_gpus : Z;
  nvlink_enabled : bool;
  socket_count : Z
}.
End NodeGPUState.

Module SchedulingResult.
Record t : Type := {
  node : string;
  gpus : list Z;
  score : float;
  reason : string
}.
End SchedulingResult.

(** The mutable attributes of a [GPUAwareScheduler] instance. *)
Record Scheduler : Type := {
  scheduler_name : string;
  gpu_state : dict NodeGPUState.t;
  last_update : float;
  cache_ttl : float
}.

(** [__init__]: empty cache, [last_update = 0], [cache_ttl = 10]. *)
Definition init (scheduler_name : string) : Scheduler :=
  {| scheduler_name := scheduler_name;
     gpu_state := [];
     last_update := fzero;
     cache_ttl := float_of_int 10 |}.

(** What the outside answers during one call of [schedule_pod]. *)
Record World : Type := {
  time_time : float;
  list_node : result (list V1Node);
  dcgm_query : string -> result (list GPUInfo.t);
  create_namespaced_pod_binding : string -> string -> string -> result unit
}.

(** Calls that leave the process. *)
Inductive call : Type :=
| ListNode
| QueryMetrics (node_name : string)
| CreateBinding (name namespace node_name : string).

(* ================================================================== *)
(** * Resource request and tensor-parallel size *)

Definition get_gpu_requirement (pod : V1Pod) : result Z :=
  match containers pod with
  | [] => Ok 0
  | c :: _ =>
      let gpu_req := or_empty (requests (resources c)) in
      let gpu_str := dict_get_default gpu_req "nvidia.com/gpu" "0" in
      py_int gpu_str
  end.

(** The first environment variable called [TENSOR_PARALLEL_SIZE], over the
    containers in order. *)
Fixpoint find_tp_env_var (vars : list V1EnvVar) : option V1EnvVar :=
  match vars with
  | [] => None
  | v :: vars' =>
      if String.eqb (env_name v) "TENSOR_PARALLEL_SIZE" then Some v
      else find_tp_env_var vars'
  end.

Fixpoint find_tp_env (cs : list V1Container) : option V1EnvVar :=
  match cs with
  | [] => None
  | c :: cs' =>
      match find_tp_env_var (match env c with Some vars => vars | None => [] end) with
      | Some v => Some v
      | None => find_tp_env cs'
      end
  end.

Fixpoint find_tp_arg (l : list string) : option string :=
  match l with
  | [] => None
  | arg :: l' =>
      if contains "--tensor-parallel-size" arg then Some arg else find_tp_arg l'
  end.

Definition get_tensor_parallel_size (pod : V1Pod) : result Z :=
  match find_tp_env (containers pod) with
  | Some env_var => py_int_opt (env_value env_var)
  | None =>
      c0 <- py_index (containers pod) 0 ;;
      match find_tp_arg (match args c0 with Some l => l | None => [] end) with
      | Some arg => v <- py_index (split_char "="%char arg) 1 ;; py_int v
      | None => get_gpu_requirement pod
      end
  end.

(* ================================================================== *)
(** * GPU state cache *)

(** The exporter query.  In the source the body of the [try] is a stand-in
    for the exporter call; it is [dcgm_query] here so that the [except]
    branch can be taken, and [mock_dcgm] is the stand-in itself. *)
Definition query_node_gpu_metrics (w : World) (node_name : string) : list GPUInfo.t :=
  match dcgm_query w node_name with
  | Ok gpu_infos => gpu_infos
  | Raise _ => []
  end.

Definition mock_dcgm (node_name : string) : result (list GPUInfo.t) :=
  Ok [ {| GPUInfo.node := node_name; GPUInfo.gpu_index := 0;
          GPUInfo.memory_total := 81920; GPUInfo.memory_used := 1024;
          GPUInfo.memory_free := 80896;
          GPUInfo.utilization := float_of_int 5; GPUInfo.product := "H100" |};
       {| GPUInfo.node := node_name; GPUInfo.gpu_index := 1;
          GPUInfo.memory_total := 81920; GPUInfo.memory_used := 2048;
          GPUInfo.memory_free := 79872;
          GPUInfo.utilization := float_of_int 10; GPUInfo.product := "H100" |} ].

Definition check_nvlink_enabled (node : V1Node) : bool :=
  let labels := or_empty (labels node) in
  String.eqb (dict_get_default labels "gpu.nvlink" "false") "true".

Definition get_socket_count (node : V1Node) : result Z :=
  let labels := or_empty (labels node) in
  py_int (dict_get_default labels "cpu.sockets" "1").

(** [g.memory_free > 1000]: the test behind [free_gpus] and [select_gpu_set]. *)
Definition is_free (g : GPUInfo.t) : bool := 1000 <? GPUInfo.memory_free g.

(** [sum(1 for g in gpu_infos if g.memory_free > 1000)]. *)
Definition count_free (gpu_infos : list GPUInfo.t) : Z :=
  Z.of_nat (List.length (filter is_free gpu_infos)).

(** One iteration of the loop over the listed nodes: the mapping after it
    (or the exception that leaves the loop) and the calls made. *)
Definition refresh_node (w : World) (gs : dict NodeGPUState.t) (node : V1Node)
  : result (dict NodeGPUState.t) * list call :=
  let node_name := metadata_name node in
  match capacity node with
  | None => (Raise TypeError, [])
  | Some cap =>
      if negb (dict_mem "nvidia.com/gpu" cap) then (Ok gs, [])
      else
        let gpu_infos := query_node_gpu_metrics w node_name in
        match gpu_infos with
        | [] => (Ok gs, [QueryMetrics node_name])
        | _ :: _ =>
            let nvlink := check_nvlink_enabled node in
            match get_socket_count node with
            | Raise e => (Raise e, [QueryMetrics node_name])
            | Ok sockets =>
                (Ok (dict_set node_name
                       {| NodeGPUState.node_name := node_name;
                          NodeGPUState.gpus := gpu_infos;
                          NodeGPUState.total_gpus := Z.of_nat (List.length gpu_infos);
                          NodeGPUState.free_gpus := count_free gpu_infos;
                          NodeGPUState.nvlink_enabled := nvlink;
                          NodeGPUState.socket_count := sockets |} gs),
                 [QueryMetrics node_name])
            end
        end
  end.

(** [for node in nodes: ...] on the mapping held by [self]: an exception
    leaves the mapping as the iterations before it made it. *)
Fixpoint refresh_loop (w : World) (nodes : list V1Node) (gs : dict NodeGPUState.t)
  : result unit * dict NodeGPUState.t * list call :=
  match nodes with
  | [] => (Ok tt, gs, [])
  | node :: rest =>
      match refresh_node w gs node with
      | (Raise e, tr) => (Raise e, gs, tr)
      | (Ok gs', tr) =>
          let '(r, gs'', tr') := refresh_loop w rest gs' in
          (r, gs'', tr ++ tr')
      end
  end.

Definition update_gpu_state (w : World) (self : Scheduler)
  : result unit * Scheduler * list call :=
  let now := time_time w in
  if fltb (fsub now (last_update self)) (cache_ttl self) then (Ok tt, self, [])
  else
    match list_node w with
    | Raise e => (Raise e, self, [ListNode])
    | Ok nodes =>
        let '(r, gs, tr) := refresh_loop w nodes [] in
        let self1 := {| scheduler_name := scheduler_name self;
                        gpu_state := gs;
                        last_update := last_update self;
                        cache_ttl := cache_ttl self |} in
        match r with
        | Raise e => (Raise e, self1, ListNode :: tr)
        | Ok _ =>
            (Ok tt,
             {| scheduler_name := scheduler_name self;
                gpu_state := gs;
                last_update := now;
                cache_ttl := cache_ttl self |},
             ListNode :: tr)
        end
    end.

(* ================================================================== *)
(** * Placement engine *)

Definition score_single_gpu (gpu : GPUInfo.t) (state : NodeGPUState.t) (pod : V1Pod)
  : result float :=
  let score := fzero in
  (* Factor 1: free memory *)
  frac <- int_true_div (GPUInfo.memory_free gpu) (GPUInfo.memory_total gpu) ;;
  let score := fadd score (fmul frac (float_of_int 50)) in
  (* Factor 2: utilization *)
  let score := fadd score (fmul (fsub (float_of_int 100) (GPUInfo.utilization gpu)) f0_3) in
  (* Factor 3: GPU type preference *)
  let score := if contains "H100" (GPUInfo.product gpu)
               then fadd score (float_of_int 30) else score in
  (* Factor 4: NVLink bonus *)
  let score := if NodeGPUState.nvlink_enabled state
               then fadd score (float_of_int 10) else score in
  Ok score.

(** The pair [(best_result, best_score)] carried by both placement loops. *)
Definition best : Type := (option SchedulingResult.t * float)%type.

Definition best_init : best := (None, neg_inf).

(** Body of the inner loop of [find_single_gpu_placement].  The decision,
    and with it the f-string of its reason, is built only when the score
    beats the best one. *)
Definition single_gpu_step (node_name : string) (state : NodeGPUState.t) (pod : V1Pod)
    (acc : best) (gpu : GPUInfo.t) : result best :=
  if GPUInfo.memory_free gpu <? 1000 then Ok acc
  else
    score <- score_single_gpu gpu state pod ;;
    if fltb (snd acc) score then
      idx <- str_of_int (GPUInfo.gpu_index gpu) ;;
      free <- str_of_int (GPUInfo.memory_free gpu) ;;
      Ok (Some {| SchedulingResult.node := node_name;
                  SchedulingResult.gpus := [GPUInfo.gpu_index gpu];
                  SchedulingResult.score := score;
                  SchedulingResult.reason :=
                    ("Single GPU " ++ idx ++ " with " ++ free ++ "MB free")%string |},
          score)
    else Ok acc.

(** Body of the outer loop of [find_single_gpu_placement]. *)
Definition single_node_step (gpu_req : Z) (pod : V1Pod)
    (acc : best) (entry : string * NodeGPUState.t) : result best :=
  let '(node_name, state) := entry in
  if NodeGPUState.free_gpus state <? gpu_req then Ok acc
  else foldM (single_gpu_step node_name state pod) (NodeGPUState.gpus state) acc.

Definition find_single_gpu_placement (gs : dict NodeGPUState.t) (gpu_req : Z) (pod : V1Pod)
  : result (option SchedulingResult.t) :=
  r <- foldM (single_node_step gpu_req pod) gs best_init ;;
  Ok (fst r).

(** [sorted(gpus, key=lambda g: g.gpu_index)]: a stable sort. *)
Fixpoint insert_by_index (g : GPUInfo.t) (l : list GPUInfo.t) : list GPUInfo.t :=
  match l with
  | [] => [g]
  | h :: t =>
      if GPUInfo.gpu_index g <=? GPUInfo.gpu_index h then g :: l
      else h :: insert_by_index g t
  end.

Definition sorted_by_index (l : list GPUInfo.t) : list GPUInfo.t :=
  fold_right insert_by_index [] l.

(** [all(c[j].gpu_index + 1 == c[j + 1].gpu_index for j in range(len(c) - 1))]. *)
Fixpoint is_contiguous (candidate : list GPUInfo.t) : bool :=
  match candidate with
  | a :: ((b :: _) as t) =>
      (GPUInfo.gpu_index a + 1 =? GPUInfo.gpu_index b) && is_contiguous t
  | _ => true
  end.

(** The loop of [find_contiguous_gpus] over the window starts. *)
Fixpoint first_contiguous (gpus_by_index : list GPUInfo.t) (count : Z) (starts : list Z)
  : option (list GPUInfo.t) :=
  match starts with
  | [] => None
  | i :: starts' =>
      let candidate := py_slice gpus_by_index i (i + count) in
      if is_contiguous candidate then Some candidate
      else first_contiguous gpus_by_index count starts'
  end.

Definition find_contiguous_gpus (gpus : list GPUInfo.t) (count : Z)
  : option (list GPUInfo.t) :=
  let gpus_by_index := sorted_by_index gpus in
  first_contiguous gpus_by_index count
    (py_range (Z.of_nat (List.length gpus_by_index) - count + 1)).

(** [([g.gpu_index for g in selected], factor * sum(score(g) for g in selected))];
    [bonus] says whether the sum is multiplied by 1.5. *)
Definition scored_set (state : NodeGPUState.t) (pod : V1Pod) (bonus : bool)
    (selected : list GPUInfo.t) : result (option (list Z) * float) :=
  scores <- mapM (fun g => score_single_gpu g state pod) selected ;;
  let score := py_sum scores in
  let score := if bonus then fmul score f1_5 else score in
  Ok (Some (map GPUInfo.gpu_index selected), score).

Definition select_gpu_set (state : NodeGPUState.t) (count : Z) (pod : V1Pod)
  : result (option (list Z) * float) :=
  let free_gpus := filter is_free (NodeGPUState.gpus state) in
  if Z.of_nat (List.length free_gpus) <? count then Ok (None, fzero)
  else if negb (NodeGPUState.nvlink_enabled state) || (count =? 1) then
    scored_set state pod false (py_slice free_gpus 0 count)
  else
    match find_contiguous_gpus free_gpus count with
    | Some ((_ :: _) as selected) => scored_set state pod true selected
    | _ => scored_set state pod false (py_slice free_gpus 0 count)
    end.

(** Body of the loop of [find_multi_gpu_placement]. *)
Definition multi_node_step (tp_size : Z) (pod : V1Pod)
    (acc : best) (entry : string * NodeGPUState.t) : result best :=
  let '(node_name, state) := entry in
  if NodeGPUState.free_gpus state <? tp_size then Ok acc
  else
    r <- select_gpu_set state tp_size pod ;;
    let '(gpu_set, score) := r in
    match gpu_set with
    | Some ((_ :: _) as set) =>
        if fltb (snd acc) score then
          Ok (Some {| SchedulingResult.node := node_name;
                      SchedulingResult.gpus := set;
                      SchedulingResult.score := score;
                      SchedulingResult.reason :=
                        (str_of_len set ++ " GPUs on " ++ node_name)%string |},
              score)
        else Ok acc
    | _ => Ok acc
    end.

Definition find_multi_gpu_placement (gs : dict NodeGPUState.t) (gpu_req tp_size : Z)
    (pod : V1Pod) : result (option SchedulingResult.t) :=
  r <- foldM (multi_node_step tp_size pod) gs best_init ;;
  Ok (fst r).

Definition find_best_placement (gs : dict NodeGPUState.t) (gpu_req tp_size : Z)
    (pod : V1Pod) : result (option SchedulingResult.t) :=
  if tp_size <=? 1 then find_single_gpu_placement gs gpu_req pod
  else find_multi_gpu_placement gs gpu_req tp_size pod.

(* ================================================================== *)
(** * Event loop and binder *)

Definition bind_pod (w : World) (pod : V1Pod) (node_name : string)
  : result unit * list call :=
  (create_namespaced_pod_binding w (pod_name pod) (pod_namespace pod) node_name,
   [CreateBinding (pod_name pod) (pod_namespace pod) node_name]).

(** How the handling of one event ends when no exception escapes.  Of the
    log lines of [schedule_pod] only the one that renders the accelerator
    indices of the decision can raise. *)
Inductive outcome : Type :=
| Ignored                                   (* not ours, already placed, or deleting *)
| NoGPURequired                             (* "Pod does not require GPU, skipping" *)
| Scheduled (r : SchedulingResult.t)        (* bound to [r.node] *)
| NoFeasibleNode.                           (* "No feasible node found" *)

(** Truth value of [pod.spec.node_name or pod.metadata.deletion_timestamp]. *)
Definition placed_or_deleting (pod : V1Pod) : bool :=
  match pod_node_name pod with
  | Some (String _ _) => true
  | _ => match deletion_timestamp pod with Some _ => true | None => false end
  end.

Definition schedule_pod (w : World) (self : Scheduler) (pod : V1Pod)
  : result outcome * Scheduler * list call :=
  if negb (String.eqb (pod_scheduler_name pod) (scheduler_name self)) then
    (Ok Ignored, self, [])
  else if placed_or_deleting pod then (Ok Ignored, self, [])
  else
    let '(r, self1, tr) := update_gpu_state w self in
    match r with
    | Raise e => (Raise e, self1, tr)
    | Ok _ =>
        match get_gpu_requirement pod with
        | Raise e => (Raise e, self1, tr)
        | Ok gpu_req =>
            if gpu_req =? 0 then (Ok NoGPURequired, self1, tr)
            else
              match get_tensor_parallel_size pod with
              | Raise e => (Raise e, self1, tr)
              | Ok tp_size =>
                  match find_best_placement (gpu_state self1) gpu_req tp_size pod with
                  | Raise e => (Raise e, self1, tr)
                  | Ok (Some res) =>
                      let '(b, trb) := bind_pod w pod (SchedulingResult.node res) in
                      match b with
                      | Raise e => (Raise e, self1, tr ++ trb)
                      | Ok _ =>
                          (* logger.info(f"    GPUs: {result.gpus}") *)
                          match mapM str_of_int (SchedulingResult.gpus res) with
                          | Raise e => (Raise e, self1, tr ++ trb)
                          | Ok _ => (Ok (Scheduled res), self1, tr ++ trb)
                          end
                      end
                  | Ok None => (Ok NoFeasibleNode, self1, tr)
                  end
              end
        end
    end.

(** [run] over a finite prefix of the watch stream; each event comes with
    what the outside answers while it is handled.  An exception escaping
    [schedule_pod] ends the loop. *)
Fixpoint run (events : list (World * V1Pod)) (self : Scheduler)
  : result unit * Scheduler * list call :=
  match events with
  | [] => (Ok tt, self, [])
  | (w, pod) :: rest =>
      let '(r, self1, tr) := schedule_pod w self pod in
      match r with
      | Raise e => (Raise e, self1, tr)
      | Ok _ =>
          let '(r', self2, tr') := run rest self1 in
          (r', self2, tr ++ tr')
      end
  end.


(* ================================================================== *)
(** * Vocabulary of the statements *)

(** [a <= b] on floats. *)
Definition fleb : float -> float -> bool := SFleb.

(** Both placement loops keep the best decision seen so far: an iteration
    either skips ([None]) or proposes a score together with the decision to
    build for it; the decision is built, and replaces the best one, only
    when the score is strictly greater than the best score. *)
Definition proposal : Type := (float * result SchedulingResult.t)%type.

Definition scan_step {A : Type} (cand : A -> result (option proposal))
    (acc : best) (a : A) : result best :=
  c <- cand a ;;
  match c with
  | None => Ok acc
  | Some (s, decision) =>
      if fltb (snd acc) s then r <- decision ;; Ok (Some r, s) else Ok acc
  end.

(** The int has at most [max_str_digits] digits, so [str] renders it. *)
Definition renders (n : Z) : Prop := Z.abs n < 10 ^ 4300.

(** What one iteration of the inner loop of [find_single_gpu_placement]
    proposes for the accelerator [gpu] of the node [node_name]. *)
Definition single_cand (pod : V1Pod) (c : string * NodeGPUState.t * GPUInfo.t)
  : result (option proposal) :=
  let '(node_name, state, gpu) := c in
  if GPUInfo.memory_free gpu <? 1000 then Ok None
  else
    score <- score_single_gpu gpu state pod ;;
    Ok (Some (score,
              (idx <- str_of_int (GPUInfo.gpu_index gpu) ;;
               free <- str_of_int (GPUInfo.memory_free gpu) ;;
               Ok {| SchedulingResult.node := node_name;
                     SchedulingResult.gpus := [GPUInfo.gpu_index gpu];
                     SchedulingResult.score := score;
                     SchedulingResult.reason :=
                       ("Single GPU " ++ idx ++ " with " ++ free
                          ++ "MB free")%string |}))).

(** The accelerators the single-accelerator loops visit, in the order they
    visit them: the nodes of the mapping in iteration order, those with
    [free_gpus < gpu_req] left out, and for each node its accelerators in
    list order. *)
Definition node_accelerators (entry : string * NodeGPUState.t)
  : list (string * NodeGPUState.t * GPUInfo.t) :=
  map (fun g => (fst entry, snd entry, g)) (NodeGPUState.gpus (snd entry)).

Definition eligible_accelerators (gs : dict NodeGPUState.t) (gpu_req : Z)
  : list (string * NodeGPUState.t * GPUInfo.t) :=
  flat_map (fun entry =>
              if NodeGPUState.free_gpus (snd entry) <? gpu_req then []
              else node_accelerators entry) gs.

(** What one iteration of the loop of [find_multi_gpu_placement] proposes
    for a node. *)
Definition multi_cand (tp_size : Z) (pod : V1Pod) (entry : string * NodeGPUState.t)
  : result (option proposal) :=
  let '(node_name, state) := entry in
  if NodeGPUState.free_gpus state <? tp_size then Ok None
  else
    r <- select_gpu_set state tp_size pod ;;
    match r with
    | (Some ((_ :: _) as set), score) =>
        Ok (Some (score,
                  Ok {| SchedulingResult.node := node_name;
                        SchedulingResult.gpus := set;
                        SchedulingResult.score := score;
                        SchedulingResult.reason :=
                          (str_of_len set ++ " GPUs on " ++ node_name)%string |}))
    | _ => Ok None
    end.

(** The free-count a node must reach to be considered by the loop that
    [find_best_placement] dispatches to. *)
Definition min_free_count (gpu_req tp_size : Z) : Z :=
  if tp_size <=? 1 then gpu_req else tp_size.

(* ================================================================== *)
(** * Clusters and workloads used as examples *)

(** An 80 GB H100 with [free] MB free and [util] percent utilization. *)
Definition h100 (node : string) (idx free util : Z) : GPUInfo.t :=
  {| GPUInfo.node := node; GPUInfo.gpu_index := idx;
     GPUInfo.memory_total := 81920; GPUInfo.memory_used := 81920 - free;
     GPUInfo.memory_free := free;
     GPUInfo.utilization := float_of_int util; GPUInfo.product := "H100" |}.

(** The state [update_gpu_state] stores for a node with these accelerators. *)
Definition state_of (name : string) (gpu_infos : list GPUInfo.t) (nvlink : bool)
  : NodeGPUState.t :=
  {| NodeGPUState.node_name := name;
     NodeGPUState.gpus := gpu_infos;
     NodeGPUState.total_gpus := Z.of_nat (List.length gpu_infos);
     NodeGPUState.free_gpus := count_free gpu_infos;
     NodeGPUState.nvlink_enabled := nvlink;
     NodeGPUState.socket_count := 1 |}.

(** A pending pod of this scheduler with one container; [gpu] is its
    [nvidia.com/gpu] request and [tp] its [TENSOR_PARALLEL_SIZE], if any. *)
Definition container_with (gpu tp : option string) : V1Container :=
  {| env := match tp with
            | Some v => Some [ {| env_name := "TENSOR_PARALLEL_SIZE"; env_value := Some v |} ]
            | None => None
            end;
     args := None;
     resources := {| requests := match gpu with
                                 | Some q => Some [("nvidia.com/gpu", q)]
                                 | None => None
                                 end |} |}.

Definition pod_with (cs : list V1Container) : V1Pod :=
  {| pod_name := "vllm-0"; pod_namespace := "default"; pod_uid := "uid-0";
     deletion_timestamp := None;
     pod_scheduler_name := "gpu-aware-scheduler";
     pod_node_name := None;
     containers := cs |}.

Definition pending_pod (gpu tp : option string) : V1Pod :=
  pod_with [container_with gpu tp].

(** One node, two accelerators, both free. *)
Definition two_free : dict NodeGPUState.t :=
  [("node-a", state_of "node-a" [h100 "node-a" 0 80896 5; h100 "node-a" 1 79872 10] false)].

(** The decision for a group of two on [two_free]; the score is 213.625. *)
Definition two_free_decision : SchedulingResult.t :=
  {| SchedulingResult.node := "node-a";
     SchedulingResult.gpus := [0; 1];
     SchedulingResult.score := S754_finite false 7516261487476736 (-45);
     SchedulingResult.reason := "2 GPUs on node-a" |}.

(** A node with one free accelerator, listed before [node-a] with its two. *)
Definition one_free_state : NodeGPUState.t :=
  state_of "node-s" [h100 "node-s" 0 80896 5; h100 "node-s" 1 512 95] false.

Definition one_and_two_free : dict NodeGPUState.t :=
  ("node-s", one_free_state) :: two_free.

(** The decision for a single accelerator on [node-a]; the score is
    107.875. *)
Definition node_a_gpu0_decision : SchedulingResult.t :=
  {| SchedulingResult.node := "node-a";
     SchedulingResult.gpus := [0];
     SchedulingResult.score := S754_finite false 7591028278165504 (-46);
     SchedulingResult.reason := "Single GPU 0 with 80896MB free" |}.

(** Calls of a trace that commit a binding, and calls that list nodes. *)
Definition is_binding (c : call) : bool :=
  match c with
  | CreateBinding _ _ _ => true
  | _ => false
  end.

Definition is_list_node (c : call) : bool :=
  match c with
  | ListNode => true
  | _ => false
  end.

Definition is_inventory (c : call) : bool :=
  match c with
  | ListNode | QueryMetrics _ => true
  | CreateBinding _ _ _ => false
  end.

(** A node advertising two accelerators, with the given labels. *)
Definition gpu_node (name : string) (lbls : option (dict string)) : V1Node :=
  {| metadata_name := name;
     labels := lbls;
     capacity := Some [("cpu", "64"); ("nvidia.com/gpu", "2")] |}.

(** An outside where the clock reads [now], the node listing answers
    [nodes], the exporter answers as the source's stand-in does and every
    binding is accepted. *)
Definition world_at (now : Z) (nodes : list V1Node) : World :=
  {| time_time := float_of_int now;
     list_node := Ok nodes;
     dcgm_query := mock_dcgm;
     create_namespaced_pod_binding := fun _ _ _ => Ok tt |}.

Definition scheduler0 : Scheduler := init "gpu-aware-scheduler".

(** A pod whose accelerator request sits on its second container only. *)
Definition sidecar_first : V1Pod :=
  pod_with [container_with None None; container_with (Some "2") None].

(** A pod whose two containers declare different accelerator counts. *)
Definition three_then_five : V1Pod :=
  pod_with [container_with (Some "3") None; container_with (Some "5") None].

(** The scheduler after its first refresh at time [now] on a cluster whose
    only accelerator node is [node-a]. *)
Definition refreshed_at (now : Z) : Scheduler :=
  {| scheduler_name := "gpu-aware-scheduler";
     gpu_state := two_free;
     last_update := float_of_int now;
     cache_ttl := float_of_int 10 |}.

(** The state one iteration of the refresh loop stores for a node, if it
    stores one: the node advertises accelerators, the exporter query returns
    at least one of them and the socket label parses. *)
Definition node_entry (w : World) (node : V1Node) : option NodeGPUState.t :=
  match capacity node with
  | None => None
  | Some cap =>
      if dict_mem "nvidia.com/gpu" cap then
        match query_node_gpu_metrics w (metadata_name node) with
        | [] => None
        | gpu_infos =>
            match get_socket_count node with
            | Raise _ => None
            | Ok sockets =>
                Some {| NodeGPUState.node_name := metadata_name node;
                        NodeGPUState.gpus := gpu_infos;
                        NodeGPUState.total_gpus := Z.of_nat (List.length gpu_infos);
                        NodeGPUState.free_gpus := count_free gpu_infos;
                        NodeGPUState.nvlink_enabled := check_nvlink_enabled node;
                        NodeGPUState.socket_count := sockets |}
            end
        end
      else None
  end.

(** The listed node called [name], if any. *)
Definition node_named (nodes : list V1Node) (name : string) : option V1Node :=
  find (fun node => String.eqb (metadata_name node) name) nodes.

(** Two nodes, as a refresh at time 1700000000 stored them. *)
Definition two_nodes : dict NodeGPUState.t :=
  [("node-a", state_of "node-a" [h100 "node-a" 0 80896 5; h100 "node-a" 1 79872 10] false);
   ("node-b", state_of "node-b" [h100 "node-b" 0 80896 5; h100 "node-b" 1 79872 10] false)].

Definition prior_two_nodes : Scheduler :=
  {| scheduler_name := "gpu-aware-scheduler";
     gpu_state := two_nodes;
     last_update := float_of_int 1700000000;
     cache_ttl := float_of_int 10 |}.

(** A later listing in which [node-b] carries a socket label that is not a
    number. *)
Definition relabelled_world : World :=
  world_at 1700000100
    [gpu_node "node-a" None; gpu_node "node-b" (Some [("cpu.sockets", "two")])].

(** An outside whose exporter fails for [node-a]. *)
Definition flaky_world : World :=
  {| time_time := float_of_int 1700000100;
     list_node := Ok [gpu_node "node-a" None; gpu_node "node-b" None];
     dcgm_query := fun name => if String.eqb name "node-a" then Raise ApiException
                               else mock_dcgm name;
     create_namespaced_pod_binding := fun _ _ _ => Ok tt |}.

(** [state.gpus] is held in ascending index order. *)
Definition index_ordered (gpu_infos : list GPUInfo.t) : Prop :=
  StronglySorted (fun a b => GPUInfo.gpu_index a <= GPUInfo.gpu_index b) gpu_infos.

(** A node without interconnect whose exporter lists the accelerators in the
    order 2, 0, 1. *)
Definition listed_2_0_1 : NodeGPUState.t :=
  state_of "node-a"
    [h100 "node-a" 2 80896 5; h100 "node-a" 0 80896 5; h100 "node-a" 1 80896 5] false.

(** One node whose two accelerators are alike and listed in the order 1, 0. *)
Definition alike_1_0 : dict NodeGPUState.t :=
  [("node-a", state_of "node-a" [h100 "node-a" 1 80896 5; h100 "node-a" 0 80896 5] false)].

(** One node with an idle accelerator that has exactly 1000 MB free and a
    busy one with 2000 MB free; [free_gpus] is 1. *)
Definition at_threshold : dict NodeGPUState.t :=
  [("node-a", state_of "node-a" [h100 "node-a" 0 1000 0; h100 "node-a" 1 2000 100] false)].

(** The indices [k], [k + 1], ..., [k + n - 1]. *)
Fixpoint index_run (k : Z) (n : nat) : list Z :=
  match n with
  | O => []
  | S n' => k :: index_run (k + 1) n'
  end.

(** Among [free] there is an accelerator for each of the [count] consecutive
    indices from [k] on. *)
Definition has_run (free : list GPUInfo.t) (k count : Z) : Prop :=
  forall d : Z, 0 <= d < count ->
                exists g : GPUInfo.t, In g free /\ GPUInfo.gpu_index g = k + d.

(** An interconnect node with the free accelerators 5, 1, 2, 7, 3 (in list
    order) and a busy accelerator 6. *)
Definition scattered : NodeGPUState.t :=
  state_of "node-a"
    [h100 "node-a" 5 80896 5; h100 "node-a" 1 80896 5; h100 "node-a" 2 80896 5;
     h100 "node-a" 6 512 95; h100 "node-a" 7 80896 5; h100 "node-a" 3 80896 5] true.

(* ================================================================== *)
(** * Vocabulary of the further properties *)

(** What every entry written by [update_gpu_state] satisfies: it is filed
    under the node's own name, lists at least one accelerator, and its
    counters agree with the list. *)
Definition entry_wf (entry : string * NodeGPUState.t) : Prop :=
  NodeGPUState.node_name (snd entry) = fst entry /\
  NodeGPUState.gpus (snd entry) <> [] /\
  NodeGPUState.total_gpus (snd entry)
  = Z.of_nat (List.length (NodeGPUState.gpus (snd entry))) /\
  NodeGPUState.free_gpus (snd entry) = count_free (NodeGPUState.gpus (snd entry)).

Definition cache_wf (gs : dict NodeGPUState.t) : Prop :=
  NoDup (map fst gs) /\ Forall entry_wf gs.

(** ["nvidia.com/gpu" in node.status.capacity], for a node that reports a
    capacity. *)
Definition advertises_gpu (node : V1Node) : bool :=
  match capacity node with
  | Some cap => dict_mem "nvidia.com/gpu" cap
  | None => false
  end.

(** The pod fails the filter at the head of [schedule_pod]. *)
Definition filtered_out (self : Scheduler) (pod : V1Pod) : bool :=
  negb (String.eqb (pod_scheduler_name pod) (scheduler_name self))
  || placed_or_deleting pod.

(** Neither a NaN nor an infinity. *)
Definition is_finite (x : float) : bool :=
  match x with
  | S754_zero _ | S754_finite _ _ _ => true
  | S754_infinity _ | S754_nan => false
  end.

(** [c in s] for a character. *)
Fixpoint has_char (c : ascii) (s : string) : bool :=
  match s with
  | EmptyString => false
  | String c' s' => Ascii.eqb c' c || has_char c s'
  end.

(** The container declares an environment variable called
    [TENSOR_PARALLEL_SIZE]. *)
Definition declares_tp_env (c : V1Container) : Prop :=
  exists (vars : list V1EnvVar) (v : V1EnvVar),
    env c = Some vars /\ In v vars /\ env_name v = "TENSOR_PARALLEL_SIZE".

(** Three pending pods of this scheduler with the same request. *)
Definition tp_from_env_and_args : V1Pod :=
  pod_with [ {| env := None;
               args := Some ["--model=llama"; "--tensor-parallel-size=8"];
               resources := {| requests := Some [("nvidia.com/gpu", "2")] |} |};
             container_with None (Some "4") ].

Definition tp_from_args : V1Pod :=
  pod_with [ {| env := Some [ {| env_name := "HOME"; env_value := Some "/root" |} ];
               args := Some ["--model=llama"; "--tensor-parallel-size=8"; "--port=80"];
               resources := {| requests := Some [("nvidia.com/gpu", "2")] |} |} ].

Definition tp_flag_without_value : V1Pod :=
  pod_with [ {| env := None;
               args := Some ["--tensor-parallel-size"; "8"];
               resources := {| requests := Some [("nvidia.com/gpu", "2")] |} |} ].

(** A node that reports no accelerator capacity. *)
Definition cpu_node (name : string) : V1Node :=
  {| metadata_name := name;
     labels := None;
     capacity := Some [("cpu", "64"); ("memory", "256Gi")] |}.

(** Two interconnect nodes of four free accelerators each, and one without
    interconnect. *)
Definition four_free (name : string) (nvlink : bool) : NodeGPUState.t :=
  state_of name [h100 name 0 80896 5; h100 name 1 80896 5;
                 h100 name 2 80896 5; h100 name 3 80896 5] nvlink.

Definition three_nodes : dict NodeGPUState.t :=
  [("node-b", four_free "node-b" false);
   ("node-a", four_free "node-a" true);
   ("node-c", four_free "node-c" true)].

(** An accelerator whose total memory reads 0 next to a healthy one. *)
Definition broken_gpu : dict NodeGPUState.t :=
  [("node-a",
    state_of "node-a"
      [ {| GPUInfo.node := "node-a"; GPUInfo.gpu_index := 0;
           GPUInfo.memory_total := 0; GPUInfo.memory_used := 0;
           GPUInfo.memory_free := 4096;
           GPUInfo.utilization := float_of_int 0; GPUInfo.product := "H100" |};
        h100 "node-a" 1 80896 5 ] false)].

(** An accelerator whose memory readings have 4301 digits. *)
Definition unrenderable_gpu : dict NodeGPUState.t :=
  [("node-a",
    state_of "node-a"
      [ {| GPUInfo.node := "node-a"; GPUInfo.gpu_index := 0;
           GPUInfo.memory_total := str_digits_bound; GPUInfo.memory_used := 0;
           GPUInfo.memory_free := str_digits_bound;
           GPUInfo.utilization := float_of_int 0; GPUInfo.product := "H100" |} ] false)].

(** [scattered] as an exporter that lists the accelerators by index would
    report it. *)
Definition scattered_by_index : NodeGPUState.t :=
  state_of "node-a"
    [h100 "node-a" 1 80896 5; h100 "node-a" 2 80896 5; h100 "node-a" 3 80896 5;
     h100 "node-a" 5 80896 5; h100 "node-a" 6 512 95; h100 "node-a" 7 80896 5] true.

(** The decision for a group of four on [three_nodes]: the first of the two
    interconnect nodes, with the score 707.25 = 1.5 * 4 * 117.875. *)
Definition three_nodes_decision : SchedulingResult.t :=
  {| SchedulingResult.node := "node-a";
     SchedulingResult.gpus := [0; 1; 2; 3];
     SchedulingResult.score := S754_finite false 6221036789956608 (-43);
     SchedulingResult.reason := "4 GPUs on node-a" |}.

(** A node whose first accelerator reports a utilization that is not a
    number. *)
Definition nan_utilization : dict NodeGPUState.t :=
  [("node-a",
    state_of "node-a"
      [ {| GPUInfo.node := "node-a"; GPUInfo.gpu_index := 0;
           GPUInfo.memory_total := 81920; GPUInfo.memory_used := 0;
           GPUInfo.memory_free := 81920;
           GPUInfo.utilization := S754_nan; GPUInfo.product := "H100" |};
        h100 "node-a" 1 2000 100 ] false)].

(* ================================================================== *)
(** * Order facts on floats *)

Unset Implicit Arguments.

Section FloatOrder.

Local Ltac cmp_cases :=
  repeat match goal with
    | |- context [Z.compare ?a ?b] =>
        destruct (Z.compare_spec a b); subst; simpl
    | H : context [Z.compare ?a ?b] |- _ =>
        destruct (Z.compare_spec a b); subst; simpl in H
    | |- context [Pos.compare ?a ?b] =>
        destruct (Pos.compare_spec a b); subst; simpl
    | H : context [Pos.compare ?a ?b] |- _ =>
        destruct (Pos.compare_spec a b); subst; simpl in H
    end.

Local Ltac float_cases :=
  unfold fltb, fleb, feqb, SFltb, SFleb, SFeqb, SFcompare;
  repeat match goal with
    | x : float |- _ => destruct x
    | s : bool |- _ => destruct s
    end;
  simpl; try congruence;
  fold Pos.compare;
  change (Pos.compare_cont Eq) with Pos.compare in *;
  intros; cmp_cases; try congruence; try lia.

Lemma fltb_irrefl (a : float) : fltb a a = false.
Proof.
  float_cases.
Qed.

Lemma fltb_trans (a b c : float) :
  fltb a b = true -> fltb b c = true -> fltb a c = true.
Proof.
  float_cases.
Qed.

Lemma fltb_fleb_trans (a b c : float) :
  fltb a b = true -> fleb b c = true -> fltb a c = true.
Proof.
  float_cases.
Qed.

Lemma fltb_asym (a b : float) : fltb a b = true -> fltb b a = false.
Proof.
  intros H. destruct (fltb b a) eqn:E; [ | reflexivity ].
  pose proof (fltb_trans _ _ _ H E) as F.
  now rewrite fltb_irrefl in F.
Qed.

Lemma fltb_not_fleb (a b : float) : fltb a b = true -> fleb b a = false.
Proof.
  intros H. destruct (fleb b a) eqn:E; [ | reflexivity ].
  pose proof (fltb_fleb_trans _ _ _ H E) as F.
  now rewrite fltb_irrefl in F.
Qed.

Lemma feqb_fleb (a b : float) : feqb a b = true -> fleb a b = true.
Proof.
  unfold feqb, fleb, SFeqb, SFleb. now destruct (SFcompare a b) as [ [ | | ] | ].
Qed.

End FloatOrder.

(* ================================================================== *)
(** * Loops with exceptions *)

Lemma foldM_app {A S : Type} (f : S -> A -> result S) (l1 l2 : list A) (acc : S) :
  foldM f (l1 ++ l2) acc = (acc' <- foldM f l1 acc ;; foldM f l2 acc').
Proof.
  revert acc. induction l1 as [ | x l1 IH ]; intros acc; simpl; [ reflexivity | ].
  destruct (f acc x); simpl; [ apply IH | reflexivity ].
Qed.

Lemma foldM_map {A B S : Type} (f : S -> B -> result S) (g : A -> B) (l : list A) (acc : S) :
  foldM f (map g l) acc = foldM (fun s x => f s (g x)) l acc.
Proof.
  revert acc. induction l as [ | x l IH ]; intros acc; simpl; [ reflexivity | ].
  destruct (f acc (g x)); simpl; [ apply IH | reflexivity ].
Qed.

Lemma foldM_ext {A S : Type} (f g : S -> A -> result S) (l : list A) (acc : S) :
  (forall s x, In x l -> f s x = g s x) -> foldM f l acc = foldM g l acc.
Proof.
  revert acc. induction l as [ | x l IH ]; intros acc H; simpl; [ reflexivity | ].
  rewrite (H acc x (or_introl eq_refl)).
  destruct (g acc x); simpl; [ | reflexivity ].
  apply IH. intros s y Hy. apply H. now right.
Qed.

Lemma foldM_flat_map {A B S : Type} (f : S -> B -> result S) (g : A -> list B)
    (l : list A) (acc : S) :
  foldM f (flat_map g l) acc = foldM (fun s x => foldM f (g x) s) l acc.
Proof.
  revert acc. induction l as [ | x l IH ]; intros acc; simpl; [ reflexivity | ].
  rewrite foldM_app. destruct (foldM f (g x) acc); simpl; [ apply IH | reflexivity ].
Qed.

(** ** The best-so-far scan *)

Section Scan.

Variable A : Type.
Variable cand : A -> result (option proposal).

(** Iterations that all skip leave the accumulator alone. *)
Lemma scan_all_skip (l : list A) (acc : best) :
  (forall a, In a l -> cand a = Ok None) ->
  foldM (scan_step cand) l acc = Ok acc.
Proof.
  induction l as [ | x l IH ]; intros H; simpl; [ reflexivity | ].
  unfold scan_step at 1. rewrite (H x (or_introl eq_refl)). simpl.
  apply IH. intros a Ha. apply H. now right.
Qed.

(** The scan returns when every iteration does and every proposed decision
    can be built. *)
Lemma scan_total (l : list A) (acc : best) :
  (forall a, In a l ->
             cand a = Ok None \/ exists s r, cand a = Ok (Some (s, Ok r))) ->
  exists res, foldM (scan_step cand) l acc = Ok res.
Proof.
  revert acc. induction l as [ | x l IH ]; intros acc H; simpl.
  - now exists acc.
  - unfold scan_step at 1.
    destruct (H x (or_introl eq_refl)) as [ Hc | (s & r & Hc) ]; rewrite Hc; simpl.
    + apply IH. intros a Ha. apply H. now right.
    + destruct (fltb (snd acc) s); simpl; apply IH; intros a Ha; apply H; now right.
Qed.

Lemma scan_no_raise (l : list A) (acc res : best) :
  foldM (scan_step cand) l acc = Ok res ->
  forall a, In a l -> exists c, cand a = Ok c.
Proof.
  revert acc. induction l as [ | x l IH ]; intros acc H a Ha; [ destruct Ha | ].
  simpl in H. unfold scan_step at 1 in H.
  destruct (cand x) as [ c | e ] eqn:Hc; simpl in H; [ | discriminate ].
  destruct Ha as [ <- | Ha ]; [ now exists c | ].
  destruct c as [ [s [ r | e ]] | ]; [ destruct (fltb (snd acc) s) | destruct (fltb (snd acc) s) | ];
    simpl in H; try discriminate; eapply IH; eauto.
Qed.

(** The scan raises when an iteration raises, or when the decision of a
    proposal that beats the best score cannot be built. *)
Lemma scan_raise (l : list A) (e : exn) : forall acc : best,
  foldM (scan_step cand) l acc = Raise e ->
  exists a, In a l /\ (cand a = Raise e \/ exists s, cand a = Ok (Some (s, Raise e))).
Proof.
  induction l as [ | x l IH ]; intros acc H; simpl in H; [ discriminate | ].
  unfold scan_step at 1 in H.
  destruct (cand x) as [ c | e' ] eqn:Hc; simpl in H.
  - assert (Hrest : (exists acc', foldM (scan_step cand) l acc' = Raise e) \/
                    exists s, c = Some (s, Raise e)).
    { destruct c as [ [s [ r | e' ]] | ]; [ | | eauto ];
        destruct (fltb (snd acc) s); simpl in H; eauto.
      injection H as ->. eauto. }
    destruct Hrest as [ [acc' Hrest] | [s ->] ].
    + destruct (IH _ Hrest) as (a & Hin & Ha).
      exists a. split; [ now right | assumption ].
    + exists x. split; [ now left | eauto ].
  - injection H as ->. exists x. split; [ now left | auto ].
Qed.

(** Either nothing beat the initial score, or the result is the decision
    built for the first proposal of maximal score. *)
Lemma scan_inv (l : list A) : forall (acc res : best),
  foldM (scan_step cand) l acc = Ok res ->
  (res = acc /\
   forall a s d, In a l -> cand a = Ok (Some (s, d)) -> fltb (snd acc) s = false)
  \/
  (exists i a s r,
      nth_error l i = Some a /\ cand a = Ok (Some (s, Ok r)) /\
      res = (Some r, s) /\
      fltb (snd acc) s = true /\
      forall j a' s' d', nth_error l j = Some a' -> cand a' = Ok (Some (s', d')) ->
        fltb s s' = false /\
        ((j < i)%nat -> fleb s s' = false)).
Proof.
  induction l as [ | x l IH ]; intros acc res H; simpl in H.
  - left. split; [ congruence | intros a s d [] ].
  - unfold scan_step at 1 in H.
    destruct (cand x) as [ c | e ] eqn:Hc; simpl in H; [ | discriminate ].
    destruct c as [ [sx dx] | ].
    + destruct (fltb (snd acc) sx) eqn:Hlt; simpl in H.
      * (* the head becomes the best so far *)
        destruct dx as [ rx | e ]; simpl in H; [ | discriminate ].
        destruct (IH _ _ H) as [ [-> Hmax] | (i & a & s & r & Hi & Ha & -> & Hgt & Hbest) ].
        -- right. exists 0%nat, x, sx, rx. simpl in Hmax.
           split; [ reflexivity | ]. split; [ exact Hc | ]. split; [ reflexivity | ].
           split; [ exact Hlt | ].
           intros j a' s' d' Hj Hc'. split.
           ++ destruct j as [ | j ]; simpl in Hj.
              ** injection Hj as <-. rewrite Hc in Hc'. injection Hc' as <- _.
                 apply fltb_irrefl.
              ** eapply Hmax; eauto. eapply nth_error_In; eauto.
           ++ intros Hlt0. inversion Hlt0.
        -- right. exists (S i), a, s, r. simpl in Hgt.
           split; [ exact Hi | ]. split; [ exact Ha | ]. split; [ reflexivity | ].
           split; [ eapply fltb_trans; eauto | ].
           intros j a' s' d' Hj Hc'. split.
           ++ destruct j as [ | j ]; simpl in Hj.
              ** injection Hj as <-. rewrite Hc in Hc'. injection Hc' as <- _.
                 now apply fltb_asym.
              ** eapply Hbest; eauto.
           ++ intros Hji. destruct j as [ | j ]; simpl in Hj.
              ** injection Hj as <-. rewrite Hc in Hc'. injection Hc' as <- _.
                 now apply fltb_not_fleb.
              ** eapply Hbest; eauto. lia.
      * (* the head does not beat the best so far *)
        destruct (IH _ _ H) as [ [-> Hmax] | (i & a & s & r & Hi & Ha & -> & Hgt & Hbest) ].
        -- left. split; [ reflexivity | ].
           intros a s d [ <- | Ha ] Hr; [ | eapply Hmax; eauto ].
           rewrite Hc in Hr. now injection Hr as <- _.
        -- right. exists (S i), a, s, r.
           split; [ exact Hi | ]. split; [ exact Ha | ]. split; [ reflexivity | ].
           split; [ exact Hgt | ].
           intros j a' s' d' Hj Hc'. split.
           ++ destruct j as [ | j ]; simpl in Hj; [ | eapply Hbest; eauto ].
              injection Hj as <-. rewrite Hc in Hc'. injection Hc' as <- _.
              destruct (fltb s sx) eqn:E; [ | reflexivity ].
              rewrite (fltb_trans _ _ _ Hgt E) in Hlt. discriminate.
           ++ intros Hji. destruct j as [ | j ]; simpl in Hj;
                [ | eapply Hbest; eauto; lia ].
              injection Hj as <-. rewrite Hc in Hc'. injection Hc' as <- _.
              destruct (fleb s sx) eqn:E; [ | reflexivity ].
              rewrite (fltb_fleb_trans _ _ _ Hgt E) in Hlt. discriminate.
    + (* the head skips *)
      destruct (IH _ _ H) as [ [-> Hmax] | (i & a & s & r & Hi & Ha & -> & Hgt & Hbest) ].
      * left. split; [ reflexivity | ].
        intros a s d [ <- | Ha ] Hr; [ congruence | eapply Hmax; eauto ].
      * right. exists (S i), a, s, r.
        split; [ exact Hi | ]. split; [ exact Ha | ]. split; [ reflexivity | ].
        split; [ exact Hgt | ].
        intros j a' s' d' Hj Hc'. split.
        -- destruct j as [ | j ]; simpl in Hj; [ congruence | eapply Hbest; eauto ].
        -- intros Hji. destruct j as [ | j ]; simpl in Hj;
             [ congruence | eapply Hbest; eauto; lia ].
Qed.

End Scan.

(* ================================================================== *)
(** * The placement loops as scans *)

Lemma single_gpu_step_scan (node_name : string) (state : NodeGPUState.t) (pod : V1Pod)
    (acc : best) (gpu : GPUInfo.t) :
  single_gpu_step node_name state pod acc gpu
  = scan_step (single_cand pod) acc (node_name, state, gpu).
Proof.
  unfold single_gpu_step, scan_step, single_cand.
  destruct (GPUInfo.memory_free gpu <? 1000); cbn [bind]; [ reflexivity | ].
  destruct (score_single_gpu gpu state pod) as [ s | e ]; cbn [bind]; [ | reflexivity ].
  destruct (fltb (snd acc) s); [ | reflexivity ].
  destruct (str_of_int (GPUInfo.gpu_index gpu)); cbn [bind]; [ | reflexivity ].
  destruct (str_of_int (GPUInfo.memory_free gpu)); reflexivity.
Qed.

Lemma find_single_gpu_placement_scan (gs : dict NodeGPUState.t) (gpu_req : Z) (pod : V1Pod) :
  find_single_gpu_placement gs gpu_req pod
  = (r <- foldM (scan_step (single_cand pod)) (eligible_accelerators gs gpu_req) best_init ;;
     Ok (fst r)).
Proof.
  unfold find_single_gpu_placement, eligible_accelerators.
  rewrite foldM_flat_map. f_equal.
  apply foldM_ext. intros acc [node_name state] _. simpl.
  destruct (NodeGPUState.free_gpus state <? gpu_req); [ reflexivity | ].
  unfold node_accelerators. rewrite foldM_map. simpl.
  apply foldM_ext. intros s g _. apply single_gpu_step_scan.
Qed.

Lemma multi_node_step_scan (tp_size : Z) (pod : V1Pod) (acc : best)
    (entry : string * NodeGPUState.t) :
  multi_node_step tp_size pod acc entry = scan_step (multi_cand tp_size pod) acc entry.
Proof.
  unfold multi_node_step, scan_step, multi_cand. destruct entry as [node_name state].
  destruct (NodeGPUState.free_gpus state <? tp_size); simpl; [ reflexivity | ].
  destruct (select_gpu_set state tp_size pod) as [ [ [ [ | i set ] | ] sc ] | e ];
    reflexivity.
Qed.

Lemma find_multi_gpu_placement_scan (gs : dict NodeGPUState.t) (gpu_req tp_size : Z)
    (pod : V1Pod) :
  find_multi_gpu_placement gs gpu_req tp_size pod
  = (r <- foldM (scan_step (multi_cand tp_size pod)) gs best_init ;; Ok (fst r)).
Proof.
  unfold find_multi_gpu_placement. f_equal.
  apply foldM_ext. intros s x _. apply multi_node_step_scan.
Qed.

(** A decision of the scan started from [best_init] is a proposal of one of
    the iterations. *)
Lemma scan_some_proposed {A : Type} (cand : A -> result (option proposal))
    (l : list A) (r : SchedulingResult.t) :
  (res <- foldM (scan_step cand) l best_init ;; Ok (fst res)) = Ok (Some r) ->
  exists a s, In a l /\ cand a = Ok (Some (s, Ok r)).
Proof.
  destruct (foldM (scan_step cand) l best_init) as [ res | e ] eqn:H; simpl;
    [ | discriminate ].
  intros E. injection E as E.
  destruct (@scan_inv _ cand l _ _ H) as [ [-> _] | (i & a & s & r' & Hi & Ha & -> & _) ].
  - discriminate.
  - simpl in E. injection E as ->. exists a, s. split; [ | assumption ].
    eapply nth_error_In; eauto.
Qed.

Lemma in_eligible_accelerators (gs : dict NodeGPUState.t) (gpu_req : Z)
    (n : string) (st : NodeGPUState.t) (g : GPUInfo.t) :
  In (n, st, g) (eligible_accelerators gs gpu_req) <->
  In (n, st) gs /\ gpu_req <= NodeGPUState.free_gpus st /\ In g (NodeGPUState.gpus st).
Proof.
  unfold eligible_accelerators. rewrite in_flat_map. split.
  - intros ([n' st'] & Hin & H). simpl in H.
    destruct (NodeGPUState.free_gpus st' <? gpu_req) eqn:E; [ destruct H | ].
    unfold node_accelerators in H. rewrite in_map_iff in H.
    destruct H as (g' & Heq & Hg). simpl in Heq. injection Heq as -> -> ->.
    apply Z.ltb_ge in E. auto.
  - intros (Hin & Hfree & Hg). exists (n, st). split; [ assumption | ]. simpl.
    apply Z.ltb_ge in Hfree. rewrite Hfree.
    unfold node_accelerators. rewrite in_map_iff. exists g. auto.
Qed.

(** Keys of a dictionary are unique. *)
Lemma dict_entry_unique {V : Type} (d : dict V) (k : string) (v v' : V) :
  NoDup (map fst d) -> In (k, v) d -> In (k, v') d -> v = v'.
Proof.
  induction d as [ | [k0 v0] d IH ]; intros Hnd H1 H2; [ destruct H1 | ].
  simpl in Hnd. inversion Hnd as [ | ? ? Hnotin Hnd' ]; subst.
  destruct H1 as [ E1 | H1 ], H2 as [ E2 | H2 ].
  - congruence.
  - injection E1 as -> ->. exfalso. apply Hnotin.
    change k with (fst (k, v')). now apply in_map.
  - injection E2 as -> ->. exfalso. apply Hnotin.
    change k with (fst (k, v)). now apply in_map.
  - auto.
Qed.

(* ================================================================== *)
(** * Feasibility gates of the placement engine *)

Lemma multi_cand_some (tp_size : Z) (pod : V1Pod) (name : string) (st : NodeGPUState.t)
    (s : float) (r : SchedulingResult.t) :
  multi_cand tp_size pod (name, st) = Ok (Some (s, Ok r)) ->
  tp_size <= NodeGPUState.free_gpus st /\ SchedulingResult.node r = name.
Proof.
  unfold multi_cand.
  destruct (NodeGPUState.free_gpus st <? tp_size) eqn:E; [ discriminate | ].
  apply Z.ltb_ge in E.
  destruct (select_gpu_set st tp_size pod) as [ [ [ [ | i set ] | ] sc ] | e ]; simpl;
    try discriminate.
  intros H. injection H as _ <-. auto.
Qed.

Lemma single_cand_some (pod : V1Pod) (name : string) (st : NodeGPUState.t) (g : GPUInfo.t)
    (s : float) (r : SchedulingResult.t) :
  single_cand pod (name, st, g) = Ok (Some (s, Ok r)) ->
  1000 <= GPUInfo.memory_free g /\
  score_single_gpu g st pod = Ok (SchedulingResult.score r) /\
  s = SchedulingResult.score r /\
  SchedulingResult.node r = name /\
  SchedulingResult.gpus r = [GPUInfo.gpu_index g].
Proof.
  unfold single_cand.
  destruct (GPUInfo.memory_free g <? 1000) eqn:E; [ discriminate | ].
  apply Z.ltb_ge in E.
  destruct (score_single_gpu g st pod) as [ s0 | e ]; cbn [bind]; [ | discriminate ].
  destruct (str_of_int (GPUInfo.gpu_index g)); cbn [bind];
    [ | intros H; injection H as _ H; discriminate ].
  destruct (str_of_int (GPUInfo.memory_free g)); cbn [bind];
    [ | intros H; injection H as _ H; discriminate ].
  intros H. injection H as <- <-. auto.
Qed.

(** What [single_cand] proposes for an accelerator with at least 1000 MB
    free is its score. *)
Lemma single_cand_score (pod : V1Pod) (name : string) (st : NodeGPUState.t) (g : GPUInfo.t)
    (s : float) (d : result SchedulingResult.t) :
  single_cand pod (name, st, g) = Ok (Some (s, d)) ->
  1000 <= GPUInfo.memory_free g /\ score_single_gpu g st pod = Ok s.
Proof.
  unfold single_cand.
  destruct (GPUInfo.memory_free g <? 1000) eqn:E; [ discriminate | ].
  apply Z.ltb_ge in E.
  destruct (score_single_gpu g st pod) as [ s0 | e ]; cbn [bind]; [ | discriminate ].
  intros H. injection H as <- _. auto.
Qed.

Lemma str_digits_bound_eq : str_digits_bound = 10 ^ 4300.
Proof. vm_compute. reflexivity. Qed.

Lemma str_of_int_renders (n : Z) : renders n -> str_of_int n = Ok (decimal_of_int n).
Proof.
  unfold renders, str_of_int. rewrite str_digits_bound_eq. intros Hn.
  apply Z.leb_gt in Hn. now rewrite Hn.
Qed.

Lemma str_of_int_raise (n : Z) (e : exn) :
  str_of_int n = Raise e -> e = ValueError /\ ~ renders n.
Proof.
  unfold renders, str_of_int. rewrite str_digits_bound_eq.
  destruct (10 ^ 4300 <=? Z.abs n) eqn:Hle; [ | discriminate ].
  intros E. injection E as <-. split; [ reflexivity | ].
  intros Hn. apply Z.leb_gt in Hn. congruence.
Qed.

(** The node of a decision is a node of the mapping that passed the gate of
    the loop that produced the decision. *)
Lemma decision_node_passed_gate (gs : dict NodeGPUState.t) (gpu_req tp_size : Z)
    (pod : V1Pod) (r : SchedulingResult.t) :
  find_best_placement gs gpu_req tp_size pod = Ok (Some r) ->
  exists st, In (SchedulingResult.node r, st) gs /\
             min_free_count gpu_req tp_size <= NodeGPUState.free_gpus st.
Proof.
  unfold find_best_placement, min_free_count.
  destruct (tp_size <=? 1).
  - rewrite find_single_gpu_placement_scan. intros H.
    apply scan_some_proposed in H. destruct H as ([[n st] g] & s & Hin & Hc).
    apply in_eligible_accelerators in Hin. destruct Hin as (Hin & Hfree & _).
    apply single_cand_some in Hc. destruct Hc as (_ & _ & _ & -> & _).
    now exists st.
  - rewrite find_multi_gpu_placement_scan. intros H.
    apply scan_some_proposed in H. destruct H as ([n st] & s & Hin & Hc).
    apply multi_cand_some in Hc. destruct Hc as (Hfree & ->).
    now exists st.
Qed.

(** C1 (as amended): a node whose free count is below the gate of the path
    taken is never the node of the returned decision.  The gate is the
    requested count on the single-accelerator path and the group size on the
    multi-accelerator path; so a node with fewer free accelerators than
    requested is never returned when [tp_size <= 1] or
    [gpu_req <= tp_size]. *)
Theorem gated_node_never_selected (gs : dict NodeGPUState.t) (gpu_req tp_size : Z)
    (pod : V1Pod) (r : SchedulingResult.t) :
  NoDup (map fst gs) ->
  find_best_placement gs gpu_req tp_size pod = Ok (Some r) ->
  forall (name : string) (st : NodeGPUState.t),
    In (name, st) gs ->
    (NodeGPUState.free_gpus st < min_free_count gpu_req tp_size ->
     SchedulingResult.node r <> name)
    /\
    (tp_size <= 1 \/ gpu_req <= tp_size ->
     NodeGPUState.free_gpus st < gpu_req ->
     SchedulingResult.node r <> name).
Proof.
  intros Hnd H name st Hin.
  destruct (decision_node_passed_gate _ _ _ _ _ H) as (st' & Hin' & Hgate).
  assert (Hneq : NodeGPUState.free_gpus st < min_free_count gpu_req tp_size ->
                 SchedulingResult.node r <> name).
  { intros Hlt Heq. subst name.
    rewrite (@dict_entry_unique _ gs _ _ _ Hnd Hin Hin') in Hlt. lia. }
  split; [ exact Hneq | ].
  intros Hpath Hlt. apply Hneq.
  unfold min_free_count. destruct (Z.leb_spec tp_size 1); lia.
Qed.

Lemma gated_node_never_selected_witness :
  NoDup (map fst one_and_two_free) /\
  In ("node-s", one_free_state) one_and_two_free /\
  NodeGPUState.free_gpus one_free_state = 1 /\
  (* a group of two: [node-s] is below the gate of the multi-accelerator path *)
  (find_best_placement one_and_two_free 2 2 (pending_pod (Some "2") None)
   = Ok (Some two_free_decision) /\
   NodeGPUState.free_gpus one_free_state < min_free_count 2 2 /\
   SchedulingResult.node two_free_decision <> "node-s") /\
  (* two requested, no group: [node-s] is below the gate of the single path *)
  (find_best_placement one_and_two_free 2 1 (pending_pod (Some "2") (Some "1"))
   = Ok (Some node_a_gpu0_decision) /\
   NodeGPUState.free_gpus one_free_state < 2 /\
   SchedulingResult.node node_a_gpu0_decision <> "node-s").
Proof.
  assert (Hnd : NoDup (map fst one_and_two_free)).
  { simpl. repeat constructor; simpl; intuition discriminate. }
  assert (Hin : In ("node-s", one_free_state) one_and_two_free) by (left; reflexivity).
  assert (Hm : find_best_placement one_and_two_free 2 2 (pending_pod (Some "2") None)
               = Ok (Some two_free_decision)).
  { vm_compute. reflexivity. }
  assert (Hs : find_best_placement one_and_two_free 2 1 (pending_pod (Some "2") (Some "1"))
               = Ok (Some node_a_gpu0_decision)).
  { vm_compute. reflexivity. }
  assert (Hgm : NodeGPUState.free_gpus one_free_state < min_free_count 2 2) by reflexivity.
  assert (Hgs : NodeGPUState.free_gpus one_free_state < 2) by reflexivity.
  split; [ exact Hnd | ]. split; [ exact Hin | ]. split; [ reflexivity | ]. split.
  - split; [ exact Hm | ]. split; [ exact Hgm | ].
    exact (proj1 (gated_node_never_selected one_and_two_free 2 2 _ two_free_decision
                    Hnd Hm "node-s" one_free_state Hin) Hgm).
  - split; [ exact Hs | ]. split; [ exact Hgs | ].
    exact (proj2 (gated_node_never_selected one_and_two_free 2 1 _ node_a_gpu0_decision
                    Hnd Hs "node-s" one_free_state Hin)
             (or_introl (Z.le_refl 1)) Hgs).
Defined.

(** C1 (as stated): with a group size below the requested count the
    multi-accelerator path returns a node that has fewer free accelerators
    than requested.  Here the pod requests 4 accelerators in groups of 2 and
    the only node has 2 free. *)
Lemma multi_path_gates_on_group_size :
  ~ (forall r : SchedulingResult.t,
        find_best_placement two_free 4 2 (pending_pod (Some "4") (Some "2")) = Ok (Some r) ->
        forall (name : string) (st : NodeGPUState.t),
          In (name, st) two_free ->
          NodeGPUState.free_gpus st < 4 ->
          SchedulingResult.node r <> name).
Proof.
  intros H.
  refine (H two_free_decision _ "node-a" _ (or_introl eq_refl) _ eq_refl).
  - vm_compute. reflexivity.
  - vm_compute. reflexivity.
Qed.

(* ================================================================== *)
(** * What a cache refresh sends out *)

Lemma refresh_node_trace (w : World) (gs : dict NodeGPUState.t) (node : V1Node) :
  Forall (fun c => exists n, c = QueryMetrics n) (snd (refresh_node w gs node)).
Proof.
  unfold refresh_node.
  destruct (capacity node) as [ cap | ]; simpl; [ | constructor ].
  destruct (dict_mem "nvidia.com/gpu" cap); simpl; [ | constructor ].
  destruct (query_node_gpu_metrics w (metadata_name node)); simpl.
  - repeat constructor. eauto.
  - destruct (get_socket_count node); simpl; repeat constructor; eauto.
Qed.

Lemma refresh_loop_trace (w : World) (nodes : list V1Node) :
  forall gs, Forall (fun c => exists n, c = QueryMetrics n) (snd (refresh_loop w nodes gs)).
Proof.
  induction nodes as [ | node rest IH ]; intros gs; simpl; [ constructor | ].
  pose proof (refresh_node_trace w gs node) as Hn.
  destruct (refresh_node w gs node) as [ [ gs' | e ] tr ]; simpl in *; [ | assumption ].
  specialize (IH gs').
  destruct (refresh_loop w rest gs') as [ [ r gs'' ] tr' ]; simpl in *.
  apply Forall_app. auto.
Qed.

Lemma queries_only_no_binding (tr : list call) :
  Forall (fun c => exists n, c = QueryMetrics n) tr ->
  filter is_binding tr = [] /\ filter is_list_node tr = [].
Proof.
  induction 1 as [ | c tr (n & ->) _ IH ]; simpl; auto.
Qed.

(** A refresh commits no binding and lists the nodes at most once. *)
Lemma update_gpu_state_trace (w : World) (self self1 : Scheduler) (r : result unit)
    (tr : list call) :
  update_gpu_state w self = (r, self1, tr) ->
  filter is_binding tr = [] /\ (List.length (filter is_list_node tr) <= 1)%nat.
Proof.
  unfold update_gpu_state.
  destruct (fltb _ _).
  - intros H. injection H as <- <- <-. simpl. auto.
  - destruct (list_node w) as [ nodes | e ].
    + pose proof (refresh_loop_trace w nodes []) as Hq.
      destruct (refresh_loop w nodes []) as [ [ r' gs ] tr' ]. simpl in Hq.
      apply queries_only_no_binding in Hq. destruct Hq as [Hb Hl].
      destruct r'; intros H; injection H as <- <- <-; simpl; rewrite Hb, Hl; auto.
    + intros H. injection H as <- <- <-. simpl. auto.
Qed.

(* ================================================================== *)
(** * Extraction of the request *)

Lemma py_int_zero : py_int "0" = Ok 0.
Proof. reflexivity. Qed.

Lemma py_int_raises_value_error (s : string) (e : exn) :
  py_int s = Raise e -> e = ValueError.
Proof.
  unfold py_int.
  destruct (match strip (list_ascii_of_string s) with
            | [] => (false, [])
            | c :: ds =>
                if Ascii.eqb c "-"%char then (true, ds)
                else if Ascii.eqb c "+"%char then (false, ds)
                else (false, strip (list_ascii_of_string s))
            end) as [neg ds].
  destruct (parse_digits 0 false ds); [ | congruence ].
  destruct (max_str_digits <? List.length (filter is_digit ds))%nat; congruence.
Qed.

(** [int] strips the six ASCII whitespace characters and no other control
    character, and refuses a literal of more than 4300 digits. *)
Example py_int_whitespace_and_limit :
  py_int (String (ascii_of_nat 9) "42 ") = Ok 42 /\
  py_int (String (ascii_of_nat 28) "42") = Raise ValueError /\
  py_int (string_of_list_ascii (repeat "9"%char 4300)) = Ok (str_digits_bound - 1) /\
  py_int (string_of_list_ascii (repeat "9"%char 4301)) = Raise ValueError /\
  py_int (string_of_list_ascii (repeat "0"%char 4301)) = Raise ValueError.
Proof.
  split; [ | split; [ | split; [ | split ] ] ]; vm_compute; reflexivity.
Qed.

(** [str] renders an int of 4300 digits and refuses one of 4301. *)
Example str_of_int_limit :
  str_of_int (-42) = Ok "-42" /\
  (exists s, str_of_int (str_digits_bound - 1) = Ok s /\ String.length s = 4300%nat) /\
  str_of_int str_digits_bound = Raise ValueError /\
  str_of_int (- str_digits_bound) = Raise ValueError.
Proof.
  split; [ reflexivity | split; [ | split; vm_compute; reflexivity ] ].
  eexists. split; [ vm_compute; reflexivity | vm_compute; reflexivity ].
Qed.

Lemma get_gpu_requirement_unfold (pod : V1Pod) :
  get_gpu_requirement pod =
  match containers pod with
  | [] => Ok 0
  | c :: _ =>
      match dict_get (or_empty (requests (resources c))) "nvidia.com/gpu" with
      | None => Ok 0
      | Some q => py_int q
      end
  end.
Proof.
  unfold get_gpu_requirement, dict_get_default.
  destruct (containers pod) as [ | c rest ]; [ reflexivity | ].
  destruct (dict_get _ _); reflexivity.
Qed.

(** The steps of [schedule_pod] once the pod passed the filter and the
    cache refresh returned. *)
Lemma schedule_pod_after_refresh (w : World) (self self1 : Scheduler) (pod : V1Pod)
    (r : result unit) (tr : list call) :
  pod_scheduler_name pod = scheduler_name self ->
  placed_or_deleting pod = false ->
  update_gpu_state w self = (r, self1, tr) ->
  schedule_pod w self pod =
  match r with
  | Raise e => (Raise e, self1, tr)
  | Ok _ =>
      match get_gpu_requirement pod with
      | Raise e => (Raise e, self1, tr)
      | Ok gpu_req =>
          if gpu_req =? 0 then (Ok NoGPURequired, self1, tr)
          else
            match get_tensor_parallel_size pod with
            | Raise e => (Raise e, self1, tr)
            | Ok tp_size =>
                match find_best_placement (gpu_state self1) gpu_req tp_size pod with
                | Raise e => (Raise e, self1, tr)
                | Ok (Some res) =>
                    match create_namespaced_pod_binding w (pod_name pod)
                            (pod_namespace pod) (SchedulingResult.node res) with
                    | Raise e =>
                        (Raise e, self1,
                         tr ++ [CreateBinding (pod_name pod) (pod_namespace pod)
                                  (SchedulingResult.node res)])
                    | Ok _ =>
                        (match mapM str_of_int (SchedulingResult.gpus res) with
                         | Raise e => Raise e
                         | Ok _ => Ok (Scheduled res)
                         end, self1,
                         tr ++ [CreateBinding (pod_name pod) (pod_namespace pod)
                                  (SchedulingResult.node res)])
                    end
                | Ok None => (Ok NoFeasibleNode, self1, tr)
                end
            end
      end
  end.
Proof.
  intros Hown Hfree Hup. unfold schedule_pod.
  rewrite Hown, String.eqb_refl, Hfree, Hup. simpl.
  destruct r as [ [] | e ]; [ | reflexivity ].
  destruct (get_gpu_requirement pod) as [ gpu_req | e ]; [ | reflexivity ].
  destruct (gpu_req =? 0); [ reflexivity | ].
  destruct (get_tensor_parallel_size pod) as [ tp_size | e ]; [ | reflexivity ].
  destruct (find_best_placement (gpu_state self1) gpu_req tp_size pod)
    as [ [ res | ] | e ]; try reflexivity.
  destruct (create_namespaced_pod_binding w _ _ _); [ | reflexivity ].
  destruct (mapM str_of_int (SchedulingResult.gpus res)); reflexivity.
Qed.

(** C10: the requested count is read from the first container only.  A pod
    without containers requests 0; a count declared on the first container
    is the count returned (its [int]), whatever the other containers
    declare; two pods with the same first container request the same count;
    and when the first container declares no accelerator the count is 0, so
    the event loop skips the pod. *)
Theorem gpu_requirement_first_container_only :
  (forall pod : V1Pod, containers pod = [] -> get_gpu_requirement pod = Ok 0)
  /\
  (forall (pod : V1Pod) (c : V1Container) (rest : list V1Container) (q : string),
      containers pod = c :: rest ->
      dict_get (or_empty (requests (resources c))) "nvidia.com/gpu" = Some q ->
      get_gpu_requirement pod = py_int q)
  /\
  (forall (pod pod' : V1Pod) (c : V1Container) (rest rest' : list V1Container),
      containers pod = c :: rest ->
      containers pod' = c :: rest' ->
      get_gpu_requirement pod = get_gpu_requirement pod')
  /\
  (forall (pod : V1Pod) (c : V1Container) (rest : list V1Container),
      containers pod = c :: rest ->
      dict_get (or_empty (requests (resources c))) "nvidia.com/gpu" = None ->
      get_gpu_requirement pod = Ok 0 /\
      forall (w : World) (self self1 : Scheduler) (tr : list call),
        pod_scheduler_name pod = scheduler_name self ->
        placed_or_deleting pod = false ->
        update_gpu_state w self = (Ok tt, self1, tr) ->
        schedule_pod w self pod = (Ok NoGPURequired, self1, tr)).
Proof.
  split; [ | split; [ | split ] ].
  - intros pod H. unfold get_gpu_requirement. now rewrite H.
  - intros pod c rest q H Hq. rewrite get_gpu_requirement_unfold, H, Hq. reflexivity.
  - intros pod pod' c rest rest' H H'. unfold get_gpu_requirement. now rewrite H, H'.
  - intros pod c rest H Habs.
    assert (Hreq : get_gpu_requirement pod = Ok 0).
    { rewrite get_gpu_requirement_unfold, H, Habs. reflexivity. }
    split; [ exact Hreq | ].
    intros w self self1 tr Hown Hfree Hup.
    rewrite (schedule_pod_after_refresh w self self1 pod (Ok tt) tr Hown Hfree Hup).
    rewrite Hreq. reflexivity.
Qed.

Lemma gpu_requirement_first_container_only_witness :
  (* the first container declares 3, the second 5 *)
  (containers three_then_five
   = [container_with (Some "3") None; container_with (Some "5") None] /\
   dict_get (or_empty (requests (resources (container_with (Some "3") None))))
     "nvidia.com/gpu" = Some "3" /\
   dict_get (or_empty (requests (resources (container_with (Some "5") None))))
     "nvidia.com/gpu" = Some "5" /\
   get_gpu_requirement three_then_five = Ok 3)
  /\
  (* the first container declares nothing, the second 2 *)
  (containers sidecar_first = [container_with None None; container_with (Some "2") None] /\
   dict_get (or_empty (requests (resources (container_with None None)))) "nvidia.com/gpu"
   = None /\
   get_gpu_requirement sidecar_first = Ok 0 /\
   schedule_pod (world_at 1700000000 [gpu_node "node-a" None]) scheduler0 sidecar_first
   = (Ok NoGPURequired, refreshed_at 1700000000, [ListNode; QueryMetrics "node-a"])).
Proof.
  destruct gpu_requirement_first_container_only as (_ & Hfirst & _ & Hnone).
  split.
  - split; [ reflexivity | ]. split; [ reflexivity | ]. split; [ reflexivity | ].
    exact (Hfirst three_then_five (container_with (Some "3") None)
             [container_with (Some "5") None] "3" eq_refl eq_refl).
  - split; [ reflexivity | ]. split; [ reflexivity | ].
    destruct (Hnone sidecar_first (container_with None None)
                [container_with (Some "2") None] eq_refl eq_refl) as [Hzero Hskip].
    split; [ exact Hzero | ].
    exact (Hskip (world_at 1700000000 [gpu_node "node-a" None]) scheduler0
             (refreshed_at 1700000000) [ListNode; QueryMetrics "node-a"]
             eq_refl eq_refl eq_refl).
Defined.

(** C5 (as amended): the extraction returns 0 when the pod has no
    container or its first container declares no accelerator, and otherwise
    [int] of the declared quantity; the only exception it raises is the
    [ValueError] of [int], which is not turned into 0: it leaves
    [schedule_pod] and the event loop. *)
Theorem gpu_requirement_extraction (pod : V1Pod) :
  get_gpu_requirement pod =
  match containers pod with
  | [] => Ok 0
  | c :: _ =>
      match dict_get (or_empty (requests (resources c))) "nvidia.com/gpu" with
      | None => Ok 0
      | Some q => py_int q
      end
  end
  /\
  forall e : exn,
    get_gpu_requirement pod = Raise e ->
    e = ValueError /\
    forall (w : World) (self self1 : Scheduler) (tr : list call)
           (rest : list (World * V1Pod)),
      pod_scheduler_name pod = scheduler_name self ->
      placed_or_deleting pod = false ->
      update_gpu_state w self = (Ok tt, self1, tr) ->
      schedule_pod w self pod = (Raise e, self1, tr) /\
      run ((w, pod) :: rest) self = (Raise e, self1, tr).
Proof.
  split; [ apply get_gpu_requirement_unfold | ].
  intros e He. split.
  - rewrite get_gpu_requirement_unfold in He.
    destruct (containers pod) as [ | c cs ]; [ discriminate | ].
    destruct (dict_get _ _) as [ q | ]; [ | discriminate ].
    eapply py_int_raises_value_error; eauto.
  - intros w self self1 tr rest Hown Hfree Hup.
    assert (Hs : schedule_pod w self pod = (Raise e, self1, tr)).
    { rewrite (schedule_pod_after_refresh w self self1 pod (Ok tt) tr Hown Hfree Hup).
      now rewrite He. }
    split; [ exact Hs | ]. simpl. now rewrite Hs.
Qed.

Lemma gpu_requirement_extraction_witness :
  get_gpu_requirement (pending_pod (Some "1k") None) = Raise ValueError /\
  update_gpu_state (world_at 1700000000 []) scheduler0
  = (Ok tt,
     {| scheduler_name := "gpu-aware-scheduler"; gpu_state := [];
        last_update := float_of_int 1700000000; cache_ttl := float_of_int 10 |},
     [ListNode]) /\
  run [(world_at 1700000000 [], pending_pod (Some "1k") None);
       (world_at 1700000001 [], pending_pod (Some "1") None)] scheduler0
  = (Raise ValueError,
     {| scheduler_name := "gpu-aware-scheduler"; gpu_state := [];
        last_update := float_of_int 1700000000; cache_ttl := float_of_int 10 |},
     [ListNode]).
Proof.
  assert (He : get_gpu_requirement (pending_pod (Some "1k") None) = Raise ValueError)
    by reflexivity.
  assert (Hup : update_gpu_state (world_at 1700000000 []) scheduler0
                = (Ok tt,
                   {| scheduler_name := "gpu-aware-scheduler"; gpu_state := [];
                      last_update := float_of_int 1700000000;
                      cache_ttl := float_of_int 10 |},
                   [ListNode])) by reflexivity.
  split; [ exact He | split; [ exact Hup | ] ].
  destruct (gpu_requirement_extraction (pending_pod (Some "1k") None)) as [_ H].
  destruct (H ValueError He) as [_ H'].
  exact (proj2 (H' (world_at 1700000000 []) scheduler0 _ _
                   [(world_at 1700000001 [], pending_pod (Some "1") None)]
                   eq_refl eq_refl Hup)).
Defined.

(** C5 (as stated): a quantity that [int] cannot parse does not count as 0;
    the extraction raises. *)
Lemma unparseable_quantity_raises :
  get_gpu_requirement (pending_pod (Some "1k") None) <> Ok 0 /\
  get_gpu_requirement (pending_pod (Some "1k") None) = Raise ValueError /\
  get_gpu_requirement (pending_pod (Some "two") None) = Raise ValueError.
Proof.
  repeat split; try reflexivity. discriminate.
Qed.

(** C7 (as amended): a pod that requests 0 accelerators is skipped by the
    event loop, after the cache refresh and before the placement engine:
    what [schedule_pod] returns and sends out is what the refresh returned
    and sent out, whatever the cache holds, and no binding is committed. *)
Theorem zero_request_skipped_by_event_loop (w : World) (self self1 : Scheduler)
    (pod : V1Pod) (r : result unit) (tr : list call) :
  pod_scheduler_name pod = scheduler_name self ->
  placed_or_deleting pod = false ->
  get_gpu_requirement pod = Ok 0 ->
  update_gpu_state w self = (r, self1, tr) ->
  schedule_pod w self pod
  = (match r with Ok _ => Ok NoGPURequired | Raise e => Raise e end, self1, tr)
  /\ filter is_binding tr = [].
Proof.
  intros Hown Hfree Hreq Hup. split.
  - rewrite (schedule_pod_after_refresh w self self1 pod r tr Hown Hfree Hup).
    rewrite Hreq. destruct r; reflexivity.
  - eapply update_gpu_state_trace; eauto.
Qed.

(** C9 (as amended): when no node reaches the free count of the path taken
    (the requested count on the single-accelerator path, the group size on
    the multi-accelerator path), the engine returns [None] without raising;
    the event loop then ends the event with "no feasible node", having sent
    out nothing but the cache refresh (no binding), and goes on with the
    next event. *)
Theorem no_feasible_placement :
  (forall (gs : dict NodeGPUState.t) (gpu_req tp_size : Z) (pod : V1Pod),
      (forall (name : string) (st : NodeGPUState.t),
          In (name, st) gs ->
          NodeGPUState.free_gpus st < min_free_count gpu_req tp_size) ->
      find_best_placement gs gpu_req tp_size pod = Ok None)
  /\
  (forall (w : World) (self self1 : Scheduler) (pod : V1Pod) (tr : list call)
          (gpu_req tp_size : Z) (rest : list (World * V1Pod)),
      pod_scheduler_name pod = scheduler_name self ->
      placed_or_deleting pod = false ->
      update_gpu_state w self = (Ok tt, self1, tr) ->
      get_gpu_requirement pod = Ok gpu_req ->
      gpu_req <> 0 ->
      get_tensor_parallel_size pod = Ok tp_size ->
      (forall (name : string) (st : NodeGPUState.t),
          In (name, st) (gpu_state self1) ->
          NodeGPUState.free_gpus st < min_free_count gpu_req tp_size) ->
      schedule_pod w self pod = (Ok NoFeasibleNode, self1, tr) /\
      filter is_binding tr = [] /\
      run ((w, pod) :: rest) self
      = (let '(r', self2, tr') := run rest self1 in (r', self2, tr ++ tr'))).
Proof.
  assert (Hengine : forall (gs : dict NodeGPUState.t) (gpu_req tp_size : Z) (pod : V1Pod),
             (forall (name : string) (st : NodeGPUState.t),
                 In (name, st) gs ->
                 NodeGPUState.free_gpus st < min_free_count gpu_req tp_size) ->
             find_best_placement gs gpu_req tp_size pod = Ok None).
  { intros gs gpu_req tp_size pod Hgate.
    unfold find_best_placement, min_free_count in *.
    destruct (tp_size <=? 1).
    - rewrite find_single_gpu_placement_scan.
      rewrite scan_all_skip; [ reflexivity | ].
      intros [[n st] g] Hin. apply in_eligible_accelerators in Hin.
      destruct Hin as (Hin & Hfree & _). specialize (Hgate n st Hin). lia.
    - rewrite find_multi_gpu_placement_scan.
      rewrite scan_all_skip; [ reflexivity | ].
      intros [n st] Hin. specialize (Hgate n st Hin). unfold multi_cand.
      apply Z.ltb_lt in Hgate. now rewrite Hgate. }
  split; [ exact Hengine | ].
  intros w self self1 pod tr gpu_req tp_size rest Hown Hfree Hup Hreq Hnz Htp Hgate.
  assert (Hs : schedule_pod w self pod = (Ok NoFeasibleNode, self1, tr)).
  { rewrite (schedule_pod_after_refresh w self self1 pod (Ok tt) tr Hown Hfree Hup).
    rewrite Hreq. apply Z.eqb_neq in Hnz. rewrite Hnz, Htp.
    now rewrite (Hengine _ _ _ pod Hgate). }
  split; [ exact Hs | split ].
  - eapply update_gpu_state_trace; eauto.
  - simpl. rewrite Hs. reflexivity.
Qed.

Lemma no_feasible_placement_witness :
  update_gpu_state (world_at 1700000000 [gpu_node "node-a" None]) scheduler0
  = (Ok tt, refreshed_at 1700000000, [ListNode; QueryMetrics "node-a"]) /\
  find_best_placement two_free 4 4 (pending_pod (Some "4") None) = Ok None /\
  schedule_pod (world_at 1700000000 [gpu_node "node-a" None]) scheduler0
    (pending_pod (Some "4") None)
  = (Ok NoFeasibleNode, refreshed_at 1700000000, [ListNode; QueryMetrics "node-a"]).
Proof.
  assert (Hgate : forall (name : string) (st : NodeGPUState.t),
             In (name, st) two_free ->
             NodeGPUState.free_gpus st < min_free_count 4 4).
  { intros name st [ E | [] ]. injection E as <- <-. reflexivity. }
  assert (Hup : update_gpu_state (world_at 1700000000 [gpu_node "node-a" None]) scheduler0
                = (Ok tt, refreshed_at 1700000000, [ListNode; QueryMetrics "node-a"]))
    by reflexivity.
  destruct no_feasible_placement as [Hengine Hloop].
  split; [ exact Hup | split ].
  - exact (Hengine two_free 4 4 (pending_pod (Some "4") None) Hgate).
  - refine (proj1 (Hloop (world_at 1700000000 [gpu_node "node-a" None]) scheduler0
                     (refreshed_at 1700000000) (pending_pod (Some "4") None)
                     [ListNode; QueryMetrics "node-a"] 4 4 []
                     eq_refl eq_refl Hup eq_refl _ eq_refl Hgate)).
    discriminate.
Defined.

Lemma zero_request_skipped_by_event_loop_witness :
  get_gpu_requirement (pending_pod (Some "0") None) = Ok 0 /\
  schedule_pod (world_at 1700000000 [gpu_node "node-a" None]) scheduler0
    (pending_pod (Some "0") None)
  = (Ok NoGPURequired, refreshed_at 1700000000, [ListNode; QueryMetrics "node-a"])
  /\ filter is_binding [ListNode; QueryMetrics "node-a"] = [].
Proof.
  split; [ reflexivity | ].
  exact (zero_request_skipped_by_event_loop
           (world_at 1700000000 [gpu_node "node-a" None]) scheduler0
           (refreshed_at 1700000000) (pending_pod (Some "0") None) (Ok tt)
           [ListNode; QueryMetrics "node-a"] eq_refl eq_refl eq_refl eq_refl).
Defined.

(** C9 (as stated): with 4 accelerators requested in groups of 2, the only
    node has 2 free, fewer than requested; the engine still returns a
    decision on it and the event loop commits the binding. *)
Lemma undersized_node_is_bound :
  (forall (name : string) (st : NodeGPUState.t),
      In (name, st) two_free -> NodeGPUState.free_gpus st < 4) /\
  get_gpu_requirement (pending_pod (Some "4") (Some "2")) = Ok 4 /\
  get_tensor_parallel_size (pending_pod (Some "4") (Some "2")) = Ok 2 /\
  find_best_placement two_free 4 2 (pending_pod (Some "4") (Some "2"))
  = Ok (Some two_free_decision) /\
  schedule_pod (world_at 1700000000 [gpu_node "node-a" None]) scheduler0
    (pending_pod (Some "4") (Some "2"))
  = (Ok (Scheduled two_free_decision), refreshed_at 1700000000,
     [ListNode; QueryMetrics "node-a"; CreateBinding "vllm-0" "default" "node-a"]).
Proof.
  split; [ | split; [ reflexivity | split; [ reflexivity | split ] ] ].
  - intros name st [ E | [] ]. injection E as <- <-. reflexivity.
  - vm_compute. reflexivity.
  - vm_compute. reflexivity.
Qed.

(** C7 (as stated): the placement engine has no guard on a requested count
    of 0; called with it, it visits the nodes, scores their accelerators and
    returns a decision.  In the event loop the guard comes after the cache
    refresh, which lists and queries the nodes when the cache is stale. *)
Lemma placement_engine_has_no_zero_guard :
  get_tensor_parallel_size (pending_pod (Some "0") None) = Ok 0 /\
  (exists r : SchedulingResult.t,
      find_best_placement two_free 0 0 (pending_pod (Some "0") None) = Ok (Some r) /\
      SchedulingResult.node r = "node-a" /\
      SchedulingResult.gpus r = [0]) /\
  snd (schedule_pod (world_at 1700000000 [gpu_node "node-a" None]) scheduler0
         (pending_pod (Some "0") None))
  = [ListNode; QueryMetrics "node-a"].
Proof.
  split; [ reflexivity | split ].
  - eexists. split; [ vm_compute; reflexivity | ]. split; reflexivity.
  - reflexivity.
Qed.

(* ================================================================== *)
(** * Cache reads within the TTL *)

Lemma schedule_pod_trace (w : World) (self self' : Scheduler) (pod : V1Pod)
    (r : result outcome) (tr : list call) :
  schedule_pod w self pod = (r, self', tr) ->
  (self' = self /\ tr = [])
  \/
  (exists (r1 : result unit) (tr1 trb : list call),
      update_gpu_state w self = (r1, self', tr1) /\
      tr = tr1 ++ trb /\
      Forall (fun c => is_binding c = true) trb).
Proof.
  unfold schedule_pod.
  destruct (negb _); [ intros H; injection H as <- <- <-; auto | ].
  destruct (placed_or_deleting pod); [ intros H; injection H as <- <- <-; auto | ].
  destruct (update_gpu_state w self) as [ [ r1 self1 ] tr1 ].
  intros H. right. exists r1, tr1.
  destruct r1 as [ [] | e ];
    [ | exists []; injection H as <- <- <-; rewrite app_nil_r; auto ].
  destruct (get_gpu_requirement pod) as [ gpu_req | e ];
    [ | exists []; injection H as <- <- <-; rewrite app_nil_r; auto ].
  destruct (gpu_req =? 0);
    [ exists []; injection H as <- <- <-; rewrite app_nil_r; auto | ].
  destruct (get_tensor_parallel_size pod) as [ tp_size | e ];
    [ | exists []; injection H as <- <- <-; rewrite app_nil_r; auto ].
  destruct (find_best_placement (gpu_state self1) gpu_req tp_size pod)
    as [ [ res | ] | e ];
    try (exists []; injection H as <- <- <-; rewrite app_nil_r; auto).
  unfold bind_pod in H.
  exists [CreateBinding (pod_name pod) (pod_namespace pod) (SchedulingResult.node res)].
  destruct (create_namespaced_pod_binding w _ _ _);
    [ destruct (mapM str_of_int (SchedulingResult.gpus res)) | ];
    injection H as <- <- <-; repeat split; auto.
Qed.

Lemma bindings_not_inventory (trb : list call) :
  Forall (fun c => is_binding c = true) trb ->
  filter is_inventory trb = [] /\ filter is_list_node trb = [].
Proof.
  induction 1 as [ | c trb Hc _ IH ]; simpl; [ auto | ].
  destruct c; simpl in *; try discriminate. exact IH.
Qed.

(** C6: a cache read within the TTL of the last refresh leaves the mapping
    and [last_update] as they are and sends nothing out; so an event handled
    within the TTL issues no inventory call, and two events handled in a row,
    the second within the TTL, list the nodes at most once.  The TTL of a new
    scheduler is 10 seconds. *)
Theorem cache_read_within_ttl (w : World) (self : Scheduler) :
  fltb (fsub (time_time w) (last_update self)) (cache_ttl self) = true ->
  update_gpu_state w self = (Ok tt, self, [])
  /\
  (forall (pod : V1Pod) (r : result outcome) (self' : Scheduler) (tr : list call),
      schedule_pod w self pod = (r, self', tr) ->
      self' = self /\ filter is_inventory tr = [])
  /\
  (forall (w0 : World) (self0 : Scheduler) (pod0 pod : V1Pod)
          (r0 r : result outcome) (self' : Scheduler) (tr0 tr : list call),
      schedule_pod w0 self0 pod0 = (r0, self, tr0) ->
      schedule_pod w self pod = (r, self', tr) ->
      (List.length (filter is_list_node (tr0 ++ tr)) <= 1)%nat)
  /\
  (forall name : string, cache_ttl (init name) = float_of_int 10).
Proof.
  intros Httl.
  assert (Hup : update_gpu_state w self = (Ok tt, self, [])).
  { unfold update_gpu_state. now rewrite Httl. }
  assert (Hsched : forall (pod : V1Pod) (r : result outcome) (self' : Scheduler)
                          (tr : list call),
             schedule_pod w self pod = (r, self', tr) ->
             self' = self /\ filter is_inventory tr = [] /\ filter is_list_node tr = []).
  { intros pod r self' tr H.
    destruct (schedule_pod_trace _ _ _ _ _ _ H)
      as [ [-> ->] | (r1 & tr1 & trb & Hu & -> & Hb) ]; [ auto | ].
    rewrite Hup in Hu. injection Hu as <- <- <-. simpl.
    split; [ reflexivity | ]. now apply bindings_not_inventory. }
  split; [ exact Hup | split; [ | split ] ].
  - intros pod r self' tr H. destruct (Hsched _ _ _ _ H) as (? & ? & _). auto.
  - intros w0 self0 pod0 pod r0 r self' tr0 tr H0 H.
    destruct (Hsched _ _ _ _ H) as (_ & _ & Hl).
    rewrite filter_app, Hl, app_nil_r.
    destruct (schedule_pod_trace _ _ _ _ _ _ H0)
      as [ [_ ->] | (r1 & tr1 & trb & Hu & -> & Hb) ]; [ simpl; lia | ].
    rewrite filter_app.
    destruct (bindings_not_inventory _ Hb) as [_ ->]. rewrite app_nil_r.
    eapply update_gpu_state_trace; eauto.
  - reflexivity.
Qed.

Lemma cache_read_within_ttl_witness :
  fltb (fsub (time_time (world_at 1700000004 [gpu_node "node-a" None; gpu_node "node-b" None]))
          (last_update (refreshed_at 1700000000)))
       (cache_ttl (refreshed_at 1700000000)) = true /\
  update_gpu_state (world_at 1700000004 [gpu_node "node-a" None; gpu_node "node-b" None])
    (refreshed_at 1700000000)
  = (Ok tt, refreshed_at 1700000000, []).
Proof.
  split; [ reflexivity | ].
  exact (proj1 (cache_read_within_ttl
                  (world_at 1700000004 [gpu_node "node-a" None; gpu_node "node-b" None])
                  (refreshed_at 1700000000) eq_refl)).
Defined.

(* ================================================================== *)
(** * Refreshing the cache *)

Lemma dict_get_set {V : Type} (d : dict V) (k k' : string) (v : V) :
  dict_get (dict_set k v d) k' = if String.eqb k' k then Some v else dict_get d k'.
Proof.
  induction d as [ | [k0 v0] d IH ]; simpl.
  - reflexivity.
  - destruct (String.eqb_spec k k0) as [ -> | Hk ]; simpl.
    + destruct (String.eqb k' k0); reflexivity.
    + rewrite IH. destruct (String.eqb_spec k' k0) as [ -> | Hk' ]; [ | reflexivity ].
      destruct (String.eqb_spec k0 k); [ congruence | reflexivity ].
Qed.

(** An iteration that returns stores the node's entry, if it has one. *)
Lemma refresh_node_ok (w : World) (gs gs1 : dict NodeGPUState.t) (node : V1Node)
    (tr : list call) :
  refresh_node w gs node = (Ok gs1, tr) ->
  gs1 = match node_entry w node with
        | Some st => dict_set (metadata_name node) st gs
        | None => gs
        end.
Proof.
  unfold refresh_node, node_entry.
  destruct (capacity node) as [ cap | ]; [ | discriminate ].
  destruct (dict_mem "nvidia.com/gpu" cap); simpl; [ | congruence ].
  destruct (query_node_gpu_metrics w (metadata_name node)); [ congruence | ].
  destruct (get_socket_count node); [ | discriminate ].
  intros H. injection H as <- _. reflexivity.
Qed.

(** An iteration raises only on a missing capacity or a socket label that
    does not parse. *)
Lemma refresh_node_total (w : World) (gs : dict NodeGPUState.t) (node : V1Node) :
  capacity node <> None ->
  (exists sockets, get_socket_count node = Ok sockets) ->
  exists gs1 tr, refresh_node w gs node = (Ok gs1, tr).
Proof.
  intros Hcap (sockets & Hs). unfold refresh_node.
  destruct (capacity node) as [ cap | ]; [ | congruence ].
  destruct (dict_mem "nvidia.com/gpu" cap); simpl; [ | eauto ].
  destruct (query_node_gpu_metrics w (metadata_name node)); [ eauto | ].
  rewrite Hs. eauto.
Qed.

Lemma node_named_none (nodes : list V1Node) (name : string) :
  ~ In name (map metadata_name nodes) -> node_named nodes name = None.
Proof.
  unfold node_named. induction nodes as [ | node rest IH ]; simpl; [ reflexivity | ].
  intros H. destruct (String.eqb_spec (metadata_name node) name) as [ E | _ ].
  - exfalso. apply H. now left.
  - apply IH. intros Hin. apply H. now right.
Qed.

(** The mapping after a loop that returned: every listed node overrides the
    mapping at its own name with its entry, if it has one. *)
Lemma refresh_loop_ok (w : World) (nodes : list V1Node) :
  forall (gs gs' : dict NodeGPUState.t) (tr : list call),
    NoDup (map metadata_name nodes) ->
    refresh_loop w nodes gs = (Ok tt, gs', tr) ->
    forall name : string,
      dict_get gs' name =
      match node_named nodes name with
      | Some node =>
          match node_entry w node with
          | Some st => Some st
          | None => dict_get gs name
          end
      | None => dict_get gs name
      end.
Proof.
  induction nodes as [ | node rest IH ]; intros gs gs' tr Hnd H name; simpl in H.
  - injection H as <- _. reflexivity.
  - destruct (refresh_node w gs node) as [ [ gs1 | e ] tr1 ] eqn:Hn; [ | discriminate ].
    destruct (refresh_loop w rest gs1) as [ [ r gs2 ] tr2 ] eqn:Hl.
    injection H as -> -> _.
    inversion Hnd as [ | ? ? Hnotin Hnd' ]; subst.
    rewrite (IH _ _ _ Hnd' Hl name).
    apply refresh_node_ok in Hn. unfold node_named at 2. simpl.
    destruct (String.eqb_spec (metadata_name node) name) as [ E | Hneq ].
    + subst name. fold (node_named rest (metadata_name node)).
      rewrite (node_named_none _ _ Hnotin). rewrite Hn.
      destruct (node_entry w node); [ | reflexivity ].
      now rewrite dict_get_set, String.eqb_refl.
    + fold (node_named rest name).
      assert (Hsame : dict_get gs1 name = dict_get gs name).
      { rewrite Hn. destruct (node_entry w node); [ | reflexivity ].
        rewrite dict_get_set.
        destruct (String.eqb_spec name (metadata_name node)); congruence. }
      rewrite Hsame. reflexivity.
Qed.

Lemma refresh_loop_total (w : World) (nodes : list V1Node) :
  forall gs : dict NodeGPUState.t,
    (forall node, In node nodes ->
                  capacity node <> None /\
                  exists sockets, get_socket_count node = Ok sockets) ->
    exists gs' tr, refresh_loop w nodes gs = (Ok tt, gs', tr).
Proof.
  induction nodes as [ | node rest IH ]; intros gs Hwf; simpl; [ eauto | ].
  destruct (Hwf node (or_introl eq_refl)) as [Hcap Hs].
  destruct (refresh_node_total w gs node Hcap Hs) as (gs1 & tr1 & ->).
  destruct (IH gs1) as (gs' & tr' & ->); [ | eauto ].
  intros n Hn. apply Hwf. now right.
Qed.

(** A loop that raises stops at the first node whose iteration raises, with
    the mapping the nodes before it produced. *)
Lemma refresh_loop_raise (w : World) (nodes : list V1Node) :
  forall (gs gs' : dict NodeGPUState.t) (e : exn) (tr : list call),
    refresh_loop w nodes gs = (Raise e, gs', tr) ->
    exists (pre post : list V1Node) (bad : V1Node) (tr_pre tr_bad : list call),
      nodes = pre ++ bad :: post /\
      refresh_loop w pre gs = (Ok tt, gs', tr_pre) /\
      refresh_node w gs' bad = (Raise e, tr_bad).
Proof.
  induction nodes as [ | node rest IH ]; intros gs gs' e tr H; simpl in H;
    [ discriminate | ].
  destruct (refresh_node w gs node) as [ [ gs1 | e1 ] tr1 ] eqn:Hn.
  - destruct (refresh_loop w rest gs1) as [ [ r gs2 ] tr2 ] eqn:Hl.
    injection H as -> -> _.
    destruct (IH _ _ _ _ Hl) as (pre & post & bad & tr_pre & tr_bad & -> & Hpre & Hbad).
    exists (node :: pre), post, bad, (tr1 ++ tr_pre), tr_bad.
    repeat split; auto. simpl. now rewrite Hn, Hpre.
  - injection H as <- <- <-.
    exists [], rest, node, [], tr1. repeat split; auto.
Qed.

(** C4 (as amended): once the TTL has expired,
    - a refresh whose node listing fails leaves the scheduler as it was;
    - a refresh that returns has replaced the mapping by the complete new
      snapshot, which holds, for every listed node, its entry if it has one
      and nothing else, and has set [last_update]; a node whose exporter
      query fails has no entry and does not affect the entries of the
      others;
    - the refresh returns whenever every listed node reports a capacity and
      a socket label that parses;
    - a refresh that raises while it goes through the listed nodes keeps
      [last_update] and leaves the mapping emptied and refilled with the
      nodes before the one that raised. *)
Theorem refresh_outcomes (w : World) (self : Scheduler) :
  fltb (fsub (time_time w) (last_update self)) (cache_ttl self) = false ->
  (forall e : exn,
      list_node w = Raise e ->
      update_gpu_state w self = (Raise e, self, [ListNode]))
  /\
  (forall (nodes : list V1Node) (self' : Scheduler) (tr : list call),
      list_node w = Ok nodes ->
      NoDup (map metadata_name nodes) ->
      update_gpu_state w self = (Ok tt, self', tr) ->
      last_update self' = time_time w /\
      forall name : string,
        dict_get (gpu_state self') name =
        match node_named nodes name with
        | Some node => node_entry w node
        | None => None
        end)
  /\
  (forall (node : V1Node) (e : exn),
      dcgm_query w (metadata_name node) = Raise e -> node_entry w node = None)
  /\
  (forall nodes : list V1Node,
      list_node w = Ok nodes ->
      (forall node, In node nodes ->
                    capacity node <> None /\
                    exists sockets, get_socket_count node = Ok sockets) ->
      exists self' tr, update_gpu_state w self = (Ok tt, self', tr))
  /\
  (forall (nodes : list V1Node) (e : exn) (self' : Scheduler) (tr : list call),
      list_node w = Ok nodes ->
      update_gpu_state w self = (Raise e, self', tr) ->
      last_update self' = last_update self /\
      exists (pre post : list V1Node) (bad : V1Node) (tr_pre tr_bad : list call),
        nodes = pre ++ bad :: post /\
        refresh_loop w pre [] = (Ok tt, gpu_state self', tr_pre) /\
        refresh_node w (gpu_state self') bad = (Raise e, tr_bad)).
Proof.
  intros Httl. unfold update_gpu_state. rewrite Httl.
  split; [ | split; [ | split; [ | split ] ] ].
  - intros e ->. reflexivity.
  - intros nodes self' tr -> Hnd H.
    destruct (refresh_loop w nodes []) as [ [ r gs ] tr' ] eqn:Hl.
    destruct r as [ [] | e ]; [ | discriminate ].
    injection H as <- _. simpl. split; [ reflexivity | ].
    intros name. rewrite (refresh_loop_ok w nodes _ _ _ Hnd Hl name). simpl.
    destruct (node_named nodes name) as [ node | ]; [ | reflexivity ].
    now destruct (node_entry w node).
  - intros node e He. unfold node_entry, query_node_gpu_metrics. rewrite He.
    destruct (capacity node) as [ cap | ]; [ | reflexivity ].
    now destruct (dict_mem "nvidia.com/gpu" cap).
  - intros nodes -> Hwf.
    destruct (refresh_loop_total w nodes [] Hwf) as (gs' & tr & ->). eauto.
  - intros nodes e self' tr -> H.
    destruct (refresh_loop w nodes []) as [ [ r gs ] tr' ] eqn:Hl.
    destruct r as [ [] | e' ]; [ discriminate | ].
    injection H as <- <- _. simpl. split; [ reflexivity | ].
    exact (refresh_loop_raise w nodes _ _ _ _ Hl).
Qed.

Lemma refresh_outcomes_witness :
  fltb (fsub (time_time flaky_world) (last_update prior_two_nodes))
       (cache_ttl prior_two_nodes) = false /\
  exists (self' : Scheduler) (tr : list call),
    update_gpu_state flaky_world prior_two_nodes = (Ok tt, self', tr) /\
    last_update self' = time_time flaky_world /\
    dict_get (gpu_state self') "node-a" = None /\
    dict_get (gpu_state self') "node-b"
    = Some (state_of "node-b" [h100 "node-b" 0 80896 5; h100 "node-b" 1 79872 10] false).
Proof.
  assert (Httl : fltb (fsub (time_time flaky_world) (last_update prior_two_nodes))
                      (cache_ttl prior_two_nodes) = false) by reflexivity.
  split; [ exact Httl | ].
  destruct (refresh_outcomes flaky_world prior_two_nodes Httl)
    as (_ & Hdone & _ & Htotal & _).
  destruct (Htotal _ eq_refl) as (self' & tr & Hup).
  { intros node [ <- | [ <- | [] ] ]; (split; [ discriminate | ]); now exists 1. }
  exists self', tr. split; [ exact Hup | ].
  assert (Hnd : NoDup (map metadata_name
                         [gpu_node "node-a" None; gpu_node "node-b" None])).
  { simpl. repeat constructor; simpl; intuition discriminate. }
  destruct (Hdone _ self' tr eq_refl Hnd Hup) as [Hlast Hget].
  split; [ exact Hlast | split ].
  - exact (Hget "node-a").
  - exact (Hget "node-b").
Defined.

(** C4 (as stated): a refresh that fails at the second of two listed nodes
    leaves a mapping that is neither the prior snapshot nor a complete new
    one: the exporter answered for [node-b], yet the mapping holds [node-a]
    only. *)
Lemma failed_refresh_leaves_partial_mapping :
  exists (self' : Scheduler) (tr : list call),
    update_gpu_state relabelled_world prior_two_nodes = (Raise ValueError, self', tr) /\
    gpu_state self' <> gpu_state prior_two_nodes /\
    dcgm_query relabelled_world "node-b" = mock_dcgm "node-b" /\
    map fst (gpu_state self') = ["node-a"] /\
    last_update self' = last_update prior_two_nodes.
Proof.
  eexists. eexists. split; [ vm_compute; reflexivity | ].
  repeat split; try reflexivity. simpl. discriminate.
Qed.

(* ================================================================== *)
(** * The single-accelerator path: first maximum in visiting order *)

(** The scan behind [find_single_gpu_placement]: its decision is proposed
    for an accelerator with at least 1000 MB free, no visited accelerator
    with at least 1000 MB free scores higher, and none visited before it
    scores as high. *)
Lemma single_scan_argmax (gs : dict NodeGPUState.t) (gpu_req : Z) (pod : V1Pod)
    (r : SchedulingResult.t) :
  find_single_gpu_placement gs gpu_req pod = Ok (Some r) ->
  exists (i : nat) (n : string) (st : NodeGPUState.t) (g : GPUInfo.t),
    nth_error (eligible_accelerators gs gpu_req) i = Some (n, st, g) /\
    1000 <= GPUInfo.memory_free g /\
    score_single_gpu g st pod = Ok (SchedulingResult.score r) /\
    SchedulingResult.node r = n /\
    SchedulingResult.gpus r = [GPUInfo.gpu_index g] /\
    forall (j : nat) (n' : string) (st' : NodeGPUState.t) (g' : GPUInfo.t),
      nth_error (eligible_accelerators gs gpu_req) j = Some (n', st', g') ->
      1000 <= GPUInfo.memory_free g' ->
      exists s' : float,
        score_single_gpu g' st' pod = Ok s' /\
        fltb (SchedulingResult.score r) s' = false /\
        ((j < i)%nat -> fleb (SchedulingResult.score r) s' = false).
Proof.
  rewrite find_single_gpu_placement_scan.
  destruct (foldM _ _ best_init) as [ res | e ] eqn:H; simpl; [ | discriminate ].
  intros E. injection E as E.
  pose proof (scan_no_raise _ _ _ _ _ H) as Hok.
  destruct (scan_inv _ _ _ _ _ H)
    as [ [-> _] | (i & [[n st] g] & s & r' & Hi & Ha & -> & _ & Hbest) ];
    [ discriminate | ].
  simpl in E. injection E as ->.
  destruct (single_cand_some _ _ _ _ _ _ Ha) as (Hfree & Hs & -> & Hn & Hg).
  exists i, n, st, g. repeat split; auto.
  intros j n' st' g' Hj Hfree'.
  destruct (Hok _ (nth_error_In _ _ Hj)) as [c Hc].
  assert (Hc' := Hc). unfold single_cand in Hc'.
  apply Z.ltb_ge in Hfree'. rewrite Hfree' in Hc'.
  destruct (score_single_gpu g' st' pod) as [ s' | e ]; cbn [bind] in Hc';
    [ | discriminate ].
  injection Hc' as <-. exists s'. split; [ reflexivity | ].
  exact (Hbest _ _ _ _ Hj Hc).
Qed.

(** The scan returns a decision as soon as no scoring raises, the reason of
    every visited accelerator with at least 1000 MB free can be rendered,
    and one of these accelerators scores above minus infinity. *)
Lemma single_scan_some (gs : dict NodeGPUState.t) (gpu_req : Z) (pod : V1Pod) :
  (forall n st g,
      In (n, st, g) (eligible_accelerators gs gpu_req) ->
      1000 <= GPUInfo.memory_free g ->
      exists s, score_single_gpu g st pod = Ok s) ->
  (forall n st g,
      In (n, st, g) (eligible_accelerators gs gpu_req) ->
      1000 <= GPUInfo.memory_free g ->
      renders (GPUInfo.gpu_index g) /\ renders (GPUInfo.memory_free g)) ->
  (exists n st g s,
      In (n, st, g) (eligible_accelerators gs gpu_req) /\
      1000 <= GPUInfo.memory_free g /\
      score_single_gpu g st pod = Ok s /\ fltb neg_inf s = true) ->
  exists r, find_single_gpu_placement gs gpu_req pod = Ok (Some r).
Proof.
  intros Hall Hrender (n & st & g & s & Hin & Hfree & Hs & Hgt).
  rewrite find_single_gpu_placement_scan.
  destruct (scan_total _ (single_cand pod) (eligible_accelerators gs gpu_req) best_init)
    as [res H].
  { intros [[n' st'] g'] Hin'. unfold single_cand.
    destruct (Z.ltb_spec (GPUInfo.memory_free g') 1000) as [ Hlt | Hge ]; [ now left | ].
    right.
    destruct (Hall _ _ _ Hin' Hge) as [s' ->].
    destruct (Hrender _ _ _ Hin' Hge) as [Hidx Hmem].
    rewrite (str_of_int_renders _ Hidx), (str_of_int_renders _ Hmem).
    cbn [bind]. eauto. }
  rewrite H. simpl.
  destruct (scan_inv _ _ _ _ _ H) as [ [-> Hmax] | (i & a & s0 & r & _ & _ & -> & _) ].
  - exfalso.
    assert (Hc : exists d, single_cand pod (n, st, g) = Ok (Some (s, d))).
    { unfold single_cand. apply Z.ltb_ge in Hfree. rewrite Hfree, Hs.
      cbn [bind]. eauto. }
    destruct Hc as [d Hc].
    specialize (Hmax _ _ _ Hin Hc). simpl in Hmax. congruence.
  - simpl. eauto.
Qed.

(** C3 (as amended): on the single-accelerator path, when no visited
    accelerator sits exactly at the 1000 MB threshold, the decision names a
    free accelerator of a node with [free_gpus >= gpu_req] whose score is
    maximal among the free accelerators of these nodes, and it is the first
    of maximal score in visiting order: nodes in the order of the mapping,
    and for a node its accelerators in the order of its list.  A decision
    is returned whenever no scoring raises, the index and the free memory
    of the free accelerators have at most 4300 digits (so that the reason
    of a decision can be rendered) and a free accelerator scores above
    minus infinity. *)
Theorem single_gpu_argmax (gs : dict NodeGPUState.t) (gpu_req tp_size : Z) (pod : V1Pod) :
  tp_size <= 1 ->
  (forall n st g,
      In (n, st, g) (eligible_accelerators gs gpu_req) -> GPUInfo.memory_free g <> 1000) ->
  (forall r : SchedulingResult.t,
      find_best_placement gs gpu_req tp_size pod = Ok (Some r) ->
      exists (i : nat) (n : string) (st : NodeGPUState.t) (g : GPUInfo.t),
        nth_error (eligible_accelerators gs gpu_req) i = Some (n, st, g) /\
        is_free g = true /\
        score_single_gpu g st pod = Ok (SchedulingResult.score r) /\
        SchedulingResult.node r = n /\
        SchedulingResult.gpus r = [GPUInfo.gpu_index g] /\
        forall (j : nat) (n' : string) (st' : NodeGPUState.t) (g' : GPUInfo.t),
          nth_error (eligible_accelerators gs gpu_req) j = Some (n', st', g') ->
          is_free g' = true ->
          exists s' : float,
            score_single_gpu g' st' pod = Ok s' /\
            fltb (SchedulingResult.score r) s' = false /\
            ((j < i)%nat -> fleb (SchedulingResult.score r) s' = false))
  /\
  ((forall n st g,
       In (n, st, g) (eligible_accelerators gs gpu_req) -> is_free g = true ->
       exists s, score_single_gpu g st pod = Ok s) ->
   (forall n st g,
       In (n, st, g) (eligible_accelerators gs gpu_req) -> is_free g = true ->
       renders (GPUInfo.gpu_index g) /\ renders (GPUInfo.memory_free g)) ->
   (exists n st g s,
       In (n, st, g) (eligible_accelerators gs gpu_req) /\ is_free g = true /\
       score_single_gpu g st pod = Ok s /\ fltb neg_inf s = true) ->
   exists r, find_best_placement gs gpu_req tp_size pod = Ok (Some r)).
Proof.
  intros Htp Hedge.
  assert (Hfree : forall n st g,
             In (n, st, g) (eligible_accelerators gs gpu_req) ->
             (is_free g = true <-> 1000 <= GPUInfo.memory_free g)).
  { intros n st g Hin. specialize (Hedge n st g Hin). unfold is_free.
    rewrite Z.ltb_lt. lia. }
  unfold find_best_placement. apply Z.leb_le in Htp. rewrite Htp. split.
  - intros r H.
    destruct (single_scan_argmax _ _ _ _ H)
      as (i & n & st & g & Hi & Hg & Hs & Hn & Hgpus & Hbest).
    exists i, n, st, g. repeat split; auto.
    + apply (Hfree n st g); [ eapply nth_error_In; eauto | assumption ].
    + intros j n' st' g' Hj Hg'. apply (Hbest j n' st' g' Hj).
      apply (Hfree n' st' g'); [ eapply nth_error_In; eauto | assumption ].
  - intros Hall Hrender (n & st & g & s & Hin & Hg & Hs & Hgt).
    apply single_scan_some.
    + intros n' st' g' Hin' Hg'. apply (Hall n' st' g' Hin').
      now apply (Hfree n' st' g').
    + intros n' st' g' Hin' Hg'. apply (Hrender n' st' g' Hin').
      now apply (Hfree n' st' g').
    + exists n, st, g, s. repeat split; auto. now apply (Hfree n st g).
Qed.

Lemma single_gpu_argmax_witness :
  1 <= 1 /\
  (forall n st g,
      In (n, st, g) (eligible_accelerators alike_1_0 1) -> GPUInfo.memory_free g <> 1000) /\
  exists r : SchedulingResult.t,
    find_best_placement alike_1_0 1 1 (pending_pod (Some "1") None) = Ok (Some r) /\
    exists (i : nat) (n : string) (st : NodeGPUState.t) (g : GPUInfo.t),
      nth_error (eligible_accelerators alike_1_0 1) i = Some (n, st, g) /\
      is_free g = true /\
      score_single_gpu g st (pending_pod (Some "1") None) = Ok (SchedulingResult.score r) /\
      SchedulingResult.node r = n /\
      SchedulingResult.gpus r = [GPUInfo.gpu_index g].
Proof.
  assert (Hedge : forall n st g,
             In (n, st, g) (eligible_accelerators alike_1_0 1) ->
             GPUInfo.memory_free g <> 1000).
  { intros n st g [ E | [ E | [] ] ]; injection E as <- <- <-; discriminate. }
  split; [ lia | split; [ exact Hedge | ] ].
  destruct (single_gpu_argmax alike_1_0 1 1 (pending_pod (Some "1") None)
              (Z.le_refl 1) Hedge) as [Hmax Hsome].
  destruct Hsome as [r Hr].
  - intros n st g [ E | [ E | [] ] ] _; injection E as <- <- <-; eexists; reflexivity.
  - intros n st g [ E | [ E | [] ] ] _; injection E as <- <- <-;
      split; vm_compute; reflexivity.
  - exists "node-a", (state_of "node-a"
                        [h100 "node-a" 1 80896 5; h100 "node-a" 0 80896 5] false),
           (h100 "node-a" 1 80896 5).
    eexists. split; [ left; reflexivity | ]. split; [ reflexivity | ].
    split; reflexivity.
  - exists r. split; [ exact Hr | ].
    destruct (Hmax r Hr) as (i & n & st & g & Hi & Hg & Hs & Hn & Hgpus & _).
    exists i, n, st, g. auto.
Defined.

(** C3 (as stated): first, of two alike accelerators of a node listed in the
    order 1, 0 the engine picks index 1 although index 0 is free and scores
    the same; second, an accelerator with exactly 1000 MB free, which is not
    counted as free, is picked over the free accelerator of the node. *)
Lemma single_path_order_and_threshold :
  (exists r : SchedulingResult.t,
      find_best_placement alike_1_0 1 1 (pending_pod (Some "1") None) = Ok (Some r) /\
      SchedulingResult.gpus r = [1] /\
      In ("node-a", state_of "node-a" [h100 "node-a" 1 80896 5; h100 "node-a" 0 80896 5] false,
          h100 "node-a" 0 80896 5) (eligible_accelerators alike_1_0 1) /\
      is_free (h100 "node-a" 0 80896 5) = true /\
      score_single_gpu (h100 "node-a" 0 80896 5)
        (state_of "node-a" [h100 "node-a" 1 80896 5; h100 "node-a" 0 80896 5] false)
        (pending_pod (Some "1") None) = Ok (SchedulingResult.score r))
  /\
  (exists r : SchedulingResult.t,
      find_best_placement at_threshold 1 1 (pending_pod (Some "1") None) = Ok (Some r) /\
      SchedulingResult.gpus r = [0] /\
      is_free (h100 "node-a" 0 1000 0) = false /\
      is_free (h100 "node-a" 1 2000 100) = true).
Proof.
  split.
  - eexists. split; [ vm_compute; reflexivity | ].
    split; [ reflexivity | ]. split; [ right; left; reflexivity | ].
    split; reflexivity.
  - eexists. split; [ vm_compute; reflexivity | ]. repeat split.
Qed.

(* ================================================================== *)
(** * Slices and the stable sort by index *)

Lemma py_slice_window {A : Type} (l : list A) (i c : Z) :
  0 <= i -> 0 <= c -> i + c <= Z.of_nat (List.length l) ->
  py_slice l i (i + c) = firstn (Z.to_nat c) (skipn (Z.to_nat i) l).
Proof.
  intros Hi Hc Hlen. unfold py_slice, clamp_index.
  destruct (Z.ltb_spec i 0); [ lia | ].
  destruct (Z.ltb_spec (i + c) 0); [ lia | ].
  rewrite !Z.min_l by lia. f_equal. f_equal. lia.
Qed.

Lemma py_slice_prefix {A : Type} (l : list A) (c : Z) :
  0 <= c -> c <= Z.of_nat (List.length l) ->
  py_slice l 0 c = firstn (Z.to_nat c) l.
Proof.
  intros Hc Hlen. change c with (0 + c) at 1.
  rewrite py_slice_window by lia. reflexivity.
Qed.

Lemma insert_by_index_perm (g : GPUInfo.t) (l : list GPUInfo.t) :
  Permutation (g :: l) (insert_by_index g l).
Proof.
  induction l as [ | h t IH ]; simpl; [ apply Permutation_refl | ].
  destruct (GPUInfo.gpu_index g <=? GPUInfo.gpu_index h); [ apply Permutation_refl | ].
  eapply Permutation_trans; [ apply perm_swap | ]. now apply perm_skip.
Qed.

Lemma sorted_by_index_perm (l : list GPUInfo.t) : Permutation l (sorted_by_index l).
Proof.
  induction l as [ | g l IH ]; simpl; [ constructor | ].
  eapply Permutation_trans; [ apply perm_skip, IH | apply insert_by_index_perm ].
Qed.

Lemma insert_by_index_sorted (g : GPUInfo.t) (l : list GPUInfo.t) :
  index_ordered l -> index_ordered (insert_by_index g l).
Proof.
  unfold index_ordered. induction 1 as [ | h t Hs IH Hall ]; simpl.
  - repeat constructor.
  - destruct (Z.leb_spec (GPUInfo.gpu_index g) (GPUInfo.gpu_index h)).
    + constructor; [ now constructor | ].
      constructor; [ assumption | ].
      eapply Forall_impl; [ | exact Hall ]. simpl. intros; lia.
    + constructor; [ assumption | ].
      eapply Permutation_Forall; [ apply insert_by_index_perm | ].
      constructor; [ lia | assumption ].
Qed.

Lemma sorted_by_index_sorted (l : list GPUInfo.t) : index_ordered (sorted_by_index l).
Proof.
  induction l as [ | g l IH ]; simpl; [ constructor | ].
  now apply insert_by_index_sorted.
Qed.

(** Sorting a list that is already in index order changes nothing. *)
Lemma sorted_by_index_id (l : list GPUInfo.t) : index_ordered l -> sorted_by_index l = l.
Proof.
  unfold index_ordered. induction 1 as [ | h t Hs IH Hall ]; simpl; [ reflexivity | ].
  rewrite IH. destruct t as [ | h' t ]; simpl; [ reflexivity | ].
  inversion Hall as [ | ? ? Hle _ ]; subst.
  apply Z.leb_le in Hle. now rewrite Hle.
Qed.

Lemma filter_index_ordered (f : GPUInfo.t -> bool) (l : list GPUInfo.t) :
  index_ordered l -> index_ordered (filter f l).
Proof.
  unfold index_ordered. induction 1 as [ | h t Hs IH Hall ]; simpl; [ constructor | ].
  destruct (f h); [ | assumption ].
  constructor; [ assumption | ].
  apply Forall_forall. intros x Hx. apply filter_In in Hx.
  rewrite Forall_forall in Hall. apply Hall. tauto.
Qed.

(* ================================================================== *)
(** * Selection without interconnect *)

(** C8 (as amended): without interconnect, or for a group of one, the
    selected accelerators are the first [count] free ones in the order of the
    node's accelerator list, and the score is the plain sum of their scores;
    they are the first [count] free ones in ascending index order when the
    list is held in that order. *)
Theorem first_free_in_list_order (state : NodeGPUState.t) (count : Z) (pod : V1Pod) :
  1 <= count ->
  NodeGPUState.nvlink_enabled state = false \/ count = 1 ->
  count <= Z.of_nat (List.length (filter is_free (NodeGPUState.gpus state))) ->
  select_gpu_set state count pod
  = (scores <- mapM (fun g => score_single_gpu g state pod)
                 (firstn (Z.to_nat count) (filter is_free (NodeGPUState.gpus state))) ;;
     Ok (Some (map GPUInfo.gpu_index
                 (firstn (Z.to_nat count) (filter is_free (NodeGPUState.gpus state)))),
         py_sum scores))
  /\
  (index_ordered (NodeGPUState.gpus state) ->
   firstn (Z.to_nat count) (filter is_free (NodeGPUState.gpus state))
   = firstn (Z.to_nat count)
       (sorted_by_index (filter is_free (NodeGPUState.gpus state)))).
Proof.
  intros Hc Hpath Hlen. split.
  - unfold select_gpu_set.
    destruct (Z.ltb_spec (Z.of_nat (List.length (filter is_free (NodeGPUState.gpus state))))
                count); [ lia | ].
    assert (Hsel : negb (NodeGPUState.nvlink_enabled state) || (count =? 1) = true).
    { destruct Hpath as [ -> | -> ]; [ reflexivity | apply orb_true_r ]. }
    rewrite Hsel. rewrite py_slice_prefix by lia. reflexivity.
  - intros Hord. rewrite sorted_by_index_id; [ reflexivity | ].
    now apply filter_index_ordered.
Qed.

Lemma first_free_in_list_order_witness :
  1 <= 2 /\
  (NodeGPUState.nvlink_enabled listed_2_0_1 = false \/ 2 = 1) /\
  2 <= Z.of_nat (List.length (filter is_free (NodeGPUState.gpus listed_2_0_1))) /\
  select_gpu_set listed_2_0_1 2 (pending_pod (Some "2") None)
  = (scores <- mapM (fun g => score_single_gpu g listed_2_0_1 (pending_pod (Some "2") None))
                 (firstn (Z.to_nat 2) (filter is_free (NodeGPUState.gpus listed_2_0_1))) ;;
     Ok (Some (map GPUInfo.gpu_index
                 (firstn (Z.to_nat 2) (filter is_free (NodeGPUState.gpus listed_2_0_1)))),
         py_sum scores)) /\
  (* the accelerators 2 and 0, 107.875 each: 215.75 *)
  select_gpu_set listed_2_0_1 2 (pending_pod (Some "2") None)
  = Ok (Some [2; 0], S754_finite false 7591028278165504 (-45)).
Proof.
  assert (H1 : 1 <= 2) by lia.
  assert (H2 : NodeGPUState.nvlink_enabled listed_2_0_1 = false \/ 2 = 1)
    by (left; reflexivity).
  assert (H3 : 2 <= Z.of_nat (List.length (filter is_free (NodeGPUState.gpus listed_2_0_1))))
    by (vm_compute; discriminate).
  split; [ exact H1 | split; [ exact H2 | split; [ exact H3 | ] ] ].
  pose proof (proj1 (first_free_in_list_order listed_2_0_1 2 (pending_pod (Some "2") None)
                       H1 H2 H3)) as Hsel.
  split; [ exact Hsel | ].
  rewrite Hsel. vm_compute. reflexivity.
Defined.

(** C8 (as stated): on a node that lists its accelerators in the order
    2, 0, 1 the selection for a group of two is [[2; 0]], not the first two
    in ascending index order, [[0; 1]]. *)
Lemma selection_follows_list_order :
  exists (set : list Z) (s : float),
    select_gpu_set listed_2_0_1 2 (pending_pod (Some "2") None) = Ok (Some set, s) /\
    set = [2; 0] /\
    map GPUInfo.gpu_index
      (firstn 2 (sorted_by_index (filter is_free (NodeGPUState.gpus listed_2_0_1))))
    = [0; 1].
Proof.
  eexists. eexists. split; [ vm_compute; reflexivity | ]. split; reflexivity.
Qed.

(* ================================================================== *)
(** * Runs of consecutive indices in a sorted list *)

Lemma index_run_length (n : nat) : forall k, List.length (index_run k n) = n.
Proof.
  induction n as [ | n IH ]; intros k; simpl; [ reflexivity | ]. now rewrite IH.
Qed.

Lemma in_index_run (n : nat) : forall k x,
  In x (index_run k n) <-> k <= x < k + Z.of_nat n.
Proof.
  induction n as [ | n IH ]; intros k x; simpl.
  - split; [ intros [] | lia ].
  - rewrite IH. lia.
Qed.

Lemma is_contiguous_run (w : list GPUInfo.t) : forall g,
  is_contiguous (g :: w) = true ->
  map GPUInfo.gpu_index (g :: w) = index_run (GPUInfo.gpu_index g) (S (List.length w)).
Proof.
  induction w as [ | h w IH ]; intros g H; [ reflexivity | ].
  change (is_contiguous (g :: h :: w))
    with ((GPUInfo.gpu_index g + 1 =? GPUInfo.gpu_index h) && is_contiguous (h :: w)) in H.
  apply andb_true_iff in H. destruct H as [Heq Hc]. apply Z.eqb_eq in Heq.
  change (map GPUInfo.gpu_index (g :: h :: w))
    with (GPUInfo.gpu_index g :: map GPUInfo.gpu_index (h :: w)).
  rewrite (IH h Hc). simpl. now rewrite Heq.
Qed.

Lemma run_is_contiguous (w : list GPUInfo.t) : forall k,
  map GPUInfo.gpu_index w = index_run k (List.length w) ->
  is_contiguous w = true.
Proof.
  induction w as [ | g w IH ]; intros k H; [ reflexivity | ].
  destruct w as [ | h w ]; [ reflexivity | ].
  simpl in H. injection H as Hg Hh Hw.
  change (is_contiguous (g :: h :: w))
    with ((GPUInfo.gpu_index g + 1 =? GPUInfo.gpu_index h) && is_contiguous (h :: w)).
  apply andb_true_iff. split; [ apply Z.eqb_eq; lia | ].
  apply (IH (k + 1)). simpl. now rewrite Hh, Hw.
Qed.

Lemma sorted_app_inv (l1 l2 : list Z) :
  StronglySorted Z.lt (l1 ++ l2) ->
  StronglySorted Z.lt l2 /\ forall x y, In x l1 -> In y l2 -> x < y.
Proof.
  induction l1 as [ | a l1 IH ]; simpl; intros H.
  - split; [ assumption | intros x y [] ].
  - inversion H as [ | ? ? Hs Hall ]; subst.
    destruct (IH Hs) as [Hs2 Hlt]. split; [ assumption | ].
    intros x y [ <- | Hx ] Hy; [ | auto ].
    rewrite Forall_forall in Hall. apply Hall. apply in_or_app. now right.
Qed.

(** In a strictly increasing list bounded below by [k], consecutive values
    from [k] on, if present, are its first elements. *)
Lemma run_prefix (n : nat) : forall (k : Z) (rest : list Z),
  StronglySorted Z.lt rest ->
  (forall x, In x rest -> k <= x) ->
  (forall d, (d < n)%nat -> In (k + Z.of_nat d) rest) ->
  exists post, rest = index_run k n ++ post.
Proof.
  induction n as [ | n IH ]; intros k rest Hs Hlow Hrun; [ now exists rest | ].
  destruct rest as [ | h t ]; [ destruct (Hrun 0%nat); lia | ].
  inversion Hs as [ | ? ? Hst Hall ]; subst. rewrite Forall_forall in Hall.
  assert (Hh : h = k).
  { destruct (Hrun 0%nat) as [ E | Hin ]; [ lia | lia | ].
    rewrite Z.add_0_r in Hin. specialize (Hall _ Hin).
    specialize (Hlow h (or_introl eq_refl)). lia. }
  subst h.
  destruct (IH (k + 1) t Hst) as [post ->].
  - intros x Hx. specialize (Hall _ Hx). lia.
  - intros d Hd. destruct (Hrun (S d)) as [ E | Hin ]; [ lia | lia | ].
    replace (k + 1 + Z.of_nat d) with (k + Z.of_nat (S d)) by lia. exact Hin.
  - now exists post.
Qed.

Lemma run_split (n : nat) (k : Z) (l : list Z) :
  (0 < n)%nat ->
  StronglySorted Z.lt l ->
  (forall d, (d < n)%nat -> In (k + Z.of_nat d) l) ->
  exists pre post, l = pre ++ index_run k n ++ post.
Proof.
  intros Hn Hs Hrun.
  assert (Hk : In k l).
  { specialize (Hrun 0%nat Hn). now rewrite Z.add_0_r in Hrun. }
  destruct (in_split _ _ Hk) as (pre & rest & ->).
  destruct (sorted_app_inv _ _ Hs) as [Hs2 Hlt].
  destruct (run_prefix n k (k :: rest) Hs2) as [post Hpost].
  - intros x [ <- | Hx ]; [ lia | ].
    inversion Hs2 as [ | ? ? _ Hall ]; subst. rewrite Forall_forall in Hall.
    specialize (Hall _ Hx). lia.
  - intros d Hd. specialize (Hrun d Hd). apply in_app_or in Hrun.
    destruct Hrun as [ Hpre | Hin ]; [ | assumption ].
    specialize (Hlt _ k Hpre (or_introl eq_refl)). lia.
  - exists pre, post. now rewrite Hpost.
Qed.

Lemma sorted_nth_mono (l : list Z) :
  StronglySorted Z.lt l ->
  forall i j, (i <= j < List.length l)%nat -> nth i l 0 <= nth j l 0.
Proof.
  induction 1 as [ | a l Hs IH Hall ]; intros i j Hij; simpl in *; [ lia | ].
  destruct i as [ | i ], j as [ | j ]; try lia.
  - rewrite Forall_forall in Hall.
    assert (a < nth j l 0); [ apply Hall, nth_In; lia | lia ].
  - apply IH. lia.
Qed.

Lemma nth_skipn_head {A : Type} (d x : A) (i : nat) : forall (l t : list A),
  skipn i l = x :: t -> nth i l d = x.
Proof.
  induction i as [ | i IH ]; intros l t H; destruct l as [ | a l ]; simpl in *;
    try discriminate.
  - now injection H as -> _.
  - eapply IH; eauto.
Qed.

Lemma in_firstn_skipn {A : Type} (x : A) (n i : nat) (l : list A) :
  In x (firstn n (skipn i l)) -> In x l.
Proof.
  intros H. rewrite <- (firstn_skipn i l). apply in_or_app. right.
  rewrite <- (firstn_skipn n (skipn i l)). apply in_or_app. now left.
Qed.

Lemma index_ordered_strict (l : list GPUInfo.t) :
  index_ordered l ->
  NoDup (map GPUInfo.gpu_index l) ->
  StronglySorted Z.lt (map GPUInfo.gpu_index l).
Proof.
  unfold index_ordered. induction 1 as [ | a l Hs IH Hall ]; simpl; intros Hnd;
    [ constructor | ].
  inversion Hnd as [ | ? ? Hnotin Hnd' ]; subst.
  constructor; [ auto | ].
  rewrite Forall_forall in *. intros x Hx.
  apply in_map_iff in Hx. destruct Hx as (g & <- & Hg).
  specialize (Hall _ Hg).
  assert (GPUInfo.gpu_index a <> GPUInfo.gpu_index g).
  { intros E. apply Hnotin. rewrite E. now apply in_map. }
  lia.
Qed.

(* ================================================================== *)
(** * The search for a contiguous window *)

Lemma first_contiguous_find (gpus_by_index : list GPUInfo.t) (count : Z) (starts : list Z) :
  first_contiguous gpus_by_index count starts
  = option_map (fun i => py_slice gpus_by_index i (i + count))
      (find (fun i => is_contiguous (py_slice gpus_by_index i (i + count))) starts).
Proof.
  induction starts as [ | i starts IH ]; simpl; [ reflexivity | ].
  destruct (is_contiguous (py_slice gpus_by_index i (i + count))); [ reflexivity | exact IH ].
Qed.

Lemma find_range_first (f : Z -> bool) (m : nat) : forall (a : nat) (i : Z),
  find f (map Z.of_nat (seq a m)) = Some i ->
  exists i_n : nat,
    i = Z.of_nat i_n /\ (a <= i_n < a + m)%nat /\ f i = true /\
    forall j : nat, (a <= j < i_n)%nat -> f (Z.of_nat j) = false.
Proof.
  induction m as [ | m IH ]; intros a i H; simpl in H; [ discriminate | ].
  destruct (f (Z.of_nat a)) eqn:Ha.
  - injection H as <-. exists a. repeat split; auto; lia.
  - destruct (IH _ _ H) as (i_n & -> & Hr & Hf & Hfirst).
    exists i_n. repeat split; auto; try lia.
    intros j Hj. destruct (Nat.eq_dec j a) as [ -> | Hne ]; [ assumption | ].
    apply Hfirst. lia.
Qed.

Lemma find_range_none (f : Z -> bool) (m a : nat) :
  find f (map Z.of_nat (seq a m)) = None ->
  forall j : nat, (a <= j < a + m)%nat -> f (Z.of_nat j) = false.
Proof.
  intros H j Hj. apply (find_none _ _ H). apply in_map. apply in_seq. lia.
Qed.

Section Windows.

Variable free : list GPUInfo.t.
Variable count : Z.

Hypothesis Hcount : 1 <= count.
Hypothesis Hnd : NoDup (map GPUInfo.gpu_index free).
Hypothesis Hlen : count <= Z.of_nat (List.length free).

Local Abbreviation by_index := (sorted_by_index free).
Local Abbreviation n := (Z.to_nat count).
Local Abbreviation window i := (firstn n (skipn i by_index)).
Local Abbreviation idx := GPUInfo.gpu_index.

Lemma by_index_length : List.length by_index = List.length free.
Proof. symmetry. apply Permutation_length, sorted_by_index_perm. Qed.

Lemma by_index_strict : StronglySorted Z.lt (map idx by_index).
Proof.
  apply index_ordered_strict; [ apply sorted_by_index_sorted | ].
  eapply Permutation_NoDup; [ | exact Hnd ].
  apply Permutation_map, sorted_by_index_perm.
Qed.

Lemma window_slice (i : nat) :
  (i + n <= List.length by_index)%nat ->
  py_slice by_index (Z.of_nat i) (Z.of_nat i + count) = window i.
Proof.
  intros Hi. rewrite py_slice_window by lia. now rewrite Nat2Z.id.
Qed.

Lemma window_length (i : nat) :
  (i + n <= List.length by_index)%nat -> List.length (window i) = n.
Proof.
  intros Hi. rewrite length_firstn, length_skipn. lia.
Qed.

Lemma window_incl (i : nat) : incl (window i) free.
Proof.
  intros g Hg. apply in_firstn_skipn in Hg.
  eapply Permutation_in; [ apply Permutation_sym, sorted_by_index_perm | exact Hg ].
Qed.

(** A run among the free accelerators is a window of the sorted list. *)
Lemma run_window (k : Z) :
  has_run free k count ->
  exists i : nat,
    (i + n <= List.length by_index)%nat /\
    map idx (window i) = index_run k n /\
    nth i (map idx by_index) 0 = k.
Proof.
  intros Hrun.
  destruct (run_split n k (map idx by_index)) as (pre & post & Hsplit).
  - lia.
  - apply by_index_strict.
  - intros d Hd. destruct (Hrun (Z.of_nat d)) as (g & Hg & <-); [ lia | ].
    apply in_map.
    eapply Permutation_in; [ apply sorted_by_index_perm | exact Hg ].
  - exists (List.length pre).
    assert (Hskip : skipn (List.length pre) (map idx by_index) = index_run k n ++ post).
    { rewrite Hsplit. now rewrite skipn_app, skipn_all, Nat.sub_diag. }
    repeat split.
    + apply (f_equal (@List.length Z)) in Hsplit.
      rewrite length_map, !length_app, index_run_length in Hsplit. lia.
    + rewrite <- firstn_map, <- skipn_map, Hskip.
      rewrite firstn_app, index_run_length, Nat.sub_diag. simpl.
      rewrite app_nil_r. apply firstn_all2. rewrite index_run_length. lia.
    + destruct n as [ | n' ] eqn:En; [ lia | ].
      eapply nth_skipn_head. rewrite Hskip. simpl. reflexivity.
Qed.

(** A contiguous window is a run among the free accelerators. *)
Lemma window_run (i : nat) :
  (i + n <= List.length by_index)%nat ->
  is_contiguous (window i) = true ->
  exists (g : GPUInfo.t) (w : list GPUInfo.t),
    window i = g :: w /\
    map idx (window i) = index_run (idx g) n /\
    has_run free (idx g) count /\
    nth i (map idx by_index) 0 = idx g.
Proof.
  intros Hi Hc. pose proof (window_length i Hi) as Hl.
  destruct (window i) as [ | g w ] eqn:Hw; [ simpl in Hl; lia | ].
  exists g, w. split; [ reflexivity | ].
  assert (Hmap : map idx (g :: w) = index_run (idx g) n).
  { rewrite (is_contiguous_run w g Hc). f_equal. simpl in Hl. lia. }
  split; [ exact Hmap | split ].
  - intros d Hd.
    assert (Hin : In (idx g + d) (map idx (g :: w))).
    { rewrite Hmap. apply in_index_run. lia. }
    apply in_map_iff in Hin. destruct Hin as (g' & Hg' & Hin).
    exists g'. split; [ | assumption ].
    apply (window_incl i). now rewrite Hw.
  - eapply nth_skipn_head with (t := map idx (skipn (S i) by_index)).
    rewrite skipn_map.
    assert (Hsk : skipn i by_index = g :: skipn (S i) by_index).
    { destruct (skipn i by_index) as [ | g0 t ] eqn:E.
      - rewrite firstn_nil in Hw. discriminate.
      - destruct n as [ | n' ]; simpl in Hw; [ discriminate | ].
        injection Hw as -> _. f_equal.
        change (S i) with (1 + i)%nat. rewrite <- skipn_skipn, E. reflexivity. }
    rewrite Hsk. reflexivity.
Qed.

Local Abbreviation starts :=
  (py_range (Z.of_nat (List.length by_index) - count + 1)).
Local Abbreviation contiguous_at :=
  (fun i => is_contiguous (py_slice by_index i (i + count))).

Lemma starts_range :
  starts = map Z.of_nat (seq 0 (List.length by_index - n + 1)).
Proof.
  unfold py_range. do 2 f_equal. rewrite by_index_length. lia.
Qed.

(** With a run among the free accelerators, the search returns the run
    whose first index is least. *)
Lemma find_contiguous_first_run :
  (exists k, has_run free k count) ->
  exists (k : Z) (g : GPUInfo.t) (w : list GPUInfo.t),
    find_contiguous_gpus free count = Some (g :: w) /\
    incl (g :: w) free /\
    map idx (g :: w) = index_run k n /\
    has_run free k count /\
    forall k', has_run free k' count -> k <= k'.
Proof.
  intros (k0 & Hrun0).
  pose proof by_index_length as Hbl.
  destruct (run_window k0 Hrun0) as (i0 & Hi0 & Hmap0 & _).
  assert (Hc0 : contiguous_at (Z.of_nat i0) = true).
  { rewrite window_slice by assumption.
    apply (run_is_contiguous _ k0). now rewrite window_length. }
  unfold find_contiguous_gpus. rewrite first_contiguous_find, starts_range.
  destruct (find contiguous_at (map Z.of_nat (seq 0 (List.length by_index - n + 1))))
    as [ i | ] eqn:Hfind.
  - destruct (find_range_first _ _ _ _ Hfind) as (i_n & -> & Hr & Hc & Hfirst).
    assert (Hi : (i_n + n <= List.length by_index)%nat) by lia.
    simpl. rewrite window_slice in * by assumption.
    destruct (window_run i_n Hi Hc) as (g & w & Hw & Hmap & Hrun & Hnth).
    exists (idx g), g, w. rewrite Hw in *.
    repeat split; auto.
    + rewrite <- Hw. apply window_incl.
    + intros k' Hrun'.
      destruct (run_window k' Hrun') as (i' & Hi' & Hmap' & Hnth').
      assert (Hc' : contiguous_at (Z.of_nat i') = true).
      { rewrite window_slice by assumption.
        apply (run_is_contiguous _ k'). now rewrite window_length. }
      assert (Hle : (i_n <= i')%nat).
      { destruct (Nat.le_gt_cases i_n i') as [ | Hgt ]; [ assumption | ].
        assert (Hf := Hfirst i' ltac:(lia)). cbv beta in Hf, Hc'. congruence. }
      rewrite <- Hnth, <- Hnth'.
      apply sorted_nth_mono; [ apply by_index_strict | ].
      rewrite length_map. lia.
  - exfalso. assert (Hf := find_range_none _ _ _ Hfind i0 ltac:(lia)).
    cbv beta in Hf, Hc0. congruence.
Qed.

(** Without a run, the search finds nothing. *)
Lemma find_contiguous_no_run :
  (forall k, ~ has_run free k count) ->
  find_contiguous_gpus free count = None.
Proof.
  intros Hno. pose proof by_index_length as Hbl.
  unfold find_contiguous_gpus. rewrite first_contiguous_find, starts_range.
  destruct (find contiguous_at (map Z.of_nat (seq 0 (List.length by_index - n + 1))))
    as [ i | ] eqn:Hfind; [ | reflexivity ].
  exfalso.
  destruct (find_range_first _ _ _ _ Hfind) as (i_n & -> & Hr & Hc & _).
  assert (Hi : (i_n + n <= List.length by_index)%nat) by lia.
  rewrite window_slice in Hc by assumption.
  destruct (window_run i_n Hi Hc) as (g & w & _ & _ & Hrun & _).
  exact (Hno _ Hrun).
Qed.

End Windows.

(* ================================================================== *)
(** * Selection with interconnect *)

(** C2: on an interconnect node, for a group of more than one, with
    accelerator indices that are distinct and at least [count] accelerators
    free: if the free accelerators hold a run of [count] consecutive
    indices, the selection is the run whose first index is least and the
    score is the sum of its accelerators' scores, added from the left
    starting at 0.0, times 1.5 (the binary64 number
    6755399441055744 * 2^-52); if they hold no such run, the selection is
    the first [count] free accelerators of the node's list and the score is
    the plain sum. *)
Theorem interconnect_prefers_first_run (state : NodeGPUState.t) (count : Z) (pod : V1Pod) :
  1 < count ->
  NodeGPUState.nvlink_enabled state = true ->
  NoDup (map GPUInfo.gpu_index (filter is_free (NodeGPUState.gpus state))) ->
  count <= Z.of_nat (List.length (filter is_free (NodeGPUState.gpus state))) ->
  ((exists k, has_run (filter is_free (NodeGPUState.gpus state)) k count) ->
   exists (k : Z) (selected : list GPUInfo.t),
     has_run (filter is_free (NodeGPUState.gpus state)) k count /\
     (forall k', has_run (filter is_free (NodeGPUState.gpus state)) k' count -> k <= k') /\
     incl selected (filter is_free (NodeGPUState.gpus state)) /\
     map GPUInfo.gpu_index selected = index_run k (Z.to_nat count) /\
     select_gpu_set state count pod
     = (scores <- mapM (fun g => score_single_gpu g state pod) selected ;;
        Ok (Some (index_run k (Z.to_nat count)),
            fmul (fold_left fadd scores (S754_zero false))
                 (S754_finite false 6755399441055744 (-52)))))
  /\
  ((forall k, ~ has_run (filter is_free (NodeGPUState.gpus state)) k count) ->
   select_gpu_set state count pod
   = (scores <- mapM (fun g => score_single_gpu g state pod)
                  (firstn (Z.to_nat count) (filter is_free (NodeGPUState.gpus state))) ;;
      Ok (Some (map GPUInfo.gpu_index
                  (firstn (Z.to_nat count) (filter is_free (NodeGPUState.gpus state)))),
          fold_left fadd scores (S754_zero false)))).
Proof.
  intros Hcount Hnv Hnd Hlen.
  assert (Hge : 1 <= count) by lia.
  assert (Hsel : select_gpu_set state count pod
                 = match find_contiguous_gpus (filter is_free (NodeGPUState.gpus state))
                           count with
                   | Some ((_ :: _) as selected) => scored_set state pod true selected
                   | _ => scored_set state pod false
                            (py_slice (filter is_free (NodeGPUState.gpus state)) 0 count)
                   end).
  { unfold select_gpu_set.
    destruct (Z.ltb_spec (Z.of_nat (List.length (filter is_free (NodeGPUState.gpus state))))
                count); [ lia | ].
    rewrite Hnv. destruct (Z.eqb_spec count 1); [ lia | ]. reflexivity. }
  split.
  - intros Hex.
    destruct (find_contiguous_first_run _ _ Hge Hnd Hlen Hex)
      as (k & g & w & Hfind & Hincl & Hmap & Hrun & Hmin).
    exists k, (g :: w). repeat split; auto.
    rewrite Hsel, Hfind. unfold scored_set. now rewrite Hmap.
  - intros Hno.
    rewrite Hsel, (find_contiguous_no_run _ _ Hge Hlen Hno).
    rewrite py_slice_prefix by lia. reflexivity.
Qed.

Lemma interconnect_prefers_first_run_witness :
  NodeGPUState.nvlink_enabled scattered = true /\
  NoDup (map GPUInfo.gpu_index (filter is_free (NodeGPUState.gpus scattered))) /\
  map GPUInfo.gpu_index (filter is_free (NodeGPUState.gpus scattered)) = [5; 1; 2; 7; 3] /\
  (* a group of three: the run 1, 2, 3 with the bonus,
     530.4375 = 1.5 * (3 * 117.875) *)
  (1 < 3 /\
   3 <= Z.of_nat (List.length (filter is_free (NodeGPUState.gpus scattered))) /\
   has_run (filter is_free (NodeGPUState.gpus scattered)) 1 3 /\
   select_gpu_set scattered 3 (pending_pod (Some "3") None)
   = Ok (Some [1; 2; 3], S754_finite false 4665777592467456 (-43))) /\
  (* a group of four: no run, the first four of the list without bonus,
     471.5 = 4 * 117.875 *)
  (1 < 4 /\
   4 <= Z.of_nat (List.length (filter is_free (NodeGPUState.gpus scattered))) /\
   (forall k, ~ has_run (filter is_free (NodeGPUState.gpus scattered)) k 4) /\
   select_gpu_set scattered 4 (pending_pod (Some "4") None)
   = Ok (Some [5; 1; 2; 7], S754_finite false 8294715719942144 (-44))).
Proof.
  assert (H2 : NodeGPUState.nvlink_enabled scattered = true) by reflexivity.
  assert (H3 : NoDup (map GPUInfo.gpu_index (filter is_free (NodeGPUState.gpus scattered)))).
  { simpl. repeat constructor; simpl; intuition discriminate. }
  assert (Hmem : forall g k,
             In g (filter is_free (NodeGPUState.gpus scattered)) ->
             GPUInfo.gpu_index g = k ->
             (k = 5 \/ k = 1 \/ k = 2 \/ k = 7 \/ k = 3) /\ g = h100 "node-a" k 80896 5).
  { intros g k Hin <-. simpl in Hin.
    destruct Hin as [ <- | [ <- | [ <- | [ <- | [ <- | [] ] ] ] ] ];
      (split; [ simpl; tauto | reflexivity ]). }
  split; [ exact H2 | ]. split; [ exact H3 | ]. split; [ reflexivity | ]. split.
  - assert (H1 : 1 < 3) by lia.
    assert (H4 : 3 <= Z.of_nat (List.length (filter is_free (NodeGPUState.gpus scattered))))
      by (vm_compute; discriminate).
    assert (H5 : has_run (filter is_free (NodeGPUState.gpus scattered)) 1 3).
    { intros d Hd. assert (Hcases : d = 0 \/ d = 1 \/ d = 2) by lia.
      destruct Hcases as [ -> | [ -> | -> ] ].
      - exists (h100 "node-a" 1 80896 5). split; [ simpl; tauto | reflexivity ].
      - exists (h100 "node-a" 2 80896 5). split; [ simpl; tauto | reflexivity ].
      - exists (h100 "node-a" 3 80896 5). split; [ simpl; tauto | reflexivity ]. }
    split; [ exact H1 | ]. split; [ exact H4 | ]. split; [ exact H5 | ].
    destruct (proj1 (interconnect_prefers_first_run scattered 3 (pending_pod (Some "3") None)
                       H1 H2 H3 H4) (ex_intro _ 1 H5))
      as (k & selected & Hrun & Hmin & Hincl & Hmap & Hsel).
    assert (Hk : k = 1).
    { pose proof (Hmin 1 H5) as Hle.
      destruct (Hrun 0 ltac:(lia)) as (g0 & Hin0 & E0).
      destruct (Hmem g0 _ Hin0 E0) as [Hcases _]. lia. }
    subst k.
    destruct selected as [ | a [ | b [ | c [ | x selected ] ] ] ]; try discriminate Hmap.
    simpl in Hmap. injection Hmap as Ea Eb Ec.
    destruct (Hmem a _ (Hincl a ltac:(simpl; tauto)) Ea) as [_ ->].
    destruct (Hmem b _ (Hincl b ltac:(simpl; tauto)) Eb) as [_ ->].
    destruct (Hmem c _ (Hincl c ltac:(simpl; tauto)) Ec) as [_ ->].
    rewrite Hsel. vm_compute. reflexivity.
  - assert (H1 : 1 < 4) by lia.
    assert (H4 : 4 <= Z.of_nat (List.length (filter is_free (NodeGPUState.gpus scattered))))
      by (vm_compute; discriminate).
    assert (Hno : forall k, ~ has_run (filter is_free (NodeGPUState.gpus scattered)) k 4).
    { intros k Hrun.
      destruct (Hrun 0 ltac:(lia)) as (g0 & Hin0 & E0).
      destruct (Hrun 1 ltac:(lia)) as (g1 & Hin1 & E1).
      destruct (Hrun 2 ltac:(lia)) as (g2 & Hin2 & E2).
      destruct (Hrun 3 ltac:(lia)) as (g3 & Hin3 & E3).
      destruct (Hmem g0 _ Hin0 E0) as [C0 _].
      destruct (Hmem g1 _ Hin1 E1) as [C1 _].
      destruct (Hmem g2 _ Hin2 E2) as [C2 _].
      destruct (Hmem g3 _ Hin3 E3) as [C3 _].
      lia. }
    split; [ exact H1 | ]. split; [ exact H4 | ]. split; [ exact Hno | ].
    rewrite (proj2 (interconnect_prefers_first_run scattered 4 (pending_pod (Some "4") None)
                      H1 H2 H3 H4) Hno).
    vm_compute. reflexivity.
Defined.

(** On [scattered] a group of three gets the run 1, 2, 3 with the bonus
    (530.4375 = 1.5 * 3 * 117.875); a group of four has no run and gets the
    first four free accelerators of the list without bonus (471.5). *)
Example select_gpu_set_scattered :
  select_gpu_set scattered 3 (pending_pod (Some "3") None)
  = Ok (Some [1; 2; 3], S754_finite false 4665777592467456 (-43)) /\
  select_gpu_set scattered 4 (pending_pod (Some "4") None)
  = Ok (Some [5; 1; 2; 7], S754_finite false 8294715719942144 (-44)).
Proof.
  split; vm_compute; reflexivity.
Qed.

(* ================================================================== *)
(** * Further properties of the cache *)

Lemma dict_set_key_in {V : Type} (d : dict V) (k k' : string) (v : V) :
  In k' (map fst (dict_set k v d)) <-> k' = k \/ In k' (map fst d).
Proof.
  induction d as [ | [k0 v0] d IH ]; simpl.
  - intuition.
  - destruct (String.eqb_spec k k0) as [ -> | Hk ]; simpl.
    + intuition.
    + rewrite IH. intuition.
Qed.

Lemma dict_set_nodup {V : Type} (d : dict V) (k : string) (v : V) :
  NoDup (map fst d) -> NoDup (map fst (dict_set k v d)).
Proof.
  induction d as [ | [k0 v0] d IH ]; simpl; intros Hnd.
  - constructor; [ intros [] | constructor ].
  - inversion Hnd as [ | ? ? Hnotin Hnd' ]; subst.
    destruct (String.eqb_spec k k0) as [ -> | Hk ]; simpl.
    + now constructor.
    + constructor; [ | auto ].
      rewrite dict_set_key_in. intros [ E | Hin ]; [ congruence | contradiction ].
Qed.

Lemma dict_set_forall {V : Type} (P : string * V -> Prop) (d : dict V) (k : string) (v : V) :
  Forall P d -> P (k, v) -> Forall P (dict_set k v d).
Proof.
  induction 1 as [ | [k0 v0] d Hp Hd IH ]; simpl; intros Hkv.
  - now repeat constructor.
  - destruct (String.eqb k k0); constructor; auto.
Qed.

Lemma node_entry_wf (w : World) (node : V1Node) (st : NodeGPUState.t) :
  node_entry w node = Some st -> entry_wf (metadata_name node, st).
Proof.
  unfold node_entry.
  destruct (capacity node) as [ cap | ]; [ | discriminate ].
  destruct (dict_mem "nvidia.com/gpu" cap); [ | discriminate ].
  destruct (query_node_gpu_metrics w (metadata_name node)) as [ | g l ]; [ discriminate | ].
  destruct (get_socket_count node); [ | discriminate ].
  intros H. injection H as <-. unfold entry_wf. simpl.
  repeat split; auto. discriminate.
Qed.

Lemma refresh_loop_wf (w : World) (nodes : list V1Node) :
  forall (gs gs' : dict NodeGPUState.t) (r : result unit) (tr : list call),
    refresh_loop w nodes gs = (r, gs', tr) -> cache_wf gs -> cache_wf gs'.
Proof.
  induction nodes as [ | node rest IH ]; intros gs gs' r tr H Hwf; simpl in H.
  - now injection H as _ <- _.
  - destruct (refresh_node w gs node) as [ [ gs1 | e ] tr1 ] eqn:Hn.
    + destruct (refresh_loop w rest gs1) as [ [ r2 gs2 ] tr2 ] eqn:Hl.
      injection H as _ <- _. apply (IH _ _ _ _ Hl).
      apply refresh_node_ok in Hn. subst gs1.
      destruct (node_entry w node) as [ st | ] eqn:He; [ | assumption ].
      destruct Hwf as [Hnd Hall]. split.
      * now apply dict_set_nodup.
      * apply dict_set_forall; [ assumption | now apply node_entry_wf with (w := w) ].
    + now injection H as _ <- _.
Qed.

Lemma update_gpu_state_wf (w : World) (self self' : Scheduler) (r : result unit)
    (tr : list call) :
  update_gpu_state w self = (r, self', tr) ->
  cache_wf (gpu_state self) ->
  cache_wf (gpu_state self') /\
  scheduler_name self' = scheduler_name self /\
  cache_ttl self' = cache_ttl self.
Proof.
  unfold update_gpu_state. destruct (fltb _ _).
  - intros H. injection H as _ <- _. auto.
  - destruct (list_node w) as [ nodes | e ].
    + destruct (refresh_loop w nodes []) as [ [ r' gs ] tr' ] eqn:Hl.
      assert (Hgs : cache_wf gs).
      { apply (refresh_loop_wf _ _ _ _ _ _ Hl). split; constructor. }
      destruct r'; intros H; injection H as _ <- _; simpl; auto.
    + intros H. injection H as _ <- _. auto.
Qed.

Lemma schedule_pod_wf (w : World) (self self' : Scheduler) (pod : V1Pod)
    (r : result outcome) (tr : list call) :
  schedule_pod w self pod = (r, self', tr) ->
  cache_wf (gpu_state self) ->
  cache_wf (gpu_state self') /\
  scheduler_name self' = scheduler_name self /\
  cache_ttl self' = cache_ttl self.
Proof.
  intros H Hwf.
  destruct (schedule_pod_trace _ _ _ _ _ _ H)
    as [ [-> _] | (r1 & tr1 & trb & Hu & _ & _) ]; [ auto | ].
  eapply update_gpu_state_wf; eauto.
Qed.

(** X1: whatever events the loop has handled and however it ended, the cache
    is well formed: node names are unique keys, every entry is filed under
    its node's name, lists at least one accelerator, and its [total_gpus]
    and [free_gpus] agree with the list.  The scheduler's name and TTL never
    change. *)
Theorem cache_invariant (events : list (World * V1Pod)) : forall self : Scheduler,
  cache_wf (gpu_state self) ->
  cache_wf (gpu_state (snd (fst (run events self)))) /\
  scheduler_name (snd (fst (run events self))) = scheduler_name self /\
  cache_ttl (snd (fst (run events self))) = cache_ttl self.
Proof.
  induction events as [ | [w pod] rest IH ]; intros self Hwf; simpl; [ auto | ].
  destruct (schedule_pod w self pod) as [ [ r self1 ] tr ] eqn:Hs.
  destruct (schedule_pod_wf _ _ _ _ _ _ Hs Hwf) as (Hwf1 & Hn1 & Ht1).
  destruct r as [ o | e ]; simpl; [ | auto ].
  destruct (IH self1 Hwf1) as (Hwf2 & Hn2 & Ht2).
  destruct (run rest self1) as [ [ r2 self2 ] tr2 ]. simpl in *.
  repeat split; try apply Hwf2; congruence.
Qed.

Lemma cache_invariant_witness :
  cache_wf (gpu_state scheduler0) /\
  cache_wf (gpu_state (snd (fst (run
     [(world_at 1700000000 [gpu_node "node-a" None; cpu_node "node-x"],
       pending_pod (Some "4") None);
      (relabelled_world, pending_pod (Some "1") None)] scheduler0)))).
Proof.
  assert (H0 : cache_wf (gpu_state scheduler0)) by (split; constructor).
  split; [ exact H0 | ].
  exact (proj1 (cache_invariant _ scheduler0 H0)).
Defined.

Lemma refresh_loop_queries (w : World) (nodes : list V1Node) :
  forall (gs gs' : dict NodeGPUState.t) (tr : list call),
    refresh_loop w nodes gs = (Ok tt, gs', tr) ->
    tr = map (fun node => QueryMetrics (metadata_name node)) (filter advertises_gpu nodes).
Proof.
  induction nodes as [ | node rest IH ]; intros gs gs' tr H; simpl in H.
  - now injection H as _ <-.
  - destruct (refresh_node w gs node) as [ [ gs1 | e ] tr1 ] eqn:Hn; [ | discriminate ].
    destruct (refresh_loop w rest gs1) as [ [ r2 gs2 ] tr2 ] eqn:Hl.
    injection H as -> _ <-. rewrite (IH _ _ _ Hl). simpl.
    assert (Htr1 : tr1 = if advertises_gpu node
                         then [QueryMetrics (metadata_name node)] else []).
    { unfold refresh_node in Hn. unfold advertises_gpu.
      destruct (capacity node) as [ cap | ]; [ | discriminate ].
      destruct (dict_mem "nvidia.com/gpu" cap); simpl in *.
      - destruct (query_node_gpu_metrics w (metadata_name node));
          [ | destruct (get_socket_count node) ]; try discriminate;
          injection Hn as _ <-; reflexivity.
      - injection Hn as _ <-. reflexivity. }
    rewrite Htr1. destruct (advertises_gpu node); reflexivity.
Qed.

(** X2: a refresh that returns has listed the nodes once and then queried
    the exporter exactly once for each listed node that advertises
    [nvidia.com/gpu], in listing order; nodes that do not advertise it are
    never queried and get no entry. *)
Theorem refresh_queries_gpu_nodes_only (w : World) (self self' : Scheduler)
    (nodes : list V1Node) (tr : list call) :
  fltb (fsub (time_time w) (last_update self)) (cache_ttl self) = false ->
  list_node w = Ok nodes ->
  update_gpu_state w self = (Ok tt, self', tr) ->
  tr = ListNode :: map (fun node => QueryMetrics (metadata_name node))
                     (filter advertises_gpu nodes)
  /\
  forall node : V1Node,
    advertises_gpu node = false -> node_entry w node = None.
Proof.
  intros Httl Hlist H. split.
  - unfold update_gpu_state in H. rewrite Httl, Hlist in H.
    destruct (refresh_loop w nodes []) as [ [ r gs ] tr' ] eqn:Hl.
    destruct r as [ [] | e ]; [ | discriminate ].
    injection H as _ <-. f_equal. eapply refresh_loop_queries; eauto.
  - intros node Hadv. unfold advertises_gpu in Hadv. unfold node_entry.
    destruct (capacity node) as [ cap | ]; [ | reflexivity ]. now rewrite Hadv.
Qed.

Lemma refresh_queries_gpu_nodes_only_witness :
  fltb (fsub (time_time (world_at 1700000000
                           [cpu_node "node-x"; gpu_node "node-a" None; cpu_node "node-y"]))
          (last_update scheduler0)) (cache_ttl scheduler0) = false /\
  update_gpu_state (world_at 1700000000
                      [cpu_node "node-x"; gpu_node "node-a" None; cpu_node "node-y"])
    scheduler0
  = (Ok tt, refreshed_at 1700000000, [ListNode; QueryMetrics "node-a"]) /\
  [ListNode; QueryMetrics "node-a"]
  = ListNode :: map (fun node => QueryMetrics (metadata_name node))
                  (filter advertises_gpu
                     [cpu_node "node-x"; gpu_node "node-a" None; cpu_node "node-y"]).
Proof.
  split; [ reflexivity | split; [ reflexivity | ] ].
  exact (proj1 (refresh_queries_gpu_nodes_only
                  (world_at 1700000000
                     [cpu_node "node-x"; gpu_node "node-a" None; cpu_node "node-y"])
                  scheduler0 (refreshed_at 1700000000)
                  [cpu_node "node-x"; gpu_node "node-a" None; cpu_node "node-y"]
                  [ListNode; QueryMetrics "node-a"] eq_refl eq_refl eq_refl)).
Defined.

Lemma fsub_diag (x : float) : is_finite x = true -> fsub x x = fzero.
Proof.
  destruct x as [ [ | ] | | | s m e ]; simpl; try discriminate; try reflexivity.
  intros _. unfold fsub, SFsub. rewrite Z.sub_diag. reflexivity.
Qed.

(** X3: with a positive TTL and a finite clock reading, a cache read that
    returned is followed by a hit when the clock has not moved: reading
    again changes nothing and sends nothing out. *)
Theorem refresh_then_read_is_hit (w : World) (self self1 : Scheduler) (tr : list call) :
  is_finite (time_time w) = true ->
  fltb fzero (cache_ttl self) = true ->
  update_gpu_state w self = (Ok tt, self1, tr) ->
  update_gpu_state w self1 = (Ok tt, self1, []).
Proof.
  intros Hfin Hpos H. unfold update_gpu_state in H.
  destruct (fltb (fsub (time_time w) (last_update self)) (cache_ttl self)) eqn:Httl.
  - injection H as <- _. unfold update_gpu_state. now rewrite Httl.
  - destruct (list_node w) as [ nodes | e ]; [ | discriminate ].
    destruct (refresh_loop w nodes []) as [ [ r gs ] tr' ].
    destruct r as [ [] | e ]; [ | discriminate ].
    injection H as <- _. unfold update_gpu_state. simpl.
    now rewrite (fsub_diag _ Hfin), Hpos.
Qed.

Lemma refresh_then_read_is_hit_witness :
  is_finite (time_time (world_at 1700000000 [gpu_node "node-a" None])) = true /\
  fltb fzero (cache_ttl scheduler0) = true /\
  update_gpu_state (world_at 1700000000 [gpu_node "node-a" None]) scheduler0
  = (Ok tt, refreshed_at 1700000000, [ListNode; QueryMetrics "node-a"]) /\
  update_gpu_state (world_at 1700000000 [gpu_node "node-a" None]) (refreshed_at 1700000000)
  = (Ok tt, refreshed_at 1700000000, []).
Proof.
  repeat (split; [ reflexivity | ]).
  exact (refresh_then_read_is_hit (world_at 1700000000 [gpu_node "node-a" None])
           scheduler0 (refreshed_at 1700000000) [ListNode; QueryMetrics "node-a"]
           eq_refl eq_refl eq_refl).
Defined.

(* ================================================================== *)
(** * Further properties of the event loop *)

Lemma schedule_pod_filtered (w : World) (self : Scheduler) (pod : V1Pod) :
  filtered_out self pod = true ->
  schedule_pod w self pod = (Ok Ignored, self, []).
Proof.
  unfold filtered_out, schedule_pod. intros H.
  destruct (negb (String.eqb (pod_scheduler_name pod) (scheduler_name self)));
    [ reflexivity | ].
  simpl in H. now rewrite H.
Qed.

(** X4: events for pods of another scheduler, pods that already have a
    node and pods being deleted are dropped without any effect: a stream of
    such events makes no outside call (no node listing, no exporter query,
    no binding) and leaves the scheduler, cache included, as it was. *)
Theorem filtered_stream_has_no_effect (events : list (World * V1Pod)) (self : Scheduler) :
  (forall w pod, In (w, pod) events -> filtered_out self pod = true) ->
  run events self = (Ok tt, self, []).
Proof.
  induction events as [ | [w pod] rest IH ]; intros Hall; simpl; [ reflexivity | ].
  rewrite (schedule_pod_filtered w self pod (Hall w pod (or_introl eq_refl))).
  rewrite (IH (fun w' pod' Hin => Hall w' pod' (or_intror Hin))). reflexivity.
Qed.

Lemma filtered_stream_has_no_effect_witness :
  (forall w pod,
      In (w, pod)
        [(relabelled_world,
          {| pod_name := "web-0"; pod_namespace := "default"; pod_uid := "uid-1";
             deletion_timestamp := None; pod_scheduler_name := "default-scheduler";
             pod_node_name := None; containers := [container_with (Some "1") None] |});
         (relabelled_world,
          {| pod_name := "vllm-1"; pod_namespace := "default"; pod_uid := "uid-2";
             deletion_timestamp := None; pod_scheduler_name := "gpu-aware-scheduler";
             pod_node_name := Some "node-a";
             containers := [container_with (Some "1") None] |})] ->
      filtered_out prior_two_nodes pod = true) /\
  run [(relabelled_world,
        {| pod_name := "web-0"; pod_namespace := "default"; pod_uid := "uid-1";
           deletion_timestamp := None; pod_scheduler_name := "default-scheduler";
           pod_node_name := None; containers := [container_with (Some "1") None] |});
       (relabelled_world,
        {| pod_name := "vllm-1"; pod_namespace := "default"; pod_uid := "uid-2";
           deletion_timestamp := None; pod_scheduler_name := "gpu-aware-scheduler";
           pod_node_name := Some "node-a";
           containers := [container_with (Some "1") None] |})] prior_two_nodes
  = (Ok tt, prior_two_nodes, []).
Proof.
  match goal with
  | |- ?H /\ _ => assert (Hall : H)
  end.
  { intros w pod [ E | [ E | [] ] ]; injection E as _ <-; reflexivity. }
  split; [ exact Hall | ].
  exact (filtered_stream_has_no_effect _ prior_two_nodes Hall).
Defined.

(** X5: a pod is bound only on a decision of the placement engine taken on
    the cache as the refresh left it: when [schedule_pod] ends with
    [Scheduled res], the pod passed the filter and requests a non-zero
    count, [res] is what [find_best_placement] returned, its node is a key
    of the cache whose entry reaches the free count of the path taken, and
    the only call after the refresh is one binding of this pod to that
    node, which the orchestrator accepted. *)
Theorem binding_follows_decision (w : World) (self self1 : Scheduler) (pod : V1Pod)
    (res : SchedulingResult.t) (tr : list call) :
  schedule_pod w self pod = (Ok (Scheduled res), self1, tr) ->
  filtered_out self pod = false /\
  (exists tr1 : list call,
      update_gpu_state w self = (Ok tt, self1, tr1) /\
      tr = tr1 ++ [CreateBinding (pod_name pod) (pod_namespace pod)
                     (SchedulingResult.node res)]) /\
  (exists (gpu_req tp_size : Z) (st : NodeGPUState.t),
      get_gpu_requirement pod = Ok gpu_req /\ gpu_req <> 0 /\
      get_tensor_parallel_size pod = Ok tp_size /\
      find_best_placement (gpu_state self1) gpu_req tp_size pod = Ok (Some res) /\
      In (SchedulingResult.node res, st) (gpu_state self1) /\
      min_free_count gpu_req tp_size <= NodeGPUState.free_gpus st) /\
  create_namespaced_pod_binding w (pod_name pod) (pod_namespace pod)
    (SchedulingResult.node res) = Ok tt.
Proof.
  intros H.
  assert (Hf : filtered_out self pod = false).
  { unfold filtered_out. unfold schedule_pod in H.
    destruct (negb (String.eqb (pod_scheduler_name pod) (scheduler_name self)));
      [ discriminate | ].
    destruct (placed_or_deleting pod); [ discriminate | reflexivity ]. }
  split; [ exact Hf | ].
  unfold filtered_out in Hf. apply orb_false_iff in Hf. destruct Hf as [Hown Hfree].
  apply negb_false_iff, String.eqb_eq in Hown.
  destruct (update_gpu_state w self) as [ [ r1 s1 ] tr1 ] eqn:Hup.
  rewrite (schedule_pod_after_refresh w self s1 pod r1 tr1 Hown Hfree Hup) in H.
  destruct r1 as [ [] | e ]; [ | discriminate ].
  destruct (get_gpu_requirement pod) as [ gpu_req | e ]; [ | discriminate ].
  destruct (Z.eqb_spec gpu_req 0) as [ | Hnz ]; [ discriminate | ].
  destruct (get_tensor_parallel_size pod) as [ tp_size | e ]; [ | discriminate ].
  destruct (find_best_placement (gpu_state s1) gpu_req tp_size pod)
    as [ [ res' | ] | e ] eqn:Hfind; try discriminate.
  destruct (create_namespaced_pod_binding w (pod_name pod) (pod_namespace pod)
              (SchedulingResult.node res')) as [ [] | e ] eqn:Hb; [ | discriminate ].
  destruct (mapM str_of_int (SchedulingResult.gpus res')); [ | discriminate ].
  injection H as -> -> <-.
  destruct (decision_node_passed_gate _ _ _ _ _ Hfind) as (st & Hin & Hgate).
  split; [ exists tr1; auto | ]. split; [ | exact Hb ].
  exists gpu_req, tp_size, st. auto 10.
Qed.

Lemma binding_follows_decision_witness :
  schedule_pod (world_at 1700000000 [gpu_node "node-a" None]) scheduler0
    (pending_pod (Some "2") None)
  = (Ok (Scheduled two_free_decision), refreshed_at 1700000000,
     [ListNode; QueryMetrics "node-a"; CreateBinding "vllm-0" "default" "node-a"]) /\
  exists tr1 : list call,
    update_gpu_state (world_at 1700000000 [gpu_node "node-a" None]) scheduler0
    = (Ok tt, refreshed_at 1700000000, tr1) /\
    [ListNode; QueryMetrics "node-a"; CreateBinding "vllm-0" "default" "node-a"]
    = tr1 ++ [CreateBinding "vllm-0" "default" "node-a"].
Proof.
  assert (Hs : schedule_pod (world_at 1700000000 [gpu_node "node-a" None]) scheduler0
                 (pending_pod (Some "2") None)
               = (Ok (Scheduled two_free_decision), refreshed_at 1700000000,
                  [ListNode; QueryMetrics "node-a";
                   CreateBinding "vllm-0" "default" "node-a"])).
  { vm_compute. reflexivity. }
  split; [ exact Hs | ].
  exact (proj1 (proj2 (binding_follows_decision _ _ _ _ _ _ Hs))).
Defined.

Lemma schedule_pod_bindings (w : World) (self self' : Scheduler) (pod : V1Pod)
    (r : result outcome) (tr : list call) :
  schedule_pod w self pod = (r, self', tr) ->
  (List.length (filter is_binding tr) <= 1)%nat.
Proof.
  intros H.
  destruct (filtered_out self pod) eqn:Hf.
  - rewrite (schedule_pod_filtered w self pod Hf) in H.
    injection H as _ _ <-. simpl. lia.
  - unfold filtered_out in Hf. apply orb_false_iff in Hf. destruct Hf as [Hown Hfree].
    apply negb_false_iff, String.eqb_eq in Hown.
    destruct (update_gpu_state w self) as [ [ r1 s1 ] tr1 ] eqn:Hup.
    destruct (update_gpu_state_trace _ _ _ _ _ Hup) as [Hb _].
    rewrite (schedule_pod_after_refresh w self s1 pod r1 tr1 Hown Hfree Hup) in H.
    assert (Hplain : (List.length (filter is_binding tr1) <= 1)%nat)
      by (rewrite Hb; simpl; lia).
    assert (Hbound : forall n ns nd,
               (List.length (filter is_binding (tr1 ++ [CreateBinding n ns nd])) <= 1)%nat)
      by (intros; rewrite filter_app, Hb; simpl; lia).
    destruct r1 as [ [] | e ]; [ | now injection H as _ _ <- ].
    destruct (get_gpu_requirement pod) as [ gpu_req | e ]; [ | now injection H as _ _ <- ].
    destruct (gpu_req =? 0); [ now injection H as _ _ <- | ].
    destruct (get_tensor_parallel_size pod) as [ tp_size | e ];
      [ | now injection H as _ _ <- ].
    destruct (find_best_placement (gpu_state s1) gpu_req tp_size pod)
      as [ [ res | ] | e ]; try (now injection H as _ _ <-).
    destruct (create_namespaced_pod_binding w _ _ _);
      injection H as _ _ <-; apply Hbound.
Qed.

(** X6: the loop commits at most one binding per event it handled. *)
Theorem at_most_one_binding_per_event (events : list (World * V1Pod)) :
  forall self : Scheduler,
    (List.length (filter is_binding (snd (run events self))) <= List.length events)%nat.
Proof.
  induction events as [ | [w pod] rest IH ]; intros self; simpl; [ lia | ].
  destruct (schedule_pod w self pod) as [ [ r self1 ] tr ] eqn:Hs.
  pose proof (schedule_pod_bindings _ _ _ _ _ _ Hs) as Hone.
  destruct r as [ o | e ]; simpl; [ | lia ].
  specialize (IH self1).
  destruct (run rest self1) as [ [ r2 self2 ] tr2 ]. simpl in *.
  rewrite filter_app, length_app. lia.
Qed.

(* ================================================================== *)
(** * The tensor-parallel hint *)

Lemma split_char_no_sep (sep : ascii) (s : string) :
  has_char sep s = false -> split_char sep s = [s].
Proof.
  induction s as [ | c s IH ]; simpl; [ reflexivity | ].
  intros H. apply orb_false_iff in H. destruct H as [Hc Hs].
  rewrite Hc, (IH Hs). reflexivity.
Qed.

Lemma split_char_app (sep : ascii) (a s : string) :
  has_char sep a = false ->
  split_char sep (a ++ String sep s) = a :: split_char sep s.
Proof.
  induction a as [ | c a IH ]; simpl; intros H.
  - now rewrite Ascii.eqb_refl.
  - apply orb_false_iff in H. destruct H as [Hc Ha].
    rewrite Hc, (IH Ha). reflexivity.
Qed.

Lemma find_tp_env_var_first (pre post : list V1EnvVar) (v : V1EnvVar) :
  (forall v', In v' pre -> env_name v' <> "TENSOR_PARALLEL_SIZE") ->
  env_name v = "TENSOR_PARALLEL_SIZE" ->
  find_tp_env_var (pre ++ v :: post) = Some v.
Proof.
  intros Hpre Hv. induction pre as [ | v0 pre IH ]; simpl.
  - now rewrite Hv.
  - destruct (String.eqb_spec (env_name v0) "TENSOR_PARALLEL_SIZE") as [ E | _ ].
    + exfalso. apply (Hpre v0); [ now left | exact E ].
    + apply IH. intros v' Hin. apply Hpre. now right.
Qed.

Lemma find_tp_env_var_none (vars : list V1EnvVar) :
  (forall v, In v vars -> env_name v <> "TENSOR_PARALLEL_SIZE") ->
  find_tp_env_var vars = None.
Proof.
  induction vars as [ | v0 vars IH ]; simpl; intros H; [ reflexivity | ].
  destruct (String.eqb_spec (env_name v0) "TENSOR_PARALLEL_SIZE") as [ E | _ ].
  - exfalso. apply (H v0); [ now left | exact E ].
  - apply IH. intros v Hin. apply H. now right.
Qed.

Lemma find_tp_env_none (cs : list V1Container) :
  (forall c, In c cs -> ~ declares_tp_env c) -> find_tp_env cs = None.
Proof.
  induction cs as [ | c cs IH ]; simpl; intros H; [ reflexivity | ].
  rewrite find_tp_env_var_none.
  - apply IH. intros c' Hin. apply H. now right.
  - intros v Hin Hv. apply (H c (or_introl eq_refl)).
    destruct (env c) as [ vars | ] eqn:He; [ | destruct Hin ].
    now exists vars, v.
Qed.

Lemma find_tp_arg_first (pre post : list string) (arg : string) :
  (forall a, In a pre -> contains "--tensor-parallel-size" a = false) ->
  contains "--tensor-parallel-size" arg = true ->
  find_tp_arg (pre ++ arg :: post) = Some arg.
Proof.
  intros Hpre Harg. induction pre as [ | a pre IH ]; simpl.
  - now rewrite Harg.
  - rewrite (Hpre a (or_introl eq_refl)). apply IH. intros a' Hin. apply Hpre. now right.
Qed.

Lemma find_tp_arg_none (l : list string) :
  (forall a, In a l -> contains "--tensor-parallel-size" a = false) ->
  find_tp_arg l = None.
Proof.
  induction l as [ | a l IH ]; simpl; intros H; [ reflexivity | ].
  rewrite (H a (or_introl eq_refl)). apply IH. intros a' Hin. apply H. now right.
Qed.

(** X8: an environment variable [TENSOR_PARALLEL_SIZE] decides the group
    size before anything else: the value used is that of the first such
    variable of the first container that declares one, whatever the
    arguments and the accelerator request say; a variable without a value
    raises [TypeError]. *)
Theorem tp_size_from_first_env_var (pod : V1Pod) (cs_pre cs_post : list V1Container)
    (c : V1Container) (vars_pre vars_post : list V1EnvVar) (v : V1EnvVar) :
  containers pod = cs_pre ++ c :: cs_post ->
  (forall c', In c' cs_pre -> ~ declares_tp_env c') ->
  env c = Some (vars_pre ++ v :: vars_post) ->
  (forall v', In v' vars_pre -> env_name v' <> "TENSOR_PARALLEL_SIZE") ->
  env_name v = "TENSOR_PARALLEL_SIZE" ->
  get_tensor_parallel_size pod
  = match env_value v with
    | Some s => py_int s
    | None => Raise TypeError
    end.
Proof.
  intros Hcs Hpre Henv Hvars Hv. unfold get_tensor_parallel_size. rewrite Hcs.
  assert (Hfind : find_tp_env (cs_pre ++ c :: cs_post) = Some v).
  { clear Hcs. induction cs_pre as [ | c0 cs_pre IH ]; simpl.
    - rewrite Henv, (find_tp_env_var_first _ _ _ Hvars Hv). reflexivity.
    - rewrite find_tp_env_var_none.
      + apply IH. intros c' Hin. apply Hpre. now right.
      + intros v' Hin Hv'. apply (Hpre c0 (or_introl eq_refl)).
        destruct (env c0) as [ vars | ] eqn:He; [ | destruct Hin ].
        now exists vars, v'. }
  rewrite Hfind. reflexivity.
Qed.

Lemma tp_size_from_first_env_var_witness :
  get_tensor_parallel_size tp_from_env_and_args = Ok 4 /\
  get_gpu_requirement tp_from_env_and_args = Ok 2.
Proof.
  split; [ | reflexivity ].
  refine (tp_size_from_first_env_var tp_from_env_and_args
            [ {| env := None;
                 args := Some ["--model=llama"; "--tensor-parallel-size=8"];
                 resources := {| requests := Some [("nvidia.com/gpu", "2")] |} |} ]
            [] (container_with None (Some "4")) [] []
            {| env_name := "TENSOR_PARALLEL_SIZE"; env_value := Some "4" |}
            eq_refl _ eq_refl _ eq_refl).
  - intros c' [ <- | [] ] (vars & v & He & _). discriminate.
  - intros v' [].
Defined.

(** X9: without such a variable the arguments of the first container
    decide, and only they: the first argument that contains
    [--tensor-parallel-size] is split at [=]; written
    [--tensor-parallel-size=N] it gives [int(N)], and written without [=]
    (the value passed as the next argument) it raises [IndexError].  With no
    such argument the group size is the accelerator request.  A pod without
    containers raises [IndexError]. *)
Theorem tp_size_from_args (pod : V1Pod) :
  (forall c, In c (containers pod) -> ~ declares_tp_env c) ->
  (containers pod = [] -> get_tensor_parallel_size pod = Raise IndexError)
  /\
  (forall (c0 : V1Container) (rest : list V1Container),
      containers pod = c0 :: rest ->
      (forall (l pre post : list string) (arg : string),
          args c0 = Some l ->
          l = pre ++ arg :: post ->
          (forall a, In a pre -> contains "--tensor-parallel-size" a = false) ->
          contains "--tensor-parallel-size" arg = true ->
          (has_char "="%char arg = false ->
           get_tensor_parallel_size pod = Raise IndexError) /\
          (forall n : string,
              arg = ("--tensor-parallel-size" ++ String "="%char n)%string ->
              has_char "="%char n = false ->
              get_tensor_parallel_size pod = py_int n))
      /\
      ((forall l, args c0 = Some l ->
                  forall a, In a l -> contains "--tensor-parallel-size" a = false) ->
       get_tensor_parallel_size pod = get_gpu_requirement pod)).
Proof.
  intros Hnone. unfold get_tensor_parallel_size.
  rewrite (find_tp_env_none _ Hnone). split.
  - intros ->. reflexivity.
  - intros c0 rest ->. unfold py_index. cbn [nth_error bind]. split.
    + intros l pre post arg -> -> Hpre Harg.
      rewrite (find_tp_arg_first _ _ _ Hpre Harg). split.
      * intros Hno. rewrite (split_char_no_sep _ _ Hno). reflexivity.
      * intros n E Hn. rewrite E. rewrite split_char_app by reflexivity.
        rewrite (split_char_no_sep _ _ Hn). reflexivity.
    + intros Hflag. destruct (args c0) as [ l | ]; [ | reflexivity ].
      rewrite (find_tp_arg_none _ (Hflag l eq_refl)). reflexivity.
Qed.

Lemma tp_size_from_args_witness :
  (forall c, In c (containers tp_from_args) -> ~ declares_tp_env c) /\
  get_tensor_parallel_size tp_from_args = Ok 8 /\
  (forall c, In c (containers tp_flag_without_value) -> ~ declares_tp_env c) /\
  get_tensor_parallel_size tp_flag_without_value = Raise IndexError.
Proof.
  assert (H1 : forall c, In c (containers tp_from_args) -> ~ declares_tp_env c).
  { intros c [ <- | [] ] (vars & v & He & Hin & Hv). injection He as <-.
    destruct Hin as [ <- | [] ]. discriminate. }
  assert (H2 : forall c, In c (containers tp_flag_without_value) -> ~ declares_tp_env c).
  { intros c [ <- | [] ] (vars & v & He & _). discriminate. }
  split; [ exact H1 | split; [ | split; [ exact H2 | ] ] ].
  - destruct (tp_size_from_args tp_from_args H1) as [_ H].
    destruct (H _ _ eq_refl) as [Hargs _].
    refine (proj2 (Hargs _ ["--model=llama"] ["--port=80"] "--tensor-parallel-size=8"
                     eq_refl eq_refl _ eq_refl) "8" eq_refl eq_refl).
    intros a [ <- | [] ]. reflexivity.
  - destruct (tp_size_from_args tp_flag_without_value H2) as [_ H].
    destruct (H _ _ eq_refl) as [Hargs _].
    refine (proj1 (Hargs _ [] ["8"] "--tensor-parallel-size" eq_refl eq_refl _ eq_refl)
              eq_refl).
    intros a [].
Defined.

(* ================================================================== *)
(** * Further properties of the placement engine *)

Lemma mapM_raise {A B : Type} (f : A -> result B) (l : list A) (e : exn) :
  mapM f l = Raise e -> exists x, In x l /\ f x = Raise e.
Proof.
  induction l as [ | x l IH ]; simpl; [ discriminate | ].
  destruct (f x) as [ y | e' ] eqn:Hx; simpl.
  - destruct (mapM f l) as [ ys | e' ]; simpl; [ discriminate | ].
    intros H. injection H as ->. destruct (IH eq_refl) as (x' & Hin & Hx').
    exists x'. auto.
  - intros H. injection H as ->. exists x. auto.
Qed.

Lemma scored_set_ok (state : NodeGPUState.t) (pod : V1Pod) (bonus : bool)
    (selected : list GPUInfo.t) (set : option (list Z)) (s : float) :
  scored_set state pod bonus selected = Ok (set, s) ->
  set = Some (map GPUInfo.gpu_index selected).
Proof.
  unfold scored_set.
  destruct (mapM _ selected); simpl; [ | discriminate ].
  intros H. now injection H as <- _.
Qed.

Lemma py_slice_incl {A : Type} (l : list A) (a b : Z) : incl (py_slice l a b) l.
Proof.
  intros x Hx. unfold py_slice in Hx. eapply in_firstn_skipn; eauto.
Qed.

(** A window returned by the search: it has [count] accelerators of the
    input, with consecutive indices. *)
Lemma find_contiguous_some (gpus : list GPUInfo.t) (count : Z) (cand : list GPUInfo.t) :
  1 <= count ->
  find_contiguous_gpus gpus count = Some cand ->
  exists (i : nat) (g : GPUInfo.t) (w : list GPUInfo.t),
    cand = firstn (Z.to_nat count) (skipn i (sorted_by_index gpus)) /\
    cand = g :: w /\
    List.length cand = Z.to_nat count /\
    incl cand gpus /\
    map GPUInfo.gpu_index cand = index_run (GPUInfo.gpu_index g) (Z.to_nat count) /\
    has_run gpus (GPUInfo.gpu_index g) count.
Proof.
  intros Hc. unfold find_contiguous_gpus. rewrite first_contiguous_find.
  destruct (Z.le_gt_cases count (Z.of_nat (List.length gpus))) as [ Hlen | Hlen ].
  - rewrite (starts_range gpus count Hc Hlen).
    pose proof (by_index_length gpus) as Hbl.
    destruct (find _ _) as [ i | ] eqn:Hfind; [ | discriminate ].
    destruct (find_range_first _ _ _ _ Hfind) as (i_n & -> & Hr & Hcont & _).
    assert (Hi : (i_n + Z.to_nat count <= List.length (sorted_by_index gpus))%nat) by lia.
    simpl. rewrite (window_slice gpus count Hc i_n Hi) in *.
    intros H. injection H as <-.
    destruct (window_run gpus count Hc i_n Hi Hcont) as (g & w & Hw & Hmap & Hrun & _).
    exists i_n, g, w. repeat split; auto.
    + now apply window_length.
    + apply window_incl.
  - unfold py_range. rewrite (by_index_length gpus).
    replace (Z.to_nat (Z.of_nat (List.length gpus) - count + 1)) with 0%nat by lia.
    discriminate.
Qed.

(** X10: the search for adjacent accelerators, on any list and for any
    [count >= 1].  A result has exactly [count] accelerators, all taken from
    the list, with consecutive ascending indices, and is a window of the
    list sorted by index.  The search returns nothing when fewer than
    [count] accelerators are given and when the indices hold no run of
    [count] consecutive values. *)
Theorem find_contiguous_gpus_result (gpus : list GPUInfo.t) (count : Z) :
  1 <= count ->
  (forall cand : list GPUInfo.t,
      find_contiguous_gpus gpus count = Some cand ->
      Z.of_nat (List.length cand) = count /\
      incl cand gpus /\
      (exists k : Z, map GPUInfo.gpu_index cand = index_run k (Z.to_nat count) /\
                     has_run gpus k count) /\
      exists i : nat, cand = firstn (Z.to_nat count) (skipn i (sorted_by_index gpus)))
  /\
  (Z.of_nat (List.length gpus) < count -> find_contiguous_gpus gpus count = None)
  /\
  ((forall k : Z, ~ has_run gpus k count) -> find_contiguous_gpus gpus count = None).
Proof.
  intros Hc. split; [ | split ].
  - intros cand H.
    destruct (find_contiguous_some gpus count cand Hc H)
      as (i & g & w & Hwin & _ & Hlen & Hincl & Hmap & Hrun).
    repeat split; eauto. lia.
  - intros Hlt. destruct (find_contiguous_gpus gpus count) as [ cand | ] eqn:H;
      [ | reflexivity ].
    destruct (find_contiguous_some gpus count cand Hc H)
      as (i & _ & _ & Hwin & _ & Hlen & _).
    assert (Hle : (List.length cand <= List.length gpus)%nat).
    { rewrite Hwin, length_firstn, length_skipn, (by_index_length gpus). lia. }
    lia.
  - intros Hno. destruct (find_contiguous_gpus gpus count) as [ cand | ] eqn:H;
      [ | reflexivity ].
    destruct (find_contiguous_some gpus count cand Hc H) as (_ & g & _ & _ & _ & _ & _ & _ & Hrun).
    destruct (Hno _ Hrun).
Qed.

Lemma find_contiguous_gpus_result_witness :
  1 <= 3 /\
  find_contiguous_gpus (filter is_free (NodeGPUState.gpus scattered)) 3
  = Some [h100 "node-a" 1 80896 5; h100 "node-a" 2 80896 5; h100 "node-a" 3 80896 5] /\
  Z.of_nat (List.length [h100 "node-a" 1 80896 5; h100 "node-a" 2 80896 5;
                         h100 "node-a" 3 80896 5]) = 3.
Proof.
  assert (H1 : 1 <= 3) by lia.
  assert (H2 : find_contiguous_gpus (filter is_free (NodeGPUState.gpus scattered)) 3
               = Some [h100 "node-a" 1 80896 5; h100 "node-a" 2 80896 5;
                       h100 "node-a" 3 80896 5]) by reflexivity.
  split; [ exact H1 | split; [ exact H2 | ] ].
  exact (proj1 (proj1 (find_contiguous_gpus_result _ 3 H1) _ H2)).
Defined.

(** The accelerators [select_gpu_set] scores, when enough are free. *)
Lemma select_gpu_set_selected (state : NodeGPUState.t) (count : Z) (pod : V1Pod) :
  1 <= count ->
  count <= Z.of_nat (List.length (filter is_free (NodeGPUState.gpus state))) ->
  exists (selected : list GPUInfo.t) (bonus : bool),
    select_gpu_set state count pod = scored_set state pod bonus selected /\
    Z.of_nat (List.length selected) = count /\
    incl selected (filter is_free (NodeGPUState.gpus state)).
Proof.
  intros Hc Hlen. unfold select_gpu_set.
  destruct (Z.ltb_spec (Z.of_nat (List.length (filter is_free (NodeGPUState.gpus state))))
              count); [ lia | ].
  assert (Hfirst : exists (selected : list GPUInfo.t) (bonus : bool),
             scored_set state pod false
               (py_slice (filter is_free (NodeGPUState.gpus state)) 0 count)
             = scored_set state pod bonus selected /\
             Z.of_nat (List.length selected) = count /\
             incl selected (filter is_free (NodeGPUState.gpus state))).
  { exists (py_slice (filter is_free (NodeGPUState.gpus state)) 0 count), false.
    split; [ reflexivity | ]. split; [ | apply py_slice_incl ].
    rewrite py_slice_prefix by lia. rewrite length_firstn. lia. }
  destruct (negb (NodeGPUState.nvlink_enabled state) || (count =? 1)); [ exact Hfirst | ].
  destruct (find_contiguous_gpus (filter is_free (NodeGPUState.gpus state)) count)
    as [ cand | ] eqn:Hfind; [ | exact Hfirst ].
  destruct (find_contiguous_some _ _ _ Hc Hfind) as (_ & g & w & _ & -> & Hl & Hincl & _).
  exists (g :: w), true. repeat split; auto. lia.
Qed.

Lemma select_gpu_set_cases (state : NodeGPUState.t) (count : Z) (pod : V1Pod) :
  1 <= count ->
  (Z.of_nat (List.length (filter is_free (NodeGPUState.gpus state))) < count <->
   select_gpu_set state count pod = Ok (None, fzero))
  /\
  (forall (set : option (list Z)) (s : float),
      select_gpu_set state count pod = Ok (set, s) ->
      count <= Z.of_nat (List.length (filter is_free (NodeGPUState.gpus state))) ->
      exists l : list Z,
        set = Some l /\
        Z.of_nat (List.length l) = count /\
        forall i, In i l ->
                  exists g, In g (NodeGPUState.gpus state) /\ is_free g = true /\
                            GPUInfo.gpu_index g = i)
  /\
  (forall e : exn,
      select_gpu_set state count pod = Raise e ->
      exists g, In g (NodeGPUState.gpus state) /\ is_free g = true /\
                score_single_gpu g state pod = Raise e).
Proof.
  intros Hc.
  assert (Hnone : Z.of_nat (List.length (filter is_free (NodeGPUState.gpus state))) < count ->
                  select_gpu_set state count pod = Ok (None, fzero)).
  { intros Hlt. unfold select_gpu_set. apply Z.ltb_lt in Hlt. now rewrite Hlt. }
  assert (Hsome : forall (set : option (list Z)) (s : float),
             select_gpu_set state count pod = Ok (set, s) ->
             count <= Z.of_nat (List.length (filter is_free (NodeGPUState.gpus state))) ->
             exists l : list Z,
               set = Some l /\
               Z.of_nat (List.length l) = count /\
               forall i, In i l ->
                         exists g, In g (NodeGPUState.gpus state) /\ is_free g = true /\
                                   GPUInfo.gpu_index g = i).
  { intros set s H Hlen.
    destruct (select_gpu_set_selected state count pod Hc Hlen)
      as (selected & bonus & Hsel & Hl & Hincl).
    rewrite Hsel in H. apply scored_set_ok in H. subst set.
    exists (map GPUInfo.gpu_index selected). split; [ reflexivity | ].
    split; [ now rewrite length_map | ].
    intros i Hi. apply in_map_iff in Hi. destruct Hi as (g & <- & Hg).
    apply Hincl, filter_In in Hg. exists g. tauto. }
  split; [ split; [ exact Hnone | ] | split; [ exact Hsome | ] ].
  - intros H.
    destruct (Z.lt_ge_cases (Z.of_nat (List.length (filter is_free (NodeGPUState.gpus state))))
                count) as [ | Hge ]; [ assumption | ].
    destruct (Hsome _ _ H Hge) as (l & E & _). discriminate.
  - intros e H.
    destruct (Z.lt_ge_cases (Z.of_nat (List.length (filter is_free (NodeGPUState.gpus state))))
                count) as [ Hlt | Hge ]; [ rewrite (Hnone Hlt) in H; discriminate | ].
    destruct (select_gpu_set_selected state count pod Hc Hge)
      as (selected & bonus & Hsel & _ & Hincl).
    rewrite Hsel in H. unfold scored_set in H.
    destruct (mapM (fun g => score_single_gpu g state pod) selected) as [ ys | e' ] eqn:Hm;
      simpl in H; [ discriminate | ].
    injection H as ->. destruct (mapM_raise _ _ _ Hm) as (g & Hg & Hs).
    apply Hincl, filter_In in Hg. exists g. tauto.
Qed.

(** X11: what [select_gpu_set] returns for [count >= 1].  It returns no set
    exactly when fewer than [count] accelerators are free; a set it returns
    has exactly [count] indices, each the index of a free accelerator of the
    node; and it raises only when scoring a free accelerator of the node
    raises, so accelerators that are not free are never scored. *)
Theorem select_gpu_set_shape (state : NodeGPUState.t) (count : Z) (pod : V1Pod) :
  1 <= count ->
  (Z.of_nat (List.length (filter is_free (NodeGPUState.gpus state))) < count <->
   select_gpu_set state count pod = Ok (None, fzero))
  /\
  (forall (set : option (list Z)) (s : float),
      select_gpu_set state count pod = Ok (set, s) ->
      count <= Z.of_nat (List.length (filter is_free (NodeGPUState.gpus state))) ->
      exists l : list Z,
        set = Some l /\
        Z.of_nat (List.length l) = count /\
        forall i, In i l ->
                  exists g, In g (NodeGPUState.gpus state) /\ is_free g = true /\
                            GPUInfo.gpu_index g = i)
  /\
  (forall e : exn,
      select_gpu_set state count pod = Raise e ->
      exists g, In g (NodeGPUState.gpus state) /\ is_free g = true /\
                score_single_gpu g state pod = Raise e).
Proof.
  exact (select_gpu_set_cases state count pod).
Qed.

Lemma select_gpu_set_shape_witness :
  1 <= 4 /\
  select_gpu_set scattered 4 (pending_pod (Some "4") None)
  = Ok (Some [5; 1; 2; 7], S754_finite false 8294715719942144 (-44)) /\
  4 <= Z.of_nat (List.length (filter is_free (NodeGPUState.gpus scattered))) /\
  exists l : list Z,
    Some [5; 1; 2; 7] = Some l /\ Z.of_nat (List.length l) = 4 /\
    forall i, In i l ->
              exists g, In g (NodeGPUState.gpus scattered) /\ is_free g = true /\
                        GPUInfo.gpu_index g = i.
Proof.
  assert (H1 : 1 <= 4) by lia.
  assert (H2 : select_gpu_set scattered 4 (pending_pod (Some "4") None)
               = Ok (Some [5; 1; 2; 7], S754_finite false 8294715719942144 (-44)))
    by (vm_compute; reflexivity).
  assert (H3 : 4 <= Z.of_nat (List.length (filter is_free (NodeGPUState.gpus scattered))))
    by (vm_compute; discriminate).
  split; [ exact H1 | split; [ exact H2 | split; [ exact H3 | ] ] ].
  exact (proj1 (proj2 (select_gpu_set_shape scattered 4 (pending_pod (Some "4") None) H1))
           _ _ H2 H3).
Defined.

Lemma multi_cand_decision (tp_size : Z) (pod : V1Pod) (name : string)
    (st : NodeGPUState.t) (s : float) (r : SchedulingResult.t) :
  multi_cand tp_size pod (name, st) = Ok (Some (s, Ok r)) ->
  tp_size <= NodeGPUState.free_gpus st /\
  s = SchedulingResult.score r /\
  SchedulingResult.node r = name /\
  select_gpu_set st tp_size pod
  = Ok (Some (SchedulingResult.gpus r), SchedulingResult.score r).
Proof.
  unfold multi_cand.
  destruct (NodeGPUState.free_gpus st <? tp_size) eqn:E; [ discriminate | ].
  apply Z.ltb_ge in E.
  destruct (select_gpu_set st tp_size pod) as [ [ [ [ | i set ] | ] sc ] | e ]; simpl;
    try discriminate.
  intros H. injection H as <- <-. auto.
Qed.

(** X12: on the multi-accelerator path the decision names a node that
    passed the gate, carries the set and the score [select_gpu_set] gives
    for that node, with exactly [tp_size] accelerator indices, and that
    score is maximal among the nodes that passed the gate; of several nodes
    of maximal score the first in the order of the mapping is chosen. *)
Theorem multi_gpu_argmax (gs : dict NodeGPUState.t) (gpu_req tp_size : Z) (pod : V1Pod)
    (r : SchedulingResult.t) :
  1 < tp_size ->
  find_best_placement gs gpu_req tp_size pod = Ok (Some r) ->
  exists (i : nat) (name : string) (st : NodeGPUState.t),
    nth_error gs i = Some (name, st) /\
    tp_size <= NodeGPUState.free_gpus st /\
    SchedulingResult.node r = name /\
    select_gpu_set st tp_size pod
    = Ok (Some (SchedulingResult.gpus r), SchedulingResult.score r) /\
    Z.of_nat (List.length (SchedulingResult.gpus r)) = tp_size /\
    forall (j : nat) (name' : string) (st' : NodeGPUState.t) (set' : list Z) (s' : float),
      nth_error gs j = Some (name', st') ->
      tp_size <= NodeGPUState.free_gpus st' ->
      select_gpu_set st' tp_size pod = Ok (Some set', s') ->
      fltb (SchedulingResult.score r) s' = false /\
      ((j < i)%nat -> fleb (SchedulingResult.score r) s' = false).
Proof.
  intros Htp. assert (Hc : 1 <= tp_size) by lia.
  assert (Hlen : forall (st : NodeGPUState.t) (set : list Z) (s : float),
             select_gpu_set st tp_size pod = Ok (Some set, s) ->
             Z.of_nat (List.length set) = tp_size).
  { intros st set s H.
    destruct (select_gpu_set_cases st tp_size pod Hc) as ([Hnone _] & Hsome & _).
    destruct (Z.lt_ge_cases (Z.of_nat (List.length (filter is_free (NodeGPUState.gpus st))))
                tp_size) as [ Hlt | Hge ].
    - rewrite (Hnone Hlt) in H. discriminate.
    - destruct (Hsome _ _ H Hge) as (l & E & Hl & _). now injection E as ->. }
  unfold find_best_placement. destruct (Z.leb_spec tp_size 1) as [ Hle | _ ]; [ lia | ].
  rewrite find_multi_gpu_placement_scan.
  destruct (foldM _ gs best_init) as [ res | e ] eqn:Hfold; simpl; [ | discriminate ].
  intros E. injection E as E.
  destruct (scan_inv _ _ _ _ _ Hfold)
    as [ [-> _] | (i & [name st] & s & r' & Hi & Ha & -> & _ & Hbest) ]; [ discriminate | ].
  simpl in E. injection E as ->.
  destruct (multi_cand_decision _ _ _ _ _ _ Ha) as (Hgate & -> & Hn & Hsel).
  exists i, name, st.
  split; [ exact Hi | ]. split; [ exact Hgate | ]. split; [ exact Hn | ].
  split; [ exact Hsel | ]. split; [ eapply Hlen; eauto | ].
  intros j name' st' set' s' Hj Hgate' Hsel'.
  assert (Hset : Z.of_nat (List.length set') = tp_size) by (eapply Hlen; eauto).
  destruct set' as [ | i0 set' ]; [ simpl in Hset; lia | ].
  apply (Hbest j (name', st') s'
           (Ok {| SchedulingResult.node := name';
                  SchedulingResult.gpus := i0 :: set';
                  SchedulingResult.score := s';
                  SchedulingResult.reason :=
                    (str_of_len (i0 :: set') ++ " GPUs on " ++ name')%string |}) Hj).
  unfold multi_cand. apply Z.ltb_ge in Hgate'. rewrite Hgate', Hsel'. reflexivity.
Qed.

Lemma multi_gpu_argmax_witness :
  1 < 4 /\
  find_best_placement three_nodes 4 4 (pending_pod (Some "4") None)
  = Ok (Some three_nodes_decision) /\
  exists (i : nat) (name : string) (st : NodeGPUState.t),
    nth_error three_nodes i = Some (name, st) /\
    4 <= NodeGPUState.free_gpus st /\
    SchedulingResult.node three_nodes_decision = name /\
    select_gpu_set st 4 (pending_pod (Some "4") None)
    = Ok (Some (SchedulingResult.gpus three_nodes_decision),
          SchedulingResult.score three_nodes_decision).
Proof.
  assert (H1 : 1 < 4) by lia.
  assert (H2 : find_best_placement three_nodes 4 4 (pending_pod (Some "4") None)
               = Ok (Some three_nodes_decision)) by (vm_compute; reflexivity).
  split; [ exact H1 | split; [ exact H2 | ] ].
  destruct (multi_gpu_argmax three_nodes 4 4 (pending_pod (Some "4") None)
              three_nodes_decision H1 H2)
    as (i & name & st & Hi & Hgate & Hn & Hsel & _).
  exists i, name, st. auto.
Defined.

Lemma score_single_gpu_raise (gpu : GPUInfo.t) (state : NodeGPUState.t) (pod : V1Pod)
    (e : exn) :
  score_single_gpu gpu state pod = Raise e ->
  (GPUInfo.memory_total gpu = 0 /\ e = ZeroDivisionError) \/
  (GPUInfo.memory_total gpu <> 0 /\ e = OverflowError).
Proof.
  unfold score_single_gpu, int_true_div.
  destruct (GPUInfo.memory_total gpu) as [ | pd | pd ].
  - cbn [bind]. intros H. injection H as <-. left. split; reflexivity.
  - intros H. right. split; [ discriminate | ].
    destruct (GPUInfo.memory_free gpu) as [ | pn | pn ];
      [ cbn [bind] in H; discriminate | | ];
      (destruct (SFdiv _ _ _ _); cbn [bind] in H; try discriminate;
       now injection H as <-).
  - intros H. right. split; [ discriminate | ].
    destruct (GPUInfo.memory_free gpu) as [ | pn | pn ];
      [ cbn [bind] in H; discriminate | | ];
      (destruct (SFdiv _ _ _ _); cbn [bind] in H; try discriminate;
       now injection H as <-).
Qed.

Lemma score_single_gpu_zero_total (gpu : GPUInfo.t) (state : NodeGPUState.t) (pod : V1Pod) :
  GPUInfo.memory_total gpu = 0 ->
  score_single_gpu gpu state pod = Raise ZeroDivisionError.
Proof.
  intros H. unfold score_single_gpu, int_true_div. now rewrite H.
Qed.

(** X13: the placement engine raises only for an accelerator with at
    least 1000 MB free on a node that passed the gate of the path taken:
    either scoring it raises, a [ZeroDivisionError] when its total memory
    reads 0 and an [OverflowError] otherwise, or, on the single-accelerator
    path, it was scored and the reason of the decision cannot be rendered,
    a [ValueError], because its index or its free memory has more than
    4300 digits.  When scoring these accelerators does not raise and, on
    the single-accelerator path, their index and free memory have at most
    4300 digits, the engine returns. *)
Theorem placement_raises_from_scoring_or_rendering (gs : dict NodeGPUState.t)
    (gpu_req tp_size : Z) (pod : V1Pod) :
  (forall e : exn,
      find_best_placement gs gpu_req tp_size pod = Raise e ->
      exists (name : string) (st : NodeGPUState.t) (g : GPUInfo.t),
        In (name, st) gs /\
        min_free_count gpu_req tp_size <= NodeGPUState.free_gpus st /\
        In g (NodeGPUState.gpus st) /\
        1000 <= GPUInfo.memory_free g /\
        ((score_single_gpu g st pod = Raise e /\
          ((GPUInfo.memory_total g = 0 /\ e = ZeroDivisionError) \/
           (GPUInfo.memory_total g <> 0 /\ e = OverflowError)))
         \/
         (tp_size <= 1 /\ e = ValueError /\
          (exists s, score_single_gpu g st pod = Ok s) /\
          (~ renders (GPUInfo.gpu_index g) \/ ~ renders (GPUInfo.memory_free g)))))
  /\
  ((forall (name : string) (st : NodeGPUState.t) (g : GPUInfo.t),
       In (name, st) gs ->
       min_free_count gpu_req tp_size <= NodeGPUState.free_gpus st ->
       In g (NodeGPUState.gpus st) ->
       1000 <= GPUInfo.memory_free g ->
       (exists s, score_single_gpu g st pod = Ok s) /\
       (tp_size <= 1 ->
        renders (GPUInfo.gpu_index g) /\ renders (GPUInfo.memory_free g))) ->
   exists res, find_best_placement gs gpu_req tp_size pod = Ok res).
Proof.
  assert (Hraise : forall e : exn,
             find_best_placement gs gpu_req tp_size pod = Raise e ->
             exists (name : string) (st : NodeGPUState.t) (g : GPUInfo.t),
               In (name, st) gs /\
               min_free_count gpu_req tp_size <= NodeGPUState.free_gpus st /\
               In g (NodeGPUState.gpus st) /\
               1000 <= GPUInfo.memory_free g /\
               (score_single_gpu g st pod = Raise e \/
                (tp_size <= 1 /\ e = ValueError /\
                 (exists s, score_single_gpu g st pod = Ok s) /\
                 (~ renders (GPUInfo.gpu_index g) \/
                  ~ renders (GPUInfo.memory_free g))))).
  { intros e. unfold find_best_placement, min_free_count.
    destruct (Z.leb_spec tp_size 1) as [ Hle | Hgt ].
    - rewrite find_single_gpu_placement_scan.
      destruct (foldM _ _ best_init) as [ res | e' ] eqn:Hfold; simpl; [ discriminate | ].
      intros E. injection E as ->.
      destruct (scan_raise _ _ _ _ _ Hfold) as ([[name st] g] & Hin & Hc).
      apply in_eligible_accelerators in Hin. destruct Hin as (Hin & Hfree & Hg).
      exists name, st, g.
      split; [ exact Hin | ]. split; [ exact Hfree | ]. split; [ exact Hg | ].
      unfold single_cand in Hc.
      destruct (Z.ltb_spec (GPUInfo.memory_free g) 1000) as [ Hlt | Hge ];
        [ destruct Hc as [ Hc | [s Hc] ]; discriminate | ].
      split; [ exact Hge | ].
      destruct (score_single_gpu g st pod) as [ s | e' ] eqn:Hs; cbn [bind] in Hc.
      + right. destruct Hc as [ Hc | [s0 Hc] ]; [ discriminate | ].
        injection Hc as _ Hc.
        destruct (str_of_int (GPUInfo.gpu_index g)) as [ idx | e1 ] eqn:Hidx;
          cbn [bind] in Hc.
        * destruct (str_of_int (GPUInfo.memory_free g)) as [ free | e2 ] eqn:Hmem;
            cbn [bind] in Hc; [ discriminate | ].
          injection Hc as ->.
          destruct (str_of_int_raise _ _ Hmem) as [-> Hno].
          split; [ exact Hle | ]. split; [ reflexivity | ]. split; [ eauto | now right ].
        * injection Hc as ->.
          destruct (str_of_int_raise _ _ Hidx) as [-> Hno].
          split; [ exact Hle | ]. split; [ reflexivity | ]. split; [ eauto | now left ].
      + left. destruct Hc as [ Hc | [s0 Hc] ]; [ | discriminate ].
        now injection Hc as ->.
    - rewrite find_multi_gpu_placement_scan.
      destruct (foldM _ _ best_init) as [ res | e' ] eqn:Hfold; simpl; [ discriminate | ].
      intros E. injection E as ->.
      destruct (scan_raise _ _ _ _ _ Hfold) as ([name st] & Hin & Hc).
      unfold multi_cand in Hc.
      destruct (Z.ltb_spec (NodeGPUState.free_gpus st) tp_size) as [ Hlt | Hge ];
        [ destruct Hc as [ Hc | [s Hc] ]; discriminate | ].
      destruct (select_gpu_set st tp_size pod) as [ [ [ [ | i set ] | ] sc ] | e' ] eqn:Hsel;
        simpl in Hc; try (destruct Hc as [ Hc | [s Hc] ]; discriminate).
      destruct Hc as [ Hc | [s Hc] ]; [ | discriminate ].
      injection Hc as ->.
      destruct (select_gpu_set_cases st tp_size pod ltac:(lia)) as (_ & _ & Hr).
      destruct (Hr _ Hsel) as (g & Hg & Hfree & Hs).
      exists name, st, g.
      split; [ exact Hin | ]. split; [ exact Hge | ]. split; [ exact Hg | ].
      split; [ | now left ].
      unfold is_free in Hfree. apply Z.ltb_lt in Hfree. lia. }
  split.
  - intros e H.
    destruct (Hraise e H) as (name & st & g & Hin & Hgate & Hg & Hfree & [ Hs | Hv ]).
    + exists name, st, g.
      split; [ exact Hin | ]. split; [ exact Hgate | ]. split; [ exact Hg | ].
      split; [ exact Hfree | ]. left. split; [ exact Hs | ].
      now apply (score_single_gpu_raise g st pod).
    + exists name, st, g.
      split; [ exact Hin | ]. split; [ exact Hgate | ]. split; [ exact Hg | ].
      split; [ exact Hfree | ]. now right.
  - intros Hall.
    destruct (find_best_placement gs gpu_req tp_size pod) as [ res | e ] eqn:H;
      [ now exists res | ].
    destruct (Hraise e eq_refl) as (name & st & g & Hin & Hgate & Hg & Hfree & Hcase).
    destruct (Hall name st g Hin Hgate Hg Hfree) as [[s Hs'] Hrender].
    destruct Hcase as [ Hs | (Hle & _ & _ & Hno) ]; [ congruence | ].
    destruct (Hrender Hle) as [Hidx Hmem]. tauto.
Qed.

Lemma placement_raises_from_scoring_or_rendering_witness :
  (* scoring raises: the total memory of an accelerator reads 0 *)
  (find_best_placement broken_gpu 1 1 (pending_pod (Some "1") None)
   = Raise ZeroDivisionError /\
   exists (name : string) (st : NodeGPUState.t) (g : GPUInfo.t),
     In (name, st) broken_gpu /\
     In g (NodeGPUState.gpus st) /\
     1000 <= GPUInfo.memory_free g /\
     GPUInfo.memory_total g = 0)
  /\
  (* the reason cannot be rendered: the free memory has 4301 digits *)
  (find_best_placement unrenderable_gpu 1 1 (pending_pod (Some "1") None)
   = Raise ValueError /\
   exists (name : string) (st : NodeGPUState.t) (g : GPUInfo.t),
     In (name, st) unrenderable_gpu /\
     In g (NodeGPUState.gpus st) /\
     (exists s, score_single_gpu g st (pending_pod (Some "1") None) = Ok s) /\
     (~ renders (GPUInfo.gpu_index g) \/ ~ renders (GPUInfo.memory_free g)))
  /\
  (* bounded readings and no scoring exception: the engine returns *)
  (exists res, find_best_placement two_free 1 1 (pending_pod (Some "1") None) = Ok res).
Proof.
  split; [ | split ].
  - assert (H : find_best_placement broken_gpu 1 1 (pending_pod (Some "1") None)
                = Raise ZeroDivisionError) by reflexivity.
    split; [ exact H | ].
    destruct (proj1 (placement_raises_from_scoring_or_rendering broken_gpu 1 1
                       (pending_pod (Some "1") None)) _ H)
      as (name & st & g & Hin & _ & Hg & Hfree
          & [ [_ [ [Hz _] | [_ Hover] ] ] | (_ & Hv & _) ]).
    + exists name, st, g. auto.
    + discriminate.
    + discriminate.
  - assert (H : find_best_placement unrenderable_gpu 1 1 (pending_pod (Some "1") None)
                = Raise ValueError) by (vm_compute; reflexivity).
    split; [ exact H | ].
    destruct (proj1 (placement_raises_from_scoring_or_rendering unrenderable_gpu 1 1
                       (pending_pod (Some "1") None)) _ H)
      as (name & st & g & Hin & _ & Hg & Hfree
          & [ [_ [ [_ Hz] | [_ Hover] ] ] | (_ & _ & Hs & Hno) ]).
    + discriminate.
    + discriminate.
    + exists name, st, g. auto.
  - apply (proj2 (placement_raises_from_scoring_or_rendering two_free 1 1
                    (pending_pod (Some "1") None))).
    intros name st g [ E | [] ] _ Hg _. injection E as <- <-.
    destruct Hg as [ <- | [ <- | [] ] ];
      (split; [ eexists; reflexivity | intros _; split; vm_compute; reflexivity ]).
Defined.

(* ================================================================== *)
(** * Selection with interconnect and the order of the list *)

Lemma filter_perm {A : Type} (f : A -> bool) (l l' : list A) :
  Permutation l l' -> Permutation (filter f l) (filter f l').
Proof.
  induction 1 as [ | x l l' _ IH | x y l | l l' l'' _ IH1 _ IH2 ]; simpl.
  - constructor.
  - destruct (f x); [ now constructor | assumption ].
  - destruct (f x), (f y); try apply Permutation_refl. apply perm_swap.
  - eapply Permutation_trans; eauto.
Qed.

(** Two lists in index order with distinct indices and the same elements
    are the same list. *)
Lemma index_ordered_unique (l1 : list GPUInfo.t) : forall l2 : list GPUInfo.t,
  index_ordered l1 -> index_ordered l2 ->
  NoDup (map GPUInfo.gpu_index l1) ->
  Permutation l1 l2 ->
  l1 = l2.
Proof.
  induction l1 as [ | a l1 IH ]; intros l2 Ho1 Ho2 Hnd Hp.
  - apply Permutation_nil in Hp. now subst.
  - destruct l2 as [ | b l2 ]; [ apply Permutation_sym, Permutation_nil in Hp; discriminate | ].
    inversion Ho1 as [ | ? ? Hs1 Hall1 ]; subst.
    inversion Ho2 as [ | ? ? Hs2 Hall2 ]; subst.
    rewrite Forall_forall in Hall1, Hall2.
    simpl in Hnd. inversion Hnd as [ | ? ? Hnotin Hnd' ]; subst.
    assert (Hab : a = b).
    { assert (Ha : In a (b :: l2)) by (eapply Permutation_in; [ exact Hp | now left ]).
      assert (Hb : In b (a :: l1))
        by (eapply Permutation_in; [ apply Permutation_sym; exact Hp | now left ]).
      destruct Ha as [ E | Ha ]; [ now symmetry | ].
      destruct Hb as [ E | Hb ]; [ assumption | ].
      specialize (Hall1 _ Hb). specialize (Hall2 _ Ha).
      exfalso. apply Hnotin.
      replace (GPUInfo.gpu_index a) with (GPUInfo.gpu_index b) by lia.
      now apply in_map. }
    subst b. f_equal. apply IH; auto.
    eapply Permutation_cons_inv; eauto.
Qed.

Lemma sorted_by_index_of_perm (l l' : list GPUInfo.t) :
  Permutation l l' ->
  NoDup (map GPUInfo.gpu_index l) ->
  sorted_by_index l = sorted_by_index l'.
Proof.
  intros Hp Hnd. apply index_ordered_unique.
  - apply sorted_by_index_sorted.
  - apply sorted_by_index_sorted.
  - eapply Permutation_NoDup; [ | exact Hnd ].
    apply Permutation_map, sorted_by_index_perm.
  - eapply Permutation_trans; [ apply Permutation_sym, sorted_by_index_perm | ].
    eapply Permutation_trans; [ exact Hp | apply sorted_by_index_perm ].
Qed.

Lemma score_single_gpu_node (gpu : GPUInfo.t) (state state' : NodeGPUState.t)
    (pod pod' : V1Pod) :
  NodeGPUState.nvlink_enabled state = NodeGPUState.nvlink_enabled state' ->
  score_single_gpu gpu state pod = score_single_gpu gpu state' pod'.
Proof.
  intros H. unfold score_single_gpu. now rewrite H.
Qed.

Lemma mapM_ext {A B : Type} (f g : A -> result B) (l : list A) :
  (forall x, f x = g x) -> mapM f l = mapM g l.
Proof.
  intros H. induction l as [ | x l IH ]; simpl; [ reflexivity | ].
  now rewrite H, IH.
Qed.

(** X14: with interconnect, for a group of more than one and accelerators
    of distinct indices, the selection and its score do not depend on the
    order in which the node's accelerators are listed, as long as the free
    ones hold a run of [count] consecutive indices. *)
Theorem interconnect_selection_ignores_list_order (state state' : NodeGPUState.t)
    (count : Z) (pod : V1Pod) :
  1 < count ->
  NodeGPUState.nvlink_enabled state = true ->
  NodeGPUState.nvlink_enabled state' = true ->
  Permutation (NodeGPUState.gpus state) (NodeGPUState.gpus state') ->
  NoDup (map GPUInfo.gpu_index (filter is_free (NodeGPUState.gpus state))) ->
  count <= Z.of_nat (List.length (filter is_free (NodeGPUState.gpus state))) ->
  (exists k, has_run (filter is_free (NodeGPUState.gpus state)) k count) ->
  select_gpu_set state count pod = select_gpu_set state' count pod.
Proof.
  intros Hcount Hnv Hnv' Hp Hnd Hlen Hrun.
  assert (Hge : 1 <= count) by lia.
  pose proof (filter_perm is_free _ _ Hp) as Hpf.
  assert (Hlen' : List.length (filter is_free (NodeGPUState.gpus state'))
                  = List.length (filter is_free (NodeGPUState.gpus state)))
    by (symmetry; now apply Permutation_length).
  destruct (find_contiguous_first_run _ _ Hge Hnd Hlen Hrun)
    as (k & g & w & Hfind & _).
  assert (Hfind' : find_contiguous_gpus (filter is_free (NodeGPUState.gpus state')) count
                   = Some (g :: w)).
  { rewrite <- Hfind. unfold find_contiguous_gpus.
    now rewrite <- (sorted_by_index_of_perm _ _ Hpf Hnd). }
  unfold select_gpu_set. rewrite Hlen', Hnv, Hnv', Hfind, Hfind'.
  destruct (Z.of_nat (List.length (filter is_free (NodeGPUState.gpus state))) <? count);
    [ reflexivity | ].
  destruct (Z.eqb_spec count 1); [ lia | ]. simpl.
  unfold scored_set. erewrite mapM_ext; [ reflexivity | ].
  intros x. apply score_single_gpu_node. congruence.
Qed.

Lemma interconnect_selection_ignores_list_order_witness :
  1 < 3 /\
  Permutation (NodeGPUState.gpus scattered) (NodeGPUState.gpus scattered_by_index) /\
  select_gpu_set scattered 3 (pending_pod (Some "3") None)
  = select_gpu_set scattered_by_index 3 (pending_pod (Some "3") None).
Proof.
  assert (H1 : 1 < 3) by lia.
  assert (Hp : Permutation (NodeGPUState.gpus scattered)
                 (NodeGPUState.gpus scattered_by_index)).
  { simpl.
    apply Permutation_sym.
    apply (Permutation_cons_app
             [h100 "node-a" 5 80896 5]
             [h100 "node-a" 2 80896 5; h100 "node-a" 6 512 95;
              h100 "node-a" 7 80896 5; h100 "node-a" 3 80896 5]).
    apply (Permutation_cons_app
             [h100 "node-a" 5 80896 5]
             [h100 "node-a" 6 512 95; h100 "node-a" 7 80896 5; h100 "node-a" 3 80896 5]).
    apply (Permutation_cons_app
             [h100 "node-a" 5 80896 5; h100 "node-a" 6 512 95; h100 "node-a" 7 80896 5]
             []).
    apply Permutation_refl. }
  split; [ exact H1 | split; [ exact Hp | ] ].
  apply (interconnect_selection_ignores_list_order scattered scattered_by_index 3
           (pending_pod (Some "3") None) H1 eq_refl eq_refl Hp).
  - simpl. repeat constructor; simpl; intuition discriminate.
  - vm_compute. discriminate.
  - exists 1. intros d Hd. assert (Hcases : d = 0 \/ d = 1 \/ d = 2) by lia.
    destruct Hcases as [ -> | [ -> | -> ] ].
    + exists (h100 "node-a" 1 80896 5). split; [ simpl; tauto | reflexivity ].
    + exists (h100 "node-a" 2 80896 5). split; [ simpl; tauto | reflexivity ].
    + exists (h100 "node-a" 3 80896 5). split; [ simpl; tauto | reflexivity ].
Defined.

(* ================================================================== *)
(** * Decisions of the single-accelerator path *)

Lemma fadd_nan_r (x : float) : fadd x S754_nan = S754_nan.
Proof. now destruct x. Qed.

Lemma fadd_nan_l (y : float) : fadd S754_nan y = S754_nan.
Proof. now destruct y. Qed.

(** A utilization that is not a number makes the score not a number. *)
Lemma score_single_gpu_nan (gpu : GPUInfo.t) (state : NodeGPUState.t) (pod : V1Pod)
    (s : float) :
  GPUInfo.utilization gpu = S754_nan ->
  score_single_gpu gpu state pod = Ok s ->
  s = S754_nan.
Proof.
  intros Hu. unfold score_single_gpu. rewrite Hu.
  destruct (int_true_div (GPUInfo.memory_free gpu) (GPUInfo.memory_total gpu))
    as [ frac | e ]; cbn [bind]; [ | discriminate ].
  change (fmul (fsub (float_of_int 100) S754_nan) f0_3) with S754_nan.
  rewrite fadd_nan_r.
  destruct (contains "H100" (GPUInfo.product gpu));
    destruct (NodeGPUState.nvlink_enabled state);
    rewrite ?fadd_nan_l; intros H; now injection H as <-.
Qed.

(** X15: on the single-accelerator path a decision names exactly one
    accelerator, whatever the requested count: an accelerator with at least
    1000 MB free of a node of the cache with [free_gpus >= gpu_req].  Its
    score is the score of that accelerator and is a number above minus
    infinity; an accelerator whose utilization reads NaN is never the one
    selected. *)
Theorem single_gpu_decision_shape (gs : dict NodeGPUState.t) (gpu_req tp_size : Z)
    (pod : V1Pod) (r : SchedulingResult.t) :
  tp_size <= 1 ->
  find_best_placement gs gpu_req tp_size pod = Ok (Some r) ->
  exists (name : string) (st : NodeGPUState.t) (g : GPUInfo.t),
    In (name, st) gs /\
    gpu_req <= NodeGPUState.free_gpus st /\
    In g (NodeGPUState.gpus st) /\
    1000 <= GPUInfo.memory_free g /\
    SchedulingResult.node r = name /\
    SchedulingResult.gpus r = [GPUInfo.gpu_index g] /\
    score_single_gpu g st pod = Ok (SchedulingResult.score r) /\
    fltb neg_inf (SchedulingResult.score r) = true /\
    GPUInfo.utilization g <> S754_nan.
Proof.
  intros Htp. unfold find_best_placement. apply Z.leb_le in Htp. rewrite Htp.
  rewrite find_single_gpu_placement_scan.
  destruct (foldM _ _ best_init) as [ res | e ] eqn:Hfold; simpl; [ | discriminate ].
  intros E. injection E as E.
  destruct (scan_inv _ _ _ _ _ Hfold)
    as [ [-> _] | (i & [[name st] g] & s & r' & Hi & Ha & -> & Hgt & _) ];
    [ discriminate | ].
  simpl in E. injection E as ->.
  destruct (single_cand_some _ _ _ _ _ _ Ha) as (Hfree & Hs & -> & Hn & Hg).
  apply nth_error_In, in_eligible_accelerators in Hi. destruct Hi as (Hin & Hgate & Hgin).
  exists name, st, g. repeat split; auto.
  intros Hnan. rewrite (score_single_gpu_nan g st pod _ Hnan Hs) in Hgt. discriminate.
Qed.

Lemma single_gpu_decision_shape_witness :
  1 <= 1 /\
  exists r : SchedulingResult.t,
    find_best_placement nan_utilization 1 1 (pending_pod (Some "1") None) = Ok (Some r) /\
    SchedulingResult.gpus r = [1] /\
    exists (name : string) (st : NodeGPUState.t) (g : GPUInfo.t),
      In (name, st) nan_utilization /\
      In g (NodeGPUState.gpus st) /\
      SchedulingResult.gpus r = [GPUInfo.gpu_index g] /\
      GPUInfo.utilization g <> S754_nan.
Proof.
  split; [ lia | ].
  eexists. split; [ vm_compute; reflexivity | ]. split; [ reflexivity | ].
  match goal with
  | |- context [SchedulingResult.gpus ?r] =>
      destruct (single_gpu_decision_shape nan_utilization 1 1
                  (pending_pod (Some "1") None) r (Z.le_refl 1) eq_refl)
        as (name & st & g & Hin & _ & Hg & _ & _ & Hgpus & _ & _ & Hnan)
  end.
  exists name, st, g. auto.
Defined.
